(** * darktable view manager (src/views/view.c): a shallow embedding

    The file embeds the parts of [view.c] that decide how views are ordered,
    switched and fed with input events, how the image and the images to act
    on are resolved, how the selection bit of an image is set and toggled,
    how the label of an image mode is built, and how the thumbnail overlay
    glyphs are hit-tested.  Part I holds the embedding, Part II the
    properties proved about it.

    Conventions.
    - C [int] / [int32_t] / [gboolean] values are [Z]; no operation of the
      embedded functions can leave the 32-bit range, so no wrap-around is
      written out.
    - [float] and [double] values are read as exact rationals ([Q]); the
      rounding of the machine operations is not part of that reading.  The
      star test is embedded a second time in IEEE-754 arithmetic, to compare
      the two on concrete inputs.
    - Function pointers of a view or of a lib module are optional fields
      ([None] is the C [NULL]); a call through them acts on the state of the
      collaborators (GTK, configuration, module private data), which is an
      abstract type [W], and is recorded in a call log. *)

From Stdlib Require Import ZArith QArith Qminmax Qabs Lqa Lia.
From Stdlib Require Import List String Ascii Bool Permutation Sorted.
From Stdlib Require Import Floats.SpecFloat.
Import ListNotations.

Set Implicit Arguments.
Set Maximal Implicit Insertion.
Open Scope string_scope.
Open Scope list_scope.
Open Scope Z_scope.

(* ================================================================= *)
(** * Part I: the embedding *)
(* ================================================================= *)

(** ** C strings *)

(** [strcmp] on NUL-terminated strings: the bytes are compared as
    [unsigned char], the comparison stops at the first difference or at the
    terminator.  The C standard only fixes the sign of the result; the
    difference of the two bytes is what the usual implementations return, and
    the properties below only use the sign. *)
Definition uchar (c : ascii) : Z := Z.of_N (N_of_ascii c).

Fixpoint strcmp (a b : string) : Z :=
  match a, b with
  | EmptyString, EmptyString => 0
  | EmptyString, String d _ => 0 - uchar d
  | String c _, EmptyString => uchar c - 0
  | String c a', String d b' =>
      if uchar c =? uchar d
      then (if uchar c =? 0 then 0 else strcmp a' b')
      else uchar c - uchar d
  end.

(** Integer ranges of [for] loops: [Zseq lo n] is [lo; lo+1; ...; lo+n-1]. *)
Definition Zseq (lo : Z) (n : nat) : list Z :=
  map (fun k => lo + Z.of_nat k) (seq 0 n).

(** ** Capability tables *)

Section Capabilities.

(** The state of everything outside the view manager that a hook or a
    collaborator call may read or change. *)
Variable W : Type.

(** [dt_view_t]: the identity of a view and the entry points that
    [dt_view_load_module] binds (a missing symbol leaves [NULL]).  [name]
    and [view] are called by [sort_views] and by
    [dt_view_manager_switch_by_view] without a [NULL] test, so a view of the
    registry exports both; [name] is the string that [name(self)] returns. *)
Record dt_view_t : Type := {
  module_name : string;
  name : string;
  view : W -> W * Z;
  try_enter : option (W -> W * Z);
  enter : option (W -> W);
  leave : option (W -> W);
  connect_key_accels : option (W -> W);
  mouse_leave : option (W -> W);
  mouse_moved : option (Q -> Q -> Q -> Z -> W -> W);
  button_pressed : option (Q -> Q -> Q -> Z -> Z -> Z -> W -> W * Z);
  button_released : option (Q -> Q -> Z -> Z -> W -> W * Z)
}.

(** [dt_lib_module_t], as far as [view.c] uses it.  [gui_cleanup],
    [container] and [expandable] are called without a [NULL] test. *)
Record dt_lib_module_t : Type := {
  plugin_name : string;
  gui_cleanup : W -> W;
  container : W -> W * Z;
  expandable : W -> W * Z;
  lib_view_leave : option (option dt_view_t -> option dt_view_t -> W -> W);
  lib_view_enter : option (option dt_view_t -> option dt_view_t -> W -> W);
  lib_connect_key_accels : option (W -> W);
  lib_mouse_leave : option (W -> W * Z);
  lib_mouse_moved : option (Q -> Q -> Q -> Z -> W -> W * Z);
  lib_button_pressed : option (Q -> Q -> Q -> Z -> Z -> Z -> W -> W * Z);
  lib_button_released : option (Q -> Q -> Z -> Z -> W -> W * Z)
}.

End Capabilities.

(** ** The view registry *)

Section Registry.

Variable W : Type.

(** [static const char *view_order[]] and [n_view_order]. *)
Definition view_order : list string := ["lighttable"; "darkroom"].

Definition n_view_order : Z := Z.of_nat (List.length view_order).

(** The [for] loop of [sort_views] for one of the two views: every entry of
    [view_order] that equals the module name overwrites the position. *)
Definition view_order_pos (mname : string) : Z :=
  fold_left
    (fun pos iv => if strcmp mname (snd iv) =? 0 then fst iv else pos)
    (combine (Zseq 0 (List.length view_order)) view_order)
    n_view_order.

Definition sort_views (av bv : dt_view_t W) : Z :=
  let aname := name av in
  let bname := name bv in
  let apos := view_order_pos (module_name av) in
  let bpos := view_order_pos (module_name bv) in
  let order := apos - bpos in
  if order =? 0 then strcmp aname bname else order.

(** Insertion into an ordered list, for the model of
    [dt_module_load_modules] below: the new element goes before the first
    element that does not compare smaller. *)
Fixpoint insert_sorted (cmp : dt_view_t W -> dt_view_t W -> Z)
         (x : dt_view_t W) (l : list (dt_view_t W)) : list (dt_view_t W) :=
  match l with
  | [] => [x]
  | y :: l' => if 0 <? cmp x y then y :: insert_sorted cmp x l' else x :: l
  end.

(** Modelled from the spec: [dt_module_load_modules] of common/module.c,
    which is not among the sources.  Section 4.2 of the specification has it
    return the loaded views as an ordered list, ordered by the comparator it
    is handed.  [loaded] lists the views in the order in which the directory
    enumeration delivered them. *)
Definition dt_module_load_modules
           (sort_modules : dt_view_t W -> dt_view_t W -> Z)
           (loaded : list (dt_view_t W)) : list (dt_view_t W) :=
  fold_right (insert_sorted sort_modules) [] loaded.

(** [vm->views = dt_module_load_modules("/views", ..., sort_views)]. *)
Definition dt_view_manager_load_modules (loaded : list (dt_view_t W))
  : list (dt_view_t W) :=
  dt_module_load_modules sort_views loaded.

(** The parts of a registry that its order is described with: the views
    whose module name is a given entry of [view_order], and the views whose
    module name is no entry of it. *)
Definition listed_as (n : string) (l : list (dt_view_t W))
  : list (dt_view_t W) :=
  filter (fun v => strcmp (module_name v) n =? 0) l.

Definition unlisted (l : list (dt_view_t W)) : list (dt_view_t W) :=
  filter (fun v => forallb (fun n => negb (strcmp (module_name v) n =? 0))
                           view_order) l.

Definition name_le (a b : dt_view_t W) : Prop :=
  strcmp (name a) (name b) <= 0.

(** [a] may stand before [b] in a list ordered by [sort_views]; and the
    comparator does not tell [a] and [b] apart. *)
Definition registry_le (a b : dt_view_t W) : Prop := sort_views a b <= 0.

Definition registry_eqv (a b : dt_view_t W) : Prop := sort_views a b = 0.

(** [registry] is what line 140 asks [dt_module_load_modules] for: the
    loaded views, in an order that [sort_views] accepts. *)
Definition is_registry_of (loaded registry : list (dt_view_t W)) : Prop :=
  Permutation loaded registry /\ StronglySorted registry_le registry.

(** The views of a list at a given position of [view_order]. *)
Definition at_pos (k : Z) (l : list (dt_view_t W)) : list (dt_view_t W) :=
  filter (fun v => view_order_pos (module_name v) =? k) l.

End Registry.

(** ** Calls that leave [view.c], and the call log *)

(** The widget that stands for a lib module in a panel. *)
Inductive widget : Type :=
| W_expander (plugin : string)       (* dt_lib_gui_get_expander(plugin) *)
| W_plugin_widget (plugin : string). (* plugin->widget *)

Inductive help_url : Type :=
| U_plugin (plugin : string)         (* dt_get_help_url(plugin_name) *)
| U_literal (url : string).

Inductive dt_signal_t : Type :=
| DT_SIGNAL_VIEWMANAGER_VIEW_CHANGED (old_view new_view : option string)
| DT_SIGNAL_CONTROL_LOG_REDRAW
| DT_SIGNAL_ACTIVE_IMAGES_CHANGE.

(** The collaborators that the embedded functions call or read: control,
    GTK and the panels, undo, configuration, accelerators, the database.
    Views and lib modules are named by [module_name] and [plugin_name]. *)
Inductive ext_call : Type :=
| X_key_accelerators_on          (* darktable.control->key_accelerators_on *)
| X_dt_control_key_accelerators_on
| X_dt_control_change_cursor
| X_scroll_to_clear              (* memset(darktable.gui->scroll_to, 0, ..) *)
| X_dt_undo_clear
| X_lib_data_clear (plugin : string)        (* plugin->data = NULL *)
| X_lib_widget_clear (plugin : string)      (* plugin->widget = NULL *)
| X_dt_accel_disconnect_list_lib (plugin : string) (* and the list = NULL *)
| X_dt_accel_disconnect_list_view (v : string)     (* and the list = NULL *)
| X_dt_ui_container_destroy_children (l : nat)
| X_dt_ui_container_foreach_remove_child (l : nat)
| X_gtk_widget_destroy_accels_window
| X_dt_view_accels_refresh
| X_dt_thumbtable_update_accels_connection (view_type : Z)
| X_dt_ui_restore_panels
| X_dt_lib_gui_get_expander (plugin : string)
| X_dt_lib_connect_common_accels (plugin : string)
| X_dt_gui_add_help_link (w : widget) (url : help_url)
| X_dt_ui_container_add_widget (c : Z) (w : widget)
| X_dt_lib_is_visible (plugin : string)
| X_dt_conf_get_bool (key : string)
| X_dt_lib_gui_set_expanded (plugin : string) (expanded : bool)
| X_gtk_widget_show_all (plugin : string)
| X_gtk_widget_hide (plugin : string)
| X_dt_ui_update_scrollbars
| X_dt_control_signal_raise (sig : dt_signal_t)
| X_dt_control_get_mouse_over_id
| X_sqlite3_step_first_selected      (* nonzero: the statement has a row *)
| X_sqlite3_column_int.

Inductive view_hook : Type :=
| H_view | H_try_enter | H_enter | H_leave | H_connect_key_accels
| H_mouse_leave | H_mouse_moved | H_button_pressed | H_button_released.

Inductive lib_hook : Type :=
| L_gui_cleanup | L_container | L_expandable | L_view_leave | L_view_enter
| L_connect_key_accels | L_mouse_leave | L_mouse_moved | L_button_pressed
| L_button_released.

(** One entry of the call log: whose entry point was called, or which
    collaborator, and the value that came back (0 for a [void] call). *)
Inductive event : Type :=
| EvView (v : string) (h : view_hook) (r : Z)
| EvLib (p : string) (h : lib_hook) (r : Z)
| EvExt (c : ext_call) (r : Z).

(** Selections of the call log: the calls through function pointers of
    views and lib modules, the [leave] and [enter] calls of views, and the
    [leave] calls of views together with the [view_leave] calls of lib
    modules. *)
Definition is_hook (e : event) : bool :=
  match e with
  | EvExt _ _ => false
  | _ => true
  end.

Definition is_view_lifecycle (e : event) : bool :=
  match e with
  | EvView _ H_leave _ | EvView _ H_enter _ => true
  | _ => false
  end.

Definition is_leave (e : event) : bool :=
  match e with
  | EvView _ H_leave _ | EvLib _ L_view_leave _ => true
  | _ => false
  end.

Definition is_lib_call (e : event) : bool :=
  match e with
  | EvLib _ _ _ => true
  | _ => false
  end.

Definition is_view_call (e : event) : bool :=
  match e with
  | EvView _ _ _ => true
  | _ => false
  end.

Definition ev_name (e : event) : string :=
  match e with
  | EvView v _ _ => v
  | EvLib p _ _ => p
  | EvExt _ _ => ""
  end.

Definition ev_ret (e : event) : Z :=
  match e with
  | EvView _ _ r | EvLib _ _ r | EvExt _ r => r
  end.

(** The signals that the calls of a log raise. *)
Definition signals_raised (l : list event) : list dt_signal_t :=
  flat_map (fun e => match e with
                     | EvExt (X_dt_control_signal_raise sig) _ => [sig]
                     | _ => []
                     end) l.

(** The call without the value that came back. *)
Definition forget_ret (e : event) : event :=
  match e with
  | EvView v h _ => EvView v h 0
  | EvLib p h _ => EvLib p h 0
  | EvExt c _ => EvExt c 0
  end.

(** No call of the list returned a value other than zero. *)
Definition none_handled (l : list event) : bool :=
  forallb (fun e => ev_ret e =? 0) l.

(** What [view.c] takes from files and headers that are not among the
    sources: the behaviour of the collaborators, the list of lib modules
    [darktable.lib->plugins], which libs/lib.c owns and [view.c] only
    traverses, [dt_lib_is_visible_in_view] of libs/lib.c, and three
    constants. *)
Class Collaborators (W : Type) : Type := {
  run_ext : ext_call -> W -> W * Z;
  lib_plugins : list (dt_lib_module_t W);
  dt_lib_is_visible_in_view : dt_lib_module_t W -> dt_view_t W -> bool;
  DT_UI_CONTAINER_SIZE : nat;
  DT_VIEW_LIGHTTABLE : Z;
  DT_VIEW_DARKROOM : Z
}.

(** ** The view manager and its state monad *)

Section ViewManager.

Variable W : Type.
Context {collaborators : Collaborators W}.

(** [dt_view_manager_t], as far as the embedded functions use it. *)
Record dt_view_manager_t : Type := {
  views : list (dt_view_t W);
  current_view : option (dt_view_t W);
  active_images : list Z;
  accels_window_window : bool;       (* vm->accels_window.window != NULL *)
  accels_window_sticky : bool
}.

(** The global [darktable]: the collaborators' state and
    [darktable.view_manager]. *)
Record darktable_t : Type := {
  st_world : W;
  view_manager : dt_view_manager_t
}.

Definition with_world (s : darktable_t) (w : W) : darktable_t :=
  {| st_world := w; view_manager := view_manager s |}.

Definition with_view_manager (s : darktable_t) (vm : dt_view_manager_t)
  : darktable_t :=
  {| st_world := st_world s; view_manager := vm |}.

(** A computation returns a value, a new state and the calls it made. *)
Definition M (A : Type) : Type := darktable_t -> A * darktable_t * list event.

Definition val {A} (r : A * darktable_t * list event) : A := fst (fst r).
Definition post {A} (r : A * darktable_t * list event) : darktable_t :=
  snd (fst r).
Definition log {A} (r : A * darktable_t * list event) : list event := snd r.

Definition ret {A} (a : A) : M A := fun s => (a, s, []).

Definition bind {A B} (m : M A) (f : A -> M B) : M B :=
  fun s =>
    let r1 := m s in
    let r2 := f (val r1) (post r1) in
    (val r2, post r2, log r1 ++ log r2).

Definition gets {A} (f : dt_view_manager_t -> A) : M A :=
  fun s => (f (view_manager s), s, []).

Definition modify_vm (f : dt_view_manager_t -> dt_view_manager_t) : M unit :=
  fun s => (tt, with_view_manager s (f (view_manager s)), []).

(** A collaborator call, with and without use of its result. *)
Definition ext (c : ext_call) : M Z :=
  fun s =>
    let wr := run_ext c (st_world s) in
    (snd wr, with_world s (fst wr), [EvExt c (snd wr)]).

Definition ext_ (c : ext_call) : M unit := bind (ext c) (fun _ => ret tt).

(** Calls through the function pointers of a view and of a lib module. *)
Definition call_view (v : dt_view_t W) (h : view_hook) (f : W -> W * Z)
  : M Z :=
  fun s =>
    let wr := f (st_world s) in
    (snd wr, with_world s (fst wr), [EvView (module_name v) h (snd wr)]).

Definition call_view_void (v : dt_view_t W) (h : view_hook) (f : W -> W)
  : M unit :=
  fun s => (tt, with_world s (f (st_world s)), [EvView (module_name v) h 0]).

Definition call_lib (p : dt_lib_module_t W) (h : lib_hook) (f : W -> W * Z)
  : M Z :=
  fun s =>
    let wr := f (st_world s) in
    (snd wr, with_world s (fst wr), [EvLib (plugin_name p) h (snd wr)]).

Definition call_lib_void (p : dt_lib_module_t W) (h : lib_hook) (f : W -> W)
  : M unit :=
  fun s => (tt, with_world s (f (st_world s)), [EvLib (plugin_name p) h 0]).

(** [if(c) stmt;] and [if(fp) fp(...);] *)
Definition when (c : bool) (m : M unit) : M unit := if c then m else ret tt.

Definition if_present {F} (fp : option F) (call : F -> M unit) : M unit :=
  match fp with
  | Some f => call f
  | None => ret tt
  end.

(** [for(iter = list; iter; iter = next(iter)) body(iter->data);] *)
Fixpoint for_each {X} (l : list X) (body : X -> M unit) : M unit :=
  match l with
  | [] => ret tt
  | x :: l' => bind (body x) (fun _ => for_each l' body)
  end.

(** *** What a computation is observed to do *)

(** [emits P l m]: in every state, the calls of [m] that [P] selects are
    exactly [l], in this order. *)
Definition emits (P : event -> bool) {A} (l : list event) (m : M A)
  : Prop :=
  forall s, filter P (log (m s)) = l.

(** [vm_effect g m]: [m] changes the view manager by [g]. *)
Definition vm_effect {A} (g : dt_view_manager_t -> dt_view_manager_t)
           (m : M A) : Prop :=
  forall s, view_manager (post (m s)) = g (view_manager s).

Definition returns {A} (a : A) (m : M A) : Prop :=
  forall s, val (m s) = a.

End ViewManager.

Declare Scope vm_scope.
Delimit Scope vm_scope with vm.
Notation "x <- m ;; k" := (bind m (fun x => k))
  (at level 61, m at next level, right associativity) : vm_scope.
Notation "m ;; k" := (bind m (fun _ => k))
  (at level 61, right associativity) : vm_scope.

(** [fp != NULL] *)
Definition is_some {A} (o : option A) : bool :=
  match o with
  | Some _ => true
  | None => false
  end.

(** ** Switching views *)

Section Switch.

Context {W : Type} {collaborators : Collaborators W}.
Local Open Scope vm_scope.

Definition set_current_view (v : option (dt_view_t W)) : M W unit :=
  modify_vm (fun vm =>
    {| views := views vm; current_view := v;
       active_images := active_images vm;
       accels_window_window := accels_window_window vm;
       accels_window_sticky := accels_window_sticky vm |}).

Definition set_accels_window_window (b : bool) : M W unit :=
  modify_vm (fun vm =>
    {| views := views vm; current_view := current_view vm;
       active_images := active_images vm;
       accels_window_window := b;
       accels_window_sticky := accels_window_sticky vm |}).

Definition dt_view_accels_hide : M W unit :=
  window <- gets accels_window_window ;;
  sticky <- gets accels_window_sticky ;;
  if window && sticky then ret tt
  else
    when window (ext_ X_gtk_widget_destroy_accels_window) ;;
    set_accels_window_window false.

(** Lines 289-304: accelerators, cursor, pending scroll, undo list. *)
Definition switch_prologue : M W unit :=
  on <- ext X_key_accelerators_on ;;
  when (on =? 0) (ext_ X_dt_control_key_accelerators_on) ;;
  ext_ X_dt_control_change_cursor ;;
  ext_ X_scroll_to_clear ;;
  ext_ X_dt_undo_clear.

(** Lines 307-340: the special case of entering nothing. *)
Definition switch_to_none (old_view : option (dt_view_t W)) : M W Z :=
  match old_view with
  | Some ov =>
      if_present (leave ov) (call_view_void ov H_leave) ;;
      let plugins := lib_plugins in
      for_each plugins (fun plugin =>
        when (dt_lib_is_visible_in_view plugin ov)
          (if_present (lib_view_leave plugin)
             (fun f => call_lib_void plugin L_view_leave (f (Some ov) None)) ;;
           call_lib_void plugin L_gui_cleanup (gui_cleanup plugin) ;;
           ext_ (X_lib_data_clear (plugin_name plugin)) ;;
           ext_ (X_dt_accel_disconnect_list_lib (plugin_name plugin)) ;;
           ext_ (X_lib_widget_clear (plugin_name plugin))))
  | None => ret tt
  end ;;
  for_each (seq 0 DT_UI_CONTAINER_SIZE)
    (fun l => ext_ (X_dt_ui_container_destroy_children l)) ;;
  set_current_view None ;;
  window <- gets accels_window_window ;;
  when window dt_view_accels_hide ;;
  ret 0.

(** Lines 352-376: leaving the current view. *)
Definition switch_leave_old (old_view new_view : dt_view_t W) : M W unit :=
  if_present (leave old_view) (call_view_void old_view H_leave) ;;
  ext_ (X_dt_accel_disconnect_list_view (module_name old_view)) ;;
  let plugins := lib_plugins in
  for_each plugins (fun plugin =>
    when (dt_lib_is_visible_in_view plugin old_view)
      (if_present (lib_view_leave plugin)
         (fun f => call_lib_void plugin L_view_leave
                     (f (Some old_view) (Some new_view))) ;;
       ext_ (X_dt_accel_disconnect_list_lib (plugin_name plugin)))) ;;
  for_each (seq 0 DT_UI_CONTAINER_SIZE)
    (fun l => ext_ (X_dt_ui_container_foreach_remove_child l)).

(** Lines 389-420: the body of the loop that adds the lib modules of the new
    view to the panels. *)
Definition switch_attach_plugin (new_view : dt_view_t W)
           (plugin : dt_lib_module_t W) : M W unit :=
  when (dt_lib_is_visible_in_view plugin new_view)
    (expander <- ext (X_dt_lib_gui_get_expander (plugin_name plugin)) ;;
     if_present (lib_connect_key_accels plugin)
       (call_lib_void plugin L_connect_key_accels) ;;
     ext_ (X_dt_lib_connect_common_accels (plugin_name plugin)) ;;
     let w := if expander =? 0 then W_plugin_widget (plugin_name plugin)
              else W_expander (plugin_name plugin) in
     ext_ (X_dt_gui_add_help_link w (U_plugin (plugin_name plugin))) ;;
     when ((strcmp (plugin_name plugin) "module_toolbox" =? 0)
           || (strcmp (plugin_name plugin) "view_toolbox" =? 0))
       (view_type <- call_view new_view H_view (view new_view) ;;
        when (view_type =? DT_VIEW_LIGHTTABLE)
          (ext_ (X_dt_gui_add_help_link w
                   (U_literal
                      "lighttable_chapter.html#lighttable_overview"))) ;;
        when (view_type =? DT_VIEW_DARKROOM)
          (ext_ (X_dt_gui_add_help_link w
                   (U_literal
                      "darkroom_bottom_panel.html#darkroom_bottom_panel")))) ;;
     c <- call_lib plugin L_container (container plugin) ;;
     ext_ (X_dt_ui_container_add_widget c w)).

(** Lines 423-450: the body of the loop that restores the visibility of the
    lib modules and tells them that the view is entered. *)
Definition switch_show_plugin (old_view : option (dt_view_t W))
           (new_view : dt_view_t W) (plugin : dt_lib_module_t W) : M W unit :=
  when (dt_lib_is_visible_in_view plugin new_view)
    (visible <- ext (X_dt_lib_is_visible (plugin_name plugin)) ;;
     expandable_ <- call_lib plugin L_expandable (expandable plugin) ;;
     (if negb (expandable_ =? 0) then
        expanded <- ext (X_dt_conf_get_bool
                           ("plugins/" ++ module_name new_view ++ "/"
                            ++ plugin_name plugin ++ "/expanded")%string) ;;
        ext_ (X_dt_lib_gui_set_expanded (plugin_name plugin)
                (negb (expanded =? 0)))
      else if negb (visible =? 0)
           then ext_ (X_gtk_widget_show_all (plugin_name plugin))
           else ext_ (X_gtk_widget_hide (plugin_name plugin))) ;;
     if_present (lib_view_enter plugin)
       (fun f => call_lib_void plugin L_view_enter
                   (f old_view (Some new_view)))).

(** Lines 351-469: everything after the entry guard. *)
Definition switch_enter (old_view : option (dt_view_t W))
           (new_view : dt_view_t W) : M W Z :=
  if_present old_view (fun ov => switch_leave_old ov new_view) ;;
  set_current_view (Some new_view) ;;
  view_type <- call_view new_view H_view (view new_view) ;;
  ext_ (X_dt_thumbtable_update_accels_connection view_type) ;;
  ext_ X_dt_ui_restore_panels ;;
  let plugins := lib_plugins in
  for_each (rev plugins) (switch_attach_plugin new_view) ;;
  for_each plugins (switch_show_plugin old_view new_view) ;;
  if_present (enter new_view) (call_view_void new_view H_enter) ;;
  if_present (connect_key_accels new_view)
    (call_view_void new_view H_connect_key_accels) ;;
  ext_ X_dt_ui_update_scrollbars ;;
  window <- gets accels_window_window ;;
  sticky <- gets accels_window_sticky ;;
  when (window && sticky) (ext_ X_dt_view_accels_refresh) ;;
  ext_ (X_dt_control_signal_raise
          (DT_SIGNAL_VIEWMANAGER_VIEW_CHANGED
             (option_map (@module_name W) old_view)
             (Some (module_name new_view)))) ;;
  ext_ (X_dt_control_signal_raise DT_SIGNAL_CONTROL_LOG_REDRAW) ;;
  ret 0.

Definition dt_view_manager_switch_by_view (nv : option (dt_view_t W)) : M W Z :=
  old_view <- gets current_view ;;
  let new_view := nv in
  switch_prologue ;;
  match new_view with
  | None => switch_to_none old_view
  | Some new_view =>
      match try_enter new_view with
      | Some f =>
          error <- call_view new_view H_try_enter f ;;
          if negb (error =? 0) then ret error
          else switch_enter old_view new_view
      | None => switch_enter old_view new_view
      end
  end.

(** [*view_name == '\0'] *)
Definition empty_c_string (s : string) : bool :=
  match s with
  | EmptyString => true
  | String c _ => uchar c =? 0
  end.

Definition dt_view_manager_switch (view_name : string) : M W Z :=
  let switching_to_none := empty_c_string view_name in
  if switching_to_none then dt_view_manager_switch_by_view None
  else
    vs <- gets views ;;
    match find (fun v => strcmp (module_name v) view_name =? 0) vs with
    | Some new_view => dt_view_manager_switch_by_view (Some new_view)
    | None => ret 1
    end.

(** The value that the entry guard of [new_view] returns when the switch
    reaches it, if the view has one. *)
Definition entry_guard_result (new_view : dt_view_t W) (s : darktable_t W)
  : option Z :=
  match try_enter new_view with
  | Some f => Some (snd (f (st_world (post (switch_prologue s)))))
  | None => None
  end.

(** The lifecycle calls that a switch is expected to make: [leave] of the
    old view and [enter] of the new one, where the entry point exists, and
    [view_leave] of every lib module that belongs to a view and has the
    entry point, in the order of [darktable.lib->plugins]. *)
Definition leave_call (old_view : option (dt_view_t W)) : list event :=
  match old_view with
  | Some ov => if is_some (leave ov) then [EvView (module_name ov) H_leave 0]
               else []
  | None => []
  end.

Definition enter_call (new_view : dt_view_t W) : list event :=
  if is_some (enter new_view) then [EvView (module_name new_view) H_enter 0]
  else [].

Definition lib_view_leave_calls (old_view : option (dt_view_t W))
  : list event :=
  match old_view with
  | Some ov =>
      map (fun p => EvLib (plugin_name p) L_view_leave 0)
          (filter (fun p => dt_lib_is_visible_in_view p ov
                            && is_some (lib_view_leave p))
                  lib_plugins)
  | None => []
  end.

End Switch.

(** ** Input events *)

Section Dispatch.

Context {W : Type} {collaborators : Collaborators W}.
Local Open Scope vm_scope.

(** [if(fp(...)) handled = TRUE;] *)
Definition or_handled (handled : bool) (r : Z) : bool :=
  if negb (r =? 0) then true else handled.

(** [while(plugins) { ...; plugins = g_list_previous(plugins); }]: every
    element of the list is visited, [handled] is threaded through. *)
Fixpoint plugins_loop (body : dt_lib_module_t W -> bool -> M W bool)
         (plugins : list (dt_lib_module_t W)) (handled : bool) : M W bool :=
  match plugins with
  | [] => ret handled
  | plugin :: rest =>
      handled' <- body plugin handled ;;
      plugins_loop body rest handled'
  end.

(** [while(plugins && !handled) { ... }]: the loop is left as soon as
    [handled] is set. *)
Fixpoint plugins_loop_until_handled
         (body : dt_lib_module_t W -> bool -> M W bool)
         (plugins : list (dt_lib_module_t W)) (handled : bool) : M W bool :=
  match plugins with
  | [] => ret handled
  | plugin :: rest =>
      if negb handled then
        handled' <- body plugin handled ;;
        plugins_loop_until_handled body rest handled'
      else ret handled
  end.

Definition dt_view_manager_mouse_moved (x y pressure : Q) (which : Z)
  : M W unit :=
  cv <- gets current_view ;;
  match cv with
  | None => ret tt
  | Some v =>
      let plugins := lib_plugins in
      handled <-
        plugins_loop
          (fun plugin handled =>
             match lib_mouse_moved plugin with
             | Some f =>
                 if dt_lib_is_visible_in_view plugin v then
                   r <- call_lib plugin L_mouse_moved
                          (f x y pressure which) ;;
                   ret (or_handled handled r)
                 else ret handled
             | None => ret handled
             end)
          (rev plugins) false ;;
      when (negb handled)
        (if_present (mouse_moved v)
           (fun f => call_view_void v H_mouse_moved (f x y pressure which)))
  end.

Definition dt_view_manager_button_released (x y : Q) (which state : Z)
  : M W Z :=
  cv <- gets current_view ;;
  match cv with
  | None => ret 0
  | Some v =>
      let plugins := lib_plugins in
      handled <-
        plugins_loop
          (fun plugin handled =>
             match lib_button_released plugin with
             | Some f =>
                 if dt_lib_is_visible_in_view plugin v then
                   r <- call_lib plugin L_button_released
                          (f x y which state) ;;
                   ret (or_handled handled r)
                 else ret handled
             | None => ret handled
             end)
          (rev plugins) false ;;
      if handled then ret 1
      else
        match button_released v with
        | Some f =>
            _ <- call_view v H_button_released (f x y which state) ;;
            ret 0
        | None => ret 0
        end
  end.

Definition dt_view_manager_button_pressed
           (x y pressure : Q) (which type state : Z) : M W Z :=
  cv <- gets current_view ;;
  match cv with
  | None => ret 0
  | Some v =>
      let plugins := lib_plugins in
      handled <-
        plugins_loop_until_handled
          (fun plugin handled =>
             match lib_button_pressed plugin with
             | Some f =>
                 if dt_lib_is_visible_in_view plugin v then
                   r <- call_lib plugin L_button_pressed
                          (f x y pressure which type state) ;;
                   ret (or_handled handled r)
                 else ret handled
             | None => ret handled
             end)
          (rev plugins) false ;;
      if handled then ret 1
      else
        match button_pressed v with
        | Some f =>
            call_view v H_button_pressed (f x y pressure which type state)
        | None => ret 0
        end
  end.

(** The lib modules that a dispatcher of the given kind consults for the
    view [v], in the order of the traversal. *)
Definition consulted (has_handler : dt_lib_module_t W -> bool)
           (v : dt_view_t W) (plugins : list (dt_lib_module_t W))
  : list (dt_lib_module_t W) :=
  filter (fun p => has_handler p && dt_lib_is_visible_in_view p v)
         (rev plugins).

(** The common shape of the loop bodies of the dispatchers: a lib module
    that has the handler and belongs to the view is called, and a result
    other than zero sets [handled]. *)
Definition consult (handler : dt_lib_module_t W -> option (W -> W * Z))
           (hk : lib_hook) (v : dt_view_t W)
           (plugin : dt_lib_module_t W) (handled : bool) : M W bool :=
  match handler plugin with
  | Some g =>
      if dt_lib_is_visible_in_view plugin v then
        r <- call_lib plugin hk g ;;
        ret (or_handled handled r)
      else ret handled
  | None => ret handled
  end.

End Dispatch.

(** ** The active images *)

Section ActiveImages.

Context {W : Type} {collaborators : Collaborators W}.
Local Open Scope vm_scope.

Definition set_active_images (l : list Z) : M W unit :=
  modify_vm (fun vm =>
    {| views := views vm; current_view := current_view vm;
       active_images := l;
       accels_window_window := accels_window_window vm;
       accels_window_sticky := accels_window_sticky vm |}).

Definition g_slist_length (l : list Z) : Z := Z.of_nat (List.length l).

(** [GPOINTER_TO_INT(g_slist_nth_data(l, n))]: [NULL], that is 0, when the
    list is too short. *)
Definition g_slist_nth_data (l : list Z) (n : nat) : Z := nth n l 0.

Definition dt_view_get_image_to_act_on : M W Z :=
  let ret_ := -1 in
  mouseover <- ext X_dt_control_get_mouse_over_id ;;
  if 0 <? mouseover then ret mouseover
  else
    imgs <- gets active_images ;;
    if 0 <? g_slist_length imgs then ret (g_slist_nth_data imgs 0)
    else
      row <- ext X_sqlite3_step_first_selected ;;
      if negb (row =? 0) then ext X_sqlite3_column_int
      else ret ret_.

Definition dt_view_active_images_reset (raise : Z) : M W unit :=
  imgs <- gets active_images ;;
  if g_slist_length imgs <? 1 then ret tt
  else
    set_active_images [] ;;
    when (negb (raise =? 0))
      (ext_ (X_dt_control_signal_raise DT_SIGNAL_ACTIVE_IMAGES_CHANGE)).

Definition dt_view_active_images_add (imgid raise : Z) : M W unit :=
  imgs <- gets active_images ;;
  set_active_images (imgs ++ [imgid]) ;;
  when (negb (raise =? 0))
    (ext_ (X_dt_control_signal_raise DT_SIGNAL_ACTIVE_IMAGES_CHANGE)).

(** The value that [dt_control_get_mouse_over_id()] returns in a state. *)
Definition mouse_over_id (s : darktable_t W) : Z :=
  snd (run_ext X_dt_control_get_mouse_over_id (st_world s)).

End ActiveImages.

(** ** Thumbnail overlays: which control is under the pointer *)

(** Modelled from the spec: the enumerators of [dt_view_image_over_t]
    (views/view.h is not among the sources).  Section 4.5 of the
    specification gives the scan order "rating stars 1..5, reject, group,
    audio, altered" with "none" for no match; [view.c] starts the scan at
    [DT_VIEW_ERR], ends it before [DT_VIEW_END] and calls [DT_VIEW_DESERT]
    the value for which nothing is hovered. *)
Definition DT_VIEW_ERR : Z := -1.
Definition DT_VIEW_DESERT : Z := 0.
Definition DT_VIEW_STAR_1 : Z := 1.
Definition DT_VIEW_STAR_2 : Z := 2.
Definition DT_VIEW_STAR_3 : Z := 3.
Definition DT_VIEW_STAR_4 : Z := 4.
Definition DT_VIEW_STAR_5 : Z := 5.
Definition DT_VIEW_REJECT : Z := 6.
Definition DT_VIEW_GROUP : Z := 7.
Definition DT_VIEW_AUDIO : Z := 8.
Definition DT_VIEW_ALTERED : Z := 9.
Definition DT_VIEW_END : Z := 10.

Definition DECORATION_SIZE_LIMIT : Z := 40.

(** Conversion of an [int] to [float] or [double]. *)
Definition flt (z : Z) : Q := inject_Z z.

Definition Qltb (a b : Q) : bool := negb (Qle_bool b a).

Section ImageOver.

(** The macro [DT_PIXEL_APPLY_DPI] of gui/gtk.h, the configuration flag
    ["plugins/lighttable/extended_thumb_overlay"] and
    [darktable.gui->show_overlays]. *)
Variable DT_PIXEL_APPLY_DPI : Q -> Q.
Variable extended_thumb_overlay : bool.
Variable show_overlays : bool.

Local Open Scope Q_scope.

Definition overlay_r1 (width : Z) : Q :=
  Qmin (DT_PIXEL_APPLY_DPI 20.0 / 2.0) (0.91 * flt width / 20.0).

(** The vertical position of the row of stars. *)
Definition overlay_y (width height zoom : Z) : Q :=
  let r1 := overlay_r1 width in
  if negb (zoom =? 1)%Z
  then (if extended_thumb_overlay then 0.93 * flt height
        else 0.955 * flt height - r1)
  else 9.0 * r1.

(** [(px - x) * (px - x) + (py - y) * (py - y) < r1 * r1] *)
Definition in_disc (px py : Z) (x y r1 : Q) : bool :=
  Qltb ((flt px - x) * (flt px - x) + (flt py - y) * (flt py - y)) (r1 * r1).

(** The loop "search which star is hovered by cursor".  In single-image mode
    the centre is computed from [what], not from the loop counter. *)
Definition hovered_star (what active width height zoom px py : Z) : Z :=
  let r1 := overlay_r1 width in
  let y := overlay_y width height zoom in
  if negb (active =? 0)%Z then
    fold_left
      (fun star i =>
         let x := if negb (zoom =? 1)%Z
                  then 0.5 * flt width - 5.0 * r1
                       + flt (i - DT_VIEW_STAR_1) * 2.5 * r1
                  else 3.0 * r1
                       + (flt (what - DT_VIEW_STAR_1) + 1.5) * 2.5 * r1 in
         if in_disc px py x y r1 then i else star)
      (Zseq DT_VIEW_STAR_1 (Z.to_nat (DT_VIEW_STAR_5 + 1 - DT_VIEW_STAR_1)))
      (-1)%Z
  else (-1)%Z.

(** The value that [dt_view_process_image_over] returns.  The cairo calls,
    which [cr] guards, and the image flags, which only those calls read, do
    not feed back into it. *)
Definition dt_view_process_image_over
           (what active width height zoom px py : Z) : Z :=
  let r1 := overlay_r1 width in
  let y := overlay_y width height zoom in
  let star := hovered_star what active width height zoom px py in
  let on := negb (active =? 0)%Z in
  if existsb (Z.eqb what)
       [DT_VIEW_STAR_1; DT_VIEW_STAR_2; DT_VIEW_STAR_3; DT_VIEW_STAR_4;
        DT_VIEW_STAR_5]
  then
    (if on && (what - DT_VIEW_STAR_1 <? star)%Z then 1 else 0)%Z
  else if (what =? DT_VIEW_REJECT)%Z then
    let x := if negb (zoom =? 1)%Z then 0.045 * flt width + r1
             else 3.0 * r1 in
    (if on && in_disc px py x y r1 then 1 else 0)%Z
  else if (what =? DT_VIEW_GROUP)%Z then
    let x := if negb (zoom =? 1)%Z then flt width * 0.955 - r1 * 4.5
             else (3.0 + 2.0 + 1.0 + 5 * 2.5 + 2.0 + 2.0) * r1 in
    let y := if negb (zoom =? 1)%Z then flt height * 0.045 else y - r1 in
    (if on && Qle_bool (Qabs (flt px - x - r1)) (0.9 * r1)
           && Qle_bool (Qabs (flt py - y - r1)) (0.9 * r1)
     then 1 else 0)%Z
  else if (what =? DT_VIEW_AUDIO)%Z then
    let x := if negb (zoom =? 1)%Z then flt width * 0.955 - r1 * 6
             else (3.0 + 2.0 + 1.0 + 5 * 2.5 + 2.0 + 6.0) * r1 in
    let y := if negb (zoom =? 1)%Z then flt height * 0.045 + r1 else y in
    (if on && Qle_bool (Qabs (flt px - x)) (1.2 * r1)
           && Qle_bool (Qabs (flt py - y)) (1.2 * r1)
     then 1 else 0)%Z
  else if (what =? DT_VIEW_ALTERED)%Z then
    let x := if negb (zoom =? 1)%Z then flt width * 0.955 - r1
             else (3.0 + 2.0 + 1.0 + 5 * 2.5 + 2.0) * r1 in
    let y := if negb (zoom =? 1)%Z then flt height * 0.045 + r1 else y in
    (if on && Qle_bool (Qabs (flt px - x)) (1.2 * r1)
           && Qle_bool (Qabs (flt py - y)) (1.2 * r1)
     then 1 else 0)%Z
  else 0%Z.

Definition dt_view_guess_image_over (width height zoom px py : Z) : Z :=
  let in_metadata_zone :=
    ((px <? width)%Z && (py <? Z.quot height 2)%Z) || (1 <? zoom)%Z in
  let draw_metadata := show_overlays || in_metadata_zone in
  if draw_metadata && (DECORATION_SIZE_LIMIT <? width)%Z then
    match
      find (fun i => negb (dt_view_process_image_over
                             i 1 width height zoom px py =? 0)%Z)
           (Zseq DT_VIEW_ERR (Z.to_nat (DT_VIEW_END - DT_VIEW_ERR)))
    with
    | Some i => i
    | None => DT_VIEW_DESERT
    end
  else DT_VIEW_DESERT.

(** The centre of a rating star in single-image mode (lines 998-999). *)
Definition star_centre_x (what width : Z) : Q :=
  3.0 * overlay_r1 width
  + (flt (what - DT_VIEW_STAR_1) + 1.5) * 2.5 * overlay_r1 width.

Definition star_centre_y (width : Z) : Q := 9.0 * overlay_r1 width.

End ImageOver.

(** ** The star test in machine arithmetic *)

(** The star cases of [dt_view_process_image_over] in single-image mode
    once more, this time operation by operation in IEEE-754 arithmetic
    (round to nearest even): [float] is binary32, [double] is binary64, an
    operation with a [double] operand is done in binary64, and the arguments
    of [fminf] and the values assigned to [float] variables are rounded to
    binary32.  It is used to check the rational reading above on concrete
    inputs. *)
Module IEEE754.

Definition float_of_int (z : Z) : spec_float :=
  binary_normalize 24 128 z 0 false.

Definition double_of_int (z : Z) : spec_float :=
  binary_normalize 53 1024 z 0 false.

Definition float_of_double (x : spec_float) : spec_float :=
  match x with
  | S754_finite s m e => binary_normalize 24 128 (cond_Zopp s (Zpos m)) e s
  | _ => x
  end.

Definition double_of_float (x : spec_float) : spec_float :=
  match x with
  | S754_finite s m e => binary_normalize 53 1024 (cond_Zopp s (Zpos m)) e s
  | _ => x
  end.

(** The literals [n/d] of type [float] and [double]: the nearest machine
    number. *)
Definition float_lit (n d : Z) : spec_float :=
  SFdiv 24 128 (float_of_int n) (float_of_int d).

Definition double_lit (n d : Z) : spec_float :=
  SFdiv 53 1024 (double_of_int n) (double_of_int d).

Definition fminf (a b : spec_float) : spec_float := if SFltb b a then b else a.

Section StarTest.

(** The macro [DT_PIXEL_APPLY_DPI], applied to a [float], yields a
    [double]. *)
Variable DT_PIXEL_APPLY_DPI : spec_float -> spec_float.

Definition overlay_r1 (width : Z) : spec_float :=
  fminf
    (float_of_double
       (SFdiv 53 1024 (DT_PIXEL_APPLY_DPI (float_lit 20 1))
              (double_of_float (float_lit 2 1))))
    (float_of_double
       (SFdiv 53 1024
              (SFmul 53 1024 (double_lit 91 100) (double_of_int width))
              (double_of_float (float_lit 20 1)))).

Definition star_centre_x (what width : Z) : spec_float :=
  let r1 := overlay_r1 width in
  SFadd 24 128
    (SFmul 24 128 (float_lit 3 1) r1)
    (SFmul 24 128
       (SFmul 24 128
          (SFadd 24 128 (float_of_int (what - DT_VIEW_STAR_1))
                 (float_lit 3 2))
          (float_lit 5 2))
       r1).

Definition star_centre_y (width : Z) : spec_float :=
  SFmul 24 128 (float_lit 9 1) (overlay_r1 width).

Definition in_disc (px py : Z) (x y r1 : spec_float) : bool :=
  let dx := SFsub 24 128 (float_of_int px) x in
  let dy := SFsub 24 128 (float_of_int py) y in
  SFltb (SFadd 24 128 (SFmul 24 128 dx dx) (SFmul 24 128 dy dy))
        (SFmul 24 128 r1 r1).

Definition process_star_single_image (what active width px py : Z) : Z :=
  let r1 := overlay_r1 width in
  let y := star_centre_y width in
  let star :=
    if negb (active =? 0) then
      fold_left
        (fun star i =>
           if in_disc px py (star_centre_x what width) y r1 then i else star)
        (Zseq DT_VIEW_STAR_1
              (Z.to_nat (DT_VIEW_STAR_5 + 1 - DT_VIEW_STAR_1)))
        (-1)
    else -1 in
  if negb (active =? 0) && (what - DT_VIEW_STAR_1 <? star) then 1 else 0.

End StarTest.

End IEEE754.

(** ** Leaving the window, and reading the active images *)

Section MouseLeave.

Context {W : Type} {collaborators : Collaborators W}.
Local Open Scope vm_scope.

Definition dt_view_manager_mouse_leave : M W unit :=
  cv <- gets current_view ;;
  match cv with
  | None => ret tt
  | Some v =>
      let plugins := lib_plugins in
      handled <-
        plugins_loop
          (fun plugin handled =>
             match lib_mouse_leave plugin with
             | Some f =>
                 if dt_lib_is_visible_in_view plugin v then
                   r <- call_lib plugin L_mouse_leave f ;;
                   ret (or_handled handled r)
                 else ret handled
             | None => ret handled
             end)
          (rev plugins) false ;;
      when (negb handled)
        (if_present (mouse_leave v)
           (fun f => call_view_void v H_mouse_leave f))
  end.

Definition dt_view_active_images_get : M W (list Z) := gets active_images.

End MouseLeave.

(** ** What a switch is observed to do *)

Section SwitchObservations.

Context {W : Type} {collaborators : Collaborators W}.

(** [raises sigs m]: in every state, the signals that [m] raises are
    exactly [sigs], in this order. *)
Definition raises {A} (sigs : list dt_signal_t) (m : M W A) : Prop :=
  forall s, signals_raised (log (m s)) = sigs.

(** The entry points through which a switch asks a view whether it may be
    entered and tells views and lib modules that a view is left or entered
    and that their accelerators are to be connected. *)
Definition is_switch_hook (e : event) : bool :=
  match e with
  | EvView _ H_try_enter _ | EvView _ H_leave _ | EvView _ H_enter _
  | EvView _ H_connect_key_accels _ => true
  | EvLib _ L_view_leave _ | EvLib _ L_view_enter _
  | EvLib _ L_connect_key_accels _ => true
  | _ => false
  end.

(** The entry points through which a view and its lib modules are told to
    leave and to release what they hold; and [gui_cleanup] alone. *)
Definition is_teardown (e : event) : bool :=
  match e with
  | EvView _ H_leave _ | EvLib _ L_view_leave _
  | EvLib _ L_gui_cleanup _ => true
  | _ => false
  end.

Definition is_gui_cleanup (e : event) : bool :=
  match e with
  | EvLib _ L_gui_cleanup _ => true
  | _ => false
  end.

(** The call of the entry guard of a view that lets the view in. *)
Definition guard_call (new_view : dt_view_t W) : list event :=
  if is_some (try_enter new_view)
  then [EvView (module_name new_view) H_try_enter 0] else [].

(** What the lib modules of the view [ov] are expected to be called with
    when no view is entered after it: for each of them, in the order of
    [darktable.lib->plugins], [view_leave] (if it has the entry point) and
    then [gui_cleanup]. *)
Definition lib_teardown_calls (ov : dt_view_t W) : list event :=
  flat_map
    (fun p => (if is_some (lib_view_leave p)
               then [EvLib (plugin_name p) L_view_leave 0] else [])
              ++ [EvLib (plugin_name p) L_gui_cleanup 0])
    (filter (fun p => dt_lib_is_visible_in_view p ov) lib_plugins).

(** The calls of these entry points that a completed switch is expected to
    make on behalf of the view entered: [connect_key_accels] of its lib
    modules, from the last one of [darktable.lib->plugins] to the first,
    [view_enter] of its lib modules, from the first to the last, and
    [connect_key_accels] of the view. *)
Definition lib_connect_calls (new_view : dt_view_t W) : list event :=
  map (fun p => EvLib (plugin_name p) L_connect_key_accels 0)
      (filter (fun p => dt_lib_is_visible_in_view p new_view
                        && is_some (lib_connect_key_accels p))
              (rev lib_plugins)).

Definition lib_view_enter_calls (new_view : dt_view_t W) : list event :=
  map (fun p => EvLib (plugin_name p) L_view_enter 0)
      (filter (fun p => dt_lib_is_visible_in_view p new_view
                        && is_some (lib_view_enter p))
              lib_plugins).

Definition connect_call (new_view : dt_view_t W) : list event :=
  if is_some (connect_key_accels new_view)
  then [EvView (module_name new_view) H_connect_key_accels 0] else [].

End SwitchObservations.

(** ** The images to act on *)

(** "Append the id unless [g_list_find_custom] finds it", the statement
    that [_images_to_act_on_insert_in_list] uses three times, with the
    comparison function of [view.c], which returns 0 for equal ids. *)
Definition _images_to_act_on_find_custom (a b : Z) : Z :=
  if negb (a =? b) then 1 else 0.

Definition g_list_find_custom (l : list Z) (data : Z) (func : Z -> Z -> Z)
  : option Z :=
  find (fun a => func a data =? 0) l.

Definition append_if_absent (l : list Z) (imgid : Z) : list Z :=
  if negb (is_some (g_list_find_custom l imgid _images_to_act_on_find_custom))
  then l ++ [imgid] else l.

Section ImagesToActOn.

(** What [dt_view_get_images_to_act_on] reads: the id of the image under
    the pointer, whether the pointer is inside the thumbnail table, the
    column [imgid] of the table [main.selected_images], the column [imgid]
    of [memory.collected_images] in the order of [rowid], and the list of
    active images of the view manager.  [mouse_inside] is a field behind
    [darktable.gui->ui], which the function reads without a test of
    [darktable.gui] whenever an image is under the pointer: the embedding
    describes the function where [darktable.gui] is set or no image is
    under the pointer. *)
Variable mouseover : Z.
Variable mouse_inside : bool.
Variable selected_images : list Z.
Variable collected_images : list Z.
Variable active : list Z.

(** What [_images_to_act_on_insert_in_list] reads when hidden group
    members count: the group of an image in the image cache ([None] when
    [dt_image_cache_get] returns [NULL]), [darktable.gui != NULL],
    [darktable.gui->grouping], [darktable.gui->expanded_group_id], whether
    [dt_selection_get_collection] returns a collection, and the rows of the
    query for the images of a group within that collection. *)
Variable dt_image_cache_get : Z -> option Z.
Variable gui : bool.
Variable grouping : bool.
Variable expanded_group_id : Z.
Variable selection_collection : bool.
Variable images_of_group : Z -> list Z.

Definition _images_to_act_on_insert_in_list
           (l : list Z) (imgid : Z) (only_visible : bool) : list Z :=
  if only_visible then append_if_absent l imgid
  else
    match dt_image_cache_get imgid with
    | Some img_group_id =>
        if negb gui || negb grouping || (expanded_group_id =? img_group_id)
           || negb selection_collection
        then append_if_absent l imgid
        else fold_left append_if_absent (images_of_group img_group_id) l
    | None => l
    end.

(** The rows of [SELECT imgid FROM main.selected_images WHERE imgid =
    <id>]. *)
Definition select_selected_where (imgid : Z) : list Z :=
  filter (Z.eqb imgid) selected_images.

(** The rows of [SELECT m.imgid FROM memory.collected_images as m,
    main.selected_images as s WHERE m.imgid=s.imgid ORDER BY m.rowid]. *)
Definition select_collected_selected : list Z :=
  flat_map (fun m => map (fun _ => m) (filter (Z.eqb m) selected_images))
           collected_images.

(** [while(sqlite3_step(stmt) == SQLITE_ROW) insert(&l, column, ..);] and
    the loop over the active images. *)
Definition insert_each (ids : list Z) (l : list Z) (only_visible : bool)
  : list Z :=
  fold_left (fun l id => _images_to_act_on_insert_in_list l id only_visible)
            ids l.

Definition dt_view_get_images_to_act_on (only_visible : bool) : list Z :=
  let l := [] in
  if 0 <? mouseover then
    if mouse_inside then
      let inside_sel :=
        match select_selected_where mouseover with
        | _ :: _ => true
        | [] => false
        end in
      if inside_sel then insert_each select_collected_selected l only_visible
      else _images_to_act_on_insert_in_list l mouseover only_visible
    else _images_to_act_on_insert_in_list l mouseover only_visible
  else
    if 0 <? g_slist_length active then insert_each active l only_visible
    else insert_each select_collected_selected l only_visible.

End ImagesToActOn.

(** ** The selection bit of an image *)

Section Selection.

(** Whether the schema of [main.selected_images] keeps [imgid] unique
    (the schema is not part of [view.c]); it decides what [INSERT OR
    IGNORE] does with an id that the table already holds. *)
Variable imgid_is_unique : bool.

(** The three prepared statements on the column [imgid] of
    [main.selected_images]: whether [is_selected] has a row, and the table
    after [delete_from_selected] and after [make_selected]. *)
Definition is_selected (selected_images : list Z) (imgid : Z) : bool :=
  existsb (Z.eqb imgid) selected_images.

Definition delete_from_selected (selected_images : list Z) (imgid : Z)
  : list Z :=
  filter (fun row => negb (row =? imgid)) selected_images.

Definition make_selected (selected_images : list Z) (imgid : Z) : list Z :=
  if imgid_is_unique && existsb (Z.eqb imgid) selected_images
  then selected_images
  else selected_images ++ [imgid].

Definition dt_view_set_selection (selected_images : list Z)
           (imgid value : Z) : list Z :=
  if is_selected selected_images imgid then
    (if value =? 0 then delete_from_selected selected_images imgid
     else selected_images)
  else if negb (value =? 0) then make_selected selected_images imgid
       else selected_images.

Definition dt_view_toggle_selection (selected_images : list Z) (imgid : Z)
  : list Z :=
  if is_selected selected_images imgid
  then delete_from_selected selected_images imgid
  else make_selected selected_images imgid.

End Selection.

(** ** The label of an image mode *)

(** [g_ascii_toupper] and [g_ascii_strup(name, -1)] of GLib: the letters
    [a] to [z] are replaced by [A] to [Z], every other byte is kept, and
    the string ends at the terminator. *)
Definition g_ascii_toupper (c : ascii) : ascii :=
  if (97 <=? uchar c) && (uchar c <=? 122)
  then ascii_of_N (N_of_ascii c - 32) else c.

Fixpoint g_ascii_strup (s : string) : string :=
  match s with
  | EmptyString => EmptyString
  | String c s' =>
      if uchar c =? 0 then EmptyString
      else String (g_ascii_toupper c) (g_ascii_strup s')
  end.

Definition dt_view_extend_modes_str (name : string) (is_hdr is_bw : bool)
  : string :=
  let upcase := g_ascii_strup name in
  let upcase := if is_hdr then (upcase ++ " HDR")%string else upcase in
  let upcase := if is_bw then (upcase ++ " B&W")%string else upcase in
  upcase.

(** A byte that is a lower-case letter of ASCII. *)
Definition is_ascii_lower (c : ascii) : bool :=
  (97 <=? uchar c) && (uchar c <=? 122).

(** ** The rating stars of a thumbnail in the grid *)

(** The star cases of [dt_view_process_image_over] in the grid
    ([zoom != 1]), operation by operation in IEEE-754 arithmetic, with the
    conventions of the module above: the row of stars is placed with
    [double] arithmetic and stored in a [float], the centres are computed
    in [float]. *)
Module IEEE754Grid.

Section StarTest.

Variable DT_PIXEL_APPLY_DPI : spec_float -> spec_float.
Variable extended_thumb_overlay : bool.

Definition overlay_y (width height : Z) : spec_float :=
  let r1 := IEEE754.overlay_r1 DT_PIXEL_APPLY_DPI width in
  IEEE754.float_of_double
    (if extended_thumb_overlay
     then SFmul 53 1024 (IEEE754.double_lit 93 100)
                (IEEE754.double_of_int height)
     else SFsub 53 1024
                (SFmul 53 1024 (IEEE754.double_lit 955 1000)
                       (IEEE754.double_of_int height))
                (IEEE754.double_of_float r1)).

Definition star_centre_x (i width : Z) : spec_float :=
  let r1 := IEEE754.overlay_r1 DT_PIXEL_APPLY_DPI width in
  SFadd 24 128
    (SFsub 24 128
       (SFmul 24 128 (IEEE754.float_lit 1 2) (IEEE754.float_of_int width))
       (SFmul 24 128 (IEEE754.float_lit 5 1) r1))
    (SFmul 24 128
       (SFmul 24 128 (IEEE754.float_of_int (i - DT_VIEW_STAR_1))
              (IEEE754.float_lit 5 2))
       r1).

Definition process_star_grid (what active width height px py : Z) : Z :=
  let r1 := IEEE754.overlay_r1 DT_PIXEL_APPLY_DPI width in
  let y := overlay_y width height in
  let star :=
    if negb (active =? 0) then
      fold_left
        (fun star i =>
           if IEEE754.in_disc px py (star_centre_x i width) y r1
           then i else star)
        (Zseq DT_VIEW_STAR_1
              (Z.to_nat (DT_VIEW_STAR_5 + 1 - DT_VIEW_STAR_1)))
        (-1)
    else -1 in
  if negb (active =? 0) && (what - DT_VIEW_STAR_1 <? star) then 1 else 0.

(** The distance test of the star loop for star [i]: the pointer is inside
    the disc of that star, as the machine computes it. *)
Definition on_star (i width height px py : Z) : bool :=
  IEEE754.in_disc px py (star_centre_x i width) (overlay_y width height)
                  (IEEE754.overlay_r1 DT_PIXEL_APPLY_DPI width).

End StarTest.

End IEEE754Grid.

(** ** A concrete configuration *)

(** A small installation on which the statements of Part II are exercised.
    The state of the collaborators is the id of the image under the
    pointer; every other collaborator call returns 0, except that the
    accelerators are reported as switched on. *)
Definition demo_run_ext (c : ext_call) (w : Z) : Z * Z :=
  match c with
  | X_dt_control_get_mouse_over_id => (w, w)
  | X_key_accelerators_on => (w, 1)
  | _ => (w, 0)
  end.

(** A view with all lifecycle and input entry points; [guard] is what its
    [try_enter] returns, if it has one, and its button handlers return
    [handles]. *)
Definition demo_view (mname dname : string) (guard : option Z) (handles : Z)
  : dt_view_t Z :=
  {| module_name := mname;
     name := dname;
     view := fun w => (w, 1);
     try_enter := option_map (fun r w => (w, r)) guard;
     enter := Some (fun w => w);
     leave := Some (fun w => w);
     connect_key_accels := None;
     mouse_leave := None;
     mouse_moved := Some (fun _ _ _ _ w => w);
     button_pressed := Some (fun _ _ _ _ _ _ w => (w, handles));
     button_released := Some (fun _ _ _ _ w => (w, handles)) |}.

(** A lib module whose input handlers all return [handles]. *)
Definition demo_plugin (pname : string) (handles : Z) : dt_lib_module_t Z :=
  {| plugin_name := pname;
     gui_cleanup := fun w => w;
     container := fun w => (w, 0);
     expandable := fun w => (w, 0);
     lib_view_leave := Some (fun _ _ w => w);
     lib_view_enter := Some (fun _ _ w => w);
     lib_connect_key_accels := None;
     lib_mouse_leave := None;
     lib_mouse_moved := Some (fun _ _ _ _ w => (w, handles));
     lib_button_pressed := Some (fun _ _ _ _ _ _ w => (w, handles));
     lib_button_released := Some (fun _ _ _ _ w => (w, handles)) |}.

(** The lib module "import" belongs to the lighttable only, every other
    one to every view. *)
Definition demo_collaborators (plugins : list (dt_lib_module_t Z))
  : Collaborators Z :=
  {| run_ext := demo_run_ext;
     lib_plugins := plugins;
     dt_lib_is_visible_in_view := fun p v =>
       negb (String.eqb (plugin_name p) "import")
       || String.eqb (module_name v) "lighttable";
     DT_UI_CONTAINER_SIZE := 2;
     DT_VIEW_LIGHTTABLE := 1;
     DT_VIEW_DARKROOM := 2 |}.

Definition demo_lighttable : dt_view_t Z :=
  demo_view "lighttable" "lighttable" None 0.

Definition demo_darkroom : dt_view_t Z :=
  demo_view "darkroom" "darkroom" (Some 0) 0.

(** A view that refuses to be entered, with error code 5. *)
Definition demo_tethering : dt_view_t Z :=
  demo_view "tethering" "tethering" (Some 5) 0.

Definition demo_map : dt_view_t Z := demo_view "map" "map" None 1.

Definition demo_state (cv : option (dt_view_t Z)) (imgs : list Z)
           (mouse_over : Z) : darktable_t Z :=
  {| st_world := mouse_over;
     view_manager :=
       {| views := [demo_lighttable; demo_darkroom; demo_map;
                    demo_tethering];
          current_view := cv;
          active_images := imgs;
          accels_window_window := false;
          accels_window_sticky := false |} |}.

(** Three lib modules; the traversal of the dispatchers visits them from
    the last to the first.  Only the second one visited handles events. *)
Definition demo_plugins : list (dt_lib_module_t Z) :=
  [demo_plugin "import" 0; demo_plugin "histogram" 1;
   demo_plugin "navigation" 0].

(** A fifth view, "print", which may be entered and has every entry point,
    and a lib module "filmstrip" that connects accelerators and listens to
    the pointer leaving the window, but takes no other input and has no
    [view_leave]. *)
Definition demo_print : dt_view_t Z :=
  {| module_name := "print";
     name := "print";
     view := fun w => (w, 3);
     try_enter := Some (fun w => (w, 0));
     enter := Some (fun w => w);
     leave := Some (fun w => w);
     connect_key_accels := Some (fun w => w);
     mouse_leave := Some (fun w => w);
     mouse_moved := None;
     button_pressed := None;
     button_released := None |}.

Definition demo_filmstrip : dt_lib_module_t Z :=
  {| plugin_name := "filmstrip";
     gui_cleanup := fun w => w;
     container := fun w => (w, 0);
     expandable := fun w => (w, 0);
     lib_view_leave := None;
     lib_view_enter := Some (fun _ _ w => w);
     lib_connect_key_accels := Some (fun w => w);
     lib_mouse_leave := Some (fun w => (w, 0));
     lib_mouse_moved := None;
     lib_button_pressed := None;
     lib_button_released := None |}.

Definition demo_panels : list (dt_lib_module_t Z) :=
  [demo_plugin "import" 0; demo_filmstrip; demo_plugin "histogram" 1].

(** Images that are grouped in pairs: the images [2k] and [2k+1] form the
    group [2k]. *)
Definition demo_group_of (imgid : Z) : option Z := Some (2 * (imgid / 2)).

Definition demo_images_of_group (g : Z) : list Z := [g; g + 1].

(* ================================================================= *)
(** * Part II: properties *)
(* ================================================================= *)

(** ** Reasoning about computations *)

Section MonadFacts.

Context {W : Type} {collaborators : Collaborators W}.
Local Open Scope vm_scope.

Lemma val_bind {A B} (m : M W A) (f : A -> M W B) s :
  val (bind m f s) = val (f (val (m s)) (post (m s))).
Proof. reflexivity. Qed.

Lemma post_bind {A B} (m : M W A) (f : A -> M W B) s :
  post (bind m f s) = post (f (val (m s)) (post (m s))).
Proof. reflexivity. Qed.

Lemma log_bind {A B} (m : M W A) (f : A -> M W B) s :
  log (bind m f s) = log (m s) ++ log (f (val (m s)) (post (m s))).
Proof. reflexivity. Qed.

Lemma val_ret {A} (a : A) (s : darktable_t W) : val (ret a s) = a.
Proof. reflexivity. Qed.

Lemma post_ret {A} (a : A) (s : darktable_t W) : post (ret a s) = s.
Proof. reflexivity. Qed.

Lemma log_ret {A} (a : A) (s : darktable_t W) : log (ret a s) = [].
Proof. reflexivity. Qed.

Lemma val_gets {A} (f : dt_view_manager_t W -> A) s :
  val (gets f s) = f (view_manager s).
Proof. reflexivity. Qed.

Lemma post_gets {A} (f : dt_view_manager_t W -> A) s : post (gets f s) = s.
Proof. reflexivity. Qed.

Lemma log_gets {A} (f : dt_view_manager_t W -> A) s : log (gets f s) = [].
Proof. reflexivity. Qed.

Lemma val_call_view v h f (s : darktable_t W) :
  val (call_view v h f s) = snd (f (st_world s)).
Proof. reflexivity. Qed.

Lemma post_call_view v h f (s : darktable_t W) :
  post (call_view v h f s) = with_world s (fst (f (st_world s))).
Proof. reflexivity. Qed.

Lemma log_call_view v h f (s : darktable_t W) :
  log (call_view v h f s) = [EvView (module_name v) h (snd (f (st_world s)))].
Proof. reflexivity. Qed.

Lemma val_call_lib p h f (s : darktable_t W) :
  val (call_lib p h f s) = snd (f (st_world s)).
Proof. reflexivity. Qed.

Lemma post_call_lib p h f (s : darktable_t W) :
  post (call_lib p h f s) = with_world s (fst (f (st_world s))).
Proof. reflexivity. Qed.

Lemma log_call_lib p h f (s : darktable_t W) :
  log (call_lib p h f s) = [EvLib (plugin_name p) h (snd (f (st_world s)))].
Proof. reflexivity. Qed.

Lemma view_manager_with_world (s : darktable_t W) w :
  view_manager (with_world s w) = view_manager s.
Proof. reflexivity. Qed.

Variable P : event -> bool.

Lemma emits_eq {A} l l' (m : M W A) : emits P l m -> l = l' -> emits P l' m.
Proof. intros H <-. exact H. Qed.

Lemma emits_ret {A} (a : A) : emits P [] (ret a : M W A).
Proof. intro s. reflexivity. Qed.

Lemma emits_bind {A B} l1 l2 (m : M W A) (f : A -> M W B) :
  emits P l1 m -> (forall a, emits P l2 (f a)) -> emits P (l1 ++ l2) (bind m f).
Proof.
  intros Hm Hf s. rewrite log_bind, filter_app, Hm, Hf. reflexivity.
Qed.

Lemma emits_gets {A} (f : dt_view_manager_t W -> A) : emits P [] (gets f).
Proof. intro s. reflexivity. Qed.

Lemma emits_modify_vm (f : dt_view_manager_t W -> dt_view_manager_t W) :
  emits P [] (modify_vm f).
Proof. intro s. reflexivity. Qed.

Lemma emits_ext c :
  (forall r, P (EvExt c r) = false) -> emits P [] (ext c : M W Z).
Proof. intros H s. cbn. rewrite H. reflexivity. Qed.

Lemma emits_ext_ c :
  (forall r, P (EvExt c r) = false) -> emits P [] (ext_ c : M W unit).
Proof.
  intros H. unfold ext_.
  apply (emits_bind (l1 := []) (l2 := [])).
  - now apply emits_ext.
  - intros _. apply emits_ret.
Qed.

Lemma emits_call_view (v : dt_view_t W) h f :
  (forall r, P (EvView (module_name v) h r) = false) ->
  emits P [] (call_view v h f).
Proof. intros H s. cbn. rewrite H. reflexivity. Qed.

Lemma emits_call_lib (p : dt_lib_module_t W) h f :
  (forall r, P (EvLib (plugin_name p) h r) = false) ->
  emits P [] (call_lib p h f).
Proof. intros H s. cbn. rewrite H. reflexivity. Qed.

Lemma emits_call_view_void (v : dt_view_t W) h f :
  emits P (filter P [EvView (module_name v) h 0]) (call_view_void v h f).
Proof. intro s. reflexivity. Qed.

Lemma emits_call_lib_void (p : dt_lib_module_t W) h f :
  emits P (filter P [EvLib (plugin_name p) h 0]) (call_lib_void p h f).
Proof. intro s. reflexivity. Qed.

Lemma emits_when (c : bool) l (m : M W unit) :
  emits P l m -> emits P (if c then l else []) (when c m).
Proof. destruct c; intro H; [exact H | apply emits_ret]. Qed.

Lemma emits_if_present {F} (fp : option F) (call : F -> M W unit) g :
  (forall f, emits P (g f) (call f)) ->
  emits P (match fp with Some f => g f | None => [] end) (if_present fp call).
Proof. destruct fp; intro H; [apply H | apply emits_ret]. Qed.

Lemma emits_for_each {X} (l : list X) (body : X -> M W unit) g :
  (forall x, emits P (g x) (body x)) ->
  emits P (flat_map g l) (for_each l body).
Proof.
  intro H. induction l as [|x l IH]; cbn [for_each flat_map].
  - apply emits_ret.
  - apply emits_bind; [apply H | intros _; exact IH].
Qed.

Lemma flat_map_nil {X Y} (l : list X) : flat_map (fun _ => @nil Y) l = [].
Proof. induction l; cbn; auto. Qed.

Lemma silent_for_each {X} (l : list X) (body : X -> M W unit) :
  (forall x, emits P [] (body x)) -> emits P [] (for_each l body).
Proof.
  intro H. eapply emits_eq.
  - apply emits_for_each with (g := fun _ => []). exact H.
  - apply flat_map_nil.
Qed.

Lemma silent_bind {A B} (m : M W A) (f : A -> M W B) :
  emits P [] m -> (forall a, emits P [] (f a)) -> emits P [] (bind m f).
Proof. intros Hm Hf. now apply (emits_bind (l1 := []) (l2 := [])). Qed.

Lemma silent_when (c : bool) (m : M W unit) :
  emits P [] m -> emits P [] (when c m).
Proof. destruct c; intro H; [exact H | apply emits_ret]. Qed.

Lemma silent_if_present {F} (fp : option F) (call : F -> M W unit) :
  (forall f, emits P [] (call f)) -> emits P [] (if_present fp call).
Proof. destruct fp; intro H; [apply H | apply emits_ret]. Qed.

Lemma emits_if_present_const {F} (fp : option F) (call : F -> M W unit) l :
  (forall f, emits P l (call f)) ->
  emits P (if is_some fp then l else []) (if_present fp call).
Proof. destruct fp; intro H; [apply H | apply emits_ret]. Qed.

End MonadFacts.

Create Rewrite HintDb vm_run.
#[global] Hint Rewrite @val_bind @post_bind @log_bind @val_ret @post_ret
  @log_ret @val_gets @post_gets @log_gets @val_call_view @post_call_view
  @log_call_view @val_call_lib @post_call_lib @log_call_lib
  @view_manager_with_world : vm_run.

Section VmEffectFacts.

Context {W : Type} {collaborators : Collaborators W}.

Lemma vm_effect_eq {A} g g' (m : M W A) :
  vm_effect g m -> (forall vm, g vm = g' vm) -> vm_effect g' m.
Proof. intros H E s. rewrite <- E. apply H. Qed.

Lemma vm_effect_ret {A} (a : A) : vm_effect id (ret a : M W A).
Proof. intro s. reflexivity. Qed.

Lemma vm_effect_bind {A B} g1 g2 (m : M W A) (f : A -> M W B) :
  vm_effect g1 m -> (forall a, vm_effect g2 (f a)) ->
  vm_effect (fun vm => g2 (g1 vm)) (bind m f).
Proof.
  intros Hm Hf s. rewrite post_bind, Hf, Hm. reflexivity.
Qed.

Lemma vm_effect_gets {A B} (f : dt_view_manager_t W -> A) (k : A -> M W B) g :
  (forall a, vm_effect (g a) (k a)) ->
  vm_effect (fun vm => g (f vm) vm) (bind (gets f) k).
Proof. intros H s. rewrite post_bind. apply H. Qed.

Lemma vm_effect_modify_vm (f : dt_view_manager_t W -> dt_view_manager_t W) :
  vm_effect f (modify_vm f).
Proof. intro s. reflexivity. Qed.

Lemma vm_effect_ext c : vm_effect id (ext c : M W Z).
Proof. intro s. reflexivity. Qed.

Lemma vm_effect_ext_ c : vm_effect id (ext_ c : M W unit).
Proof. intro s. reflexivity. Qed.

Lemma vm_effect_call_view (v : dt_view_t W) h f :
  vm_effect id (call_view v h f).
Proof. intro s. reflexivity. Qed.

Lemma vm_effect_call_view_void (v : dt_view_t W) h f :
  vm_effect id (call_view_void v h f).
Proof. intro s. reflexivity. Qed.

Lemma vm_effect_call_lib (p : dt_lib_module_t W) h f :
  vm_effect id (call_lib p h f).
Proof. intro s. reflexivity. Qed.

Lemma vm_effect_call_lib_void (p : dt_lib_module_t W) h f :
  vm_effect id (call_lib_void p h f).
Proof. intro s. reflexivity. Qed.

(** Computations that leave the view manager alone compose. *)
Lemma vm_kept_bind {A B} (m : M W A) (f : A -> M W B) :
  vm_effect id m -> (forall a, vm_effect id (f a)) ->
  vm_effect id (bind m f).
Proof. intros Hm Hf. exact (@vm_effect_bind _ _ id id m f Hm Hf). Qed.

Lemma vm_kept_then {A B} g (m : M W A) (f : A -> M W B) :
  vm_effect id m -> (forall a, vm_effect g (f a)) -> vm_effect g (bind m f).
Proof. intros Hm Hf. exact (@vm_effect_bind _ _ id g m f Hm Hf). Qed.

Lemma vm_kept_when (c : bool) (m : M W unit) :
  vm_effect id m -> vm_effect id (when c m).
Proof. destruct c; intro H; [exact H | apply vm_effect_ret]. Qed.

Lemma vm_kept_if_present {F} (fp : option F) (call : F -> M W unit) :
  (forall f, vm_effect id (call f)) ->
  vm_effect id (if_present fp call).
Proof. destruct fp; intro H; [apply H | apply vm_effect_ret]. Qed.

Lemma vm_kept_for_each {X} (l : list X) (body : X -> M W unit) :
  (forall x, vm_effect id (body x)) ->
  vm_effect id (for_each l body).
Proof.
  intro H. induction l as [|x l IH]; cbn [for_each].
  - apply vm_effect_ret.
  - apply vm_kept_bind; [apply H | intros _; exact IH].
Qed.

End VmEffectFacts.

(** Walks a block [m] and solves [emits P ?l m] for a concrete selection
    [P], collecting in [?l] the calls that [P] selects; with [[]] in place
    of [?l] it shows that [P] selects no call of the block.  Loops must be
    silent; [known] is tried first on every sub-block. *)
Ltac emits_walk_with known :=
  repeat first
    [ known
    | match goal with
      | |- emits _ _ (ret _) => eapply emits_ret
      | |- emits _ _ (gets _) => eapply emits_gets
      | |- emits _ _ (modify_vm _) => eapply emits_modify_vm
      | |- emits _ _ (set_current_view _) => eapply emits_modify_vm
      | |- emits _ _ (set_accels_window_window _) => eapply emits_modify_vm
      | |- emits _ _ (set_active_images _) => eapply emits_modify_vm
      | |- emits _ _ (ext_ _) => eapply emits_ext_; intro; reflexivity
      | |- emits _ _ (ext _) => eapply emits_ext; intro; reflexivity
      | |- emits _ _ (call_view _ _ _) =>
          eapply emits_call_view; intro; reflexivity
      | |- emits _ _ (call_lib _ _ _) =>
          eapply emits_call_lib; intro; reflexivity
      | |- emits _ _ (call_view_void _ _ _) =>
          exact (emits_call_view_void _ _ _ _)
      | |- emits _ _ (call_lib_void _ _ _) =>
          exact (emits_call_lib_void _ _ _ _)
      | |- emits _ _ (for_each _ _) => eapply silent_for_each; intro
      | |- emits _ ?l (when _ _) =>
          first [ solve [ eapply silent_when; emits_walk_with known ]
                | eapply emits_when ]
      | |- emits _ ?l (if_present _ _) =>
          tryif is_evar l then (eapply emits_if_present_const; intro)
          else (eapply silent_if_present; intro)
      | |- emits _ ?l (bind _ _) =>
          tryif is_evar l then (eapply emits_bind; [ | intro ])
          else (eapply silent_bind; [ | intro ])
      | |- emits _ _ (if ?c then _ else _) => destruct c
      | |- emits _ _ (match ?c with Some _ => _ | None => _ end) => destruct c
      | |- emits _ _ _ => progress cbv zeta
      end ].

Ltac emits_walk := emits_walk_with fail.

(** Closes goals [vm_effect id m] for a block [m] that does not write to
    the view manager. *)
Ltac vm_kept :=
  repeat match goal with
  | |- vm_effect _ (ret _) => eapply vm_effect_ret
  | |- vm_effect _ (gets _) => intro; reflexivity
  | |- vm_effect _ (ext_ _) => eapply vm_effect_ext_
  | |- vm_effect _ (ext _) => eapply vm_effect_ext
  | |- vm_effect _ (call_view _ _ _) => eapply vm_effect_call_view
  | |- vm_effect _ (call_view_void _ _ _) => eapply vm_effect_call_view_void
  | |- vm_effect _ (call_lib _ _ _) => eapply vm_effect_call_lib
  | |- vm_effect _ (call_lib_void _ _ _) => eapply vm_effect_call_lib_void
  | |- vm_effect _ (when _ _) => eapply vm_kept_when
  | |- vm_effect _ (if_present _ _) => eapply vm_kept_if_present; intro
  | |- vm_effect _ (for_each _ _) => eapply vm_kept_for_each; intro
  | |- vm_effect _ (bind _ _) => eapply vm_kept_bind; [ | intro ]
  | |- vm_effect _ (if ?c then _ else _) => destruct c
  | |- vm_effect _ (match ?c with Some _ => _ | None => _ end) => destruct c
  | |- vm_effect _ _ => progress cbv zeta
  end.

(** ** Switching views *)

Section SwitchFacts.

Context {W : Type} {collaborators : Collaborators W}.
Local Open Scope vm_scope.

Lemma switch_prologue_silent : emits is_hook [] switch_prologue.
Proof. unfold switch_prologue. emits_walk. Qed.

Lemma switch_prologue_no_lifecycle : emits is_view_lifecycle [] switch_prologue.
Proof. unfold switch_prologue. emits_walk. Qed.

Lemma switch_prologue_no_leave : emits is_leave [] switch_prologue.
Proof. unfold switch_prologue. emits_walk. Qed.

Lemma switch_prologue_vm : vm_effect id switch_prologue.
Proof. unfold switch_prologue. vm_kept. Qed.

Lemma switch_leave_old_lifecycle (old_view new_view : dt_view_t W) :
  emits is_view_lifecycle (leave_call (Some old_view))
        (switch_leave_old old_view new_view).
Proof.
  unfold switch_leave_old. eapply emits_eq.
  - emits_walk.
  - cbn. destruct (leave old_view); reflexivity.
Qed.

Lemma switch_enter_lifecycle (old_view : option (dt_view_t W)) new_view :
  emits is_view_lifecycle (leave_call old_view ++ enter_call new_view)
        (switch_enter old_view new_view).
Proof.
  unfold switch_enter. eapply emits_eq.
  - eapply emits_bind.
    + eapply emits_if_present with (g := fun ov => leave_call (Some ov)).
      intro ov. apply switch_leave_old_lifecycle.
    + intro. unfold switch_attach_plugin, switch_show_plugin. emits_walk.
  - unfold enter_call. destruct old_view as [ov|]; cbn;
      destruct (enter new_view), (connect_key_accels new_view); cbn;
      rewrite ?app_nil_r; reflexivity.
Qed.

End SwitchFacts.

Section SwitchTheorems.

Context {W : Type} {collaborators : Collaborators W}.
Local Open Scope vm_scope.

Lemma returns_ret {A} (a : A) : returns a (ret a : M W A).
Proof. intro s. reflexivity. Qed.

Lemma returns_bind {A B} (b : B) (m : M W A) (f : A -> M W B) :
  (forall a, returns b (f a)) -> returns b (bind m f).
Proof. intros H s. rewrite val_bind. apply H. Qed.

Lemma switch_enter_returns (old_view : option (dt_view_t W)) new_view :
  returns 0 (switch_enter old_view new_view).
Proof.
  unfold switch_enter.
  repeat (apply returns_bind; intro). apply returns_ret.
Qed.

Lemma switch_leave_old_vm (old_view new_view : dt_view_t W) :
  vm_effect id (switch_leave_old old_view new_view).
Proof. unfold switch_leave_old. vm_kept. Qed.

Lemma switch_enter_vm (old_view : option (dt_view_t W)) new_view :
  vm_effect
    (fun vm =>
       {| views := views vm; current_view := Some new_view;
          active_images := active_images vm;
          accels_window_window := accels_window_window vm;
          accels_window_sticky := accels_window_sticky vm |})
    (switch_enter old_view new_view).
Proof.
  unfold switch_enter. eapply vm_effect_eq.
  - eapply vm_effect_bind.
    + eapply vm_kept_if_present. intro. apply switch_leave_old_vm.
    + intro. eapply vm_effect_bind.
      * apply vm_effect_modify_vm.
      * intro. unfold switch_attach_plugin, switch_show_plugin. vm_kept.
  - intro vm. reflexivity.
Qed.

(** C3.  When the entry guard of the requested view returns a value other
    than zero, [dt_view_manager_switch_by_view] returns that value, the view
    manager -- and with it the active view -- is as it was, and the guard is
    the only entry point of a view or of a lib module that was called: no
    [leave], no [enter], no [view_leave], no [view_enter]. *)
Theorem switch_refused_by_entry_guard
        (new_view : dt_view_t W) (s : darktable_t W) (error : Z) :
  entry_guard_result new_view s = Some error ->
  error <> 0 ->
  let r := dt_view_manager_switch_by_view (Some new_view) s in
  val r = error
  /\ view_manager (post r) = view_manager s
  /\ filter is_hook (log r) = [EvView (module_name new_view) H_try_enter error]
  /\ filter is_view_lifecycle (log r) = [].
Proof.
  unfold entry_guard_result, dt_view_manager_switch_by_view.
  destruct (try_enter new_view) as [f|]; [ | discriminate ].
  intros E Herr.
  assert (Hr : snd (f (st_world (post (switch_prologue s)))) = error)
    by congruence.
  clear E. apply Z.eqb_neq in Herr.
  autorewrite with vm_run. rewrite Hr, Herr. cbn [negb].
  autorewrite with vm_run.
  rewrite !filter_app, switch_prologue_silent, switch_prologue_no_lifecycle.
  repeat split. apply switch_prologue_vm.
Qed.

(** C4.  When the requested view has no entry guard, or its guard returns
    zero, [dt_view_manager_switch_by_view] returns 0 and the requested view
    is the active one; of all [leave] and [enter] entry points of views, the
    switch calls [leave] of the old view (if there is an old view and it has
    the entry point) and then [enter] of the new view (if it has the entry
    point), each once, and no other. *)
Theorem switch_enters_new_view (new_view : dt_view_t W) (s : darktable_t W) :
  entry_guard_result new_view s = None
  \/ entry_guard_result new_view s = Some 0 ->
  let r := dt_view_manager_switch_by_view (Some new_view) s in
  val r = 0
  /\ current_view (view_manager (post r)) = Some new_view
  /\ filter is_view_lifecycle (log r)
     = leave_call (current_view (view_manager s)) ++ enter_call new_view.
Proof.
  unfold entry_guard_result, dt_view_manager_switch_by_view.
  destruct (try_enter new_view) as [f|]; intros [E|E]; try discriminate.
  - assert (Hr : snd (f (st_world (post (switch_prologue s)))) = 0)
      by congruence.
    clear E. autorewrite with vm_run. rewrite Hr. cbn [Z.eqb negb].
    autorewrite with vm_run.
    rewrite switch_enter_returns, switch_enter_vm.
    rewrite !filter_app, switch_prologue_no_lifecycle, switch_enter_lifecycle.
    repeat split.
  - autorewrite with vm_run.
    rewrite switch_enter_returns, switch_enter_vm.
    rewrite !filter_app, switch_prologue_no_lifecycle, switch_enter_lifecycle.
    repeat split.
Qed.

Lemma flat_map_filter_map {X Y} (c : X -> bool) (h : X -> Y) (l : list X) :
  flat_map (fun x => if c x then [h x] else []) l = map h (filter c l).
Proof.
  induction l as [|x l IH]; cbn; [ reflexivity | ].
  rewrite IH. destruct (c x); reflexivity.
Qed.

Lemma dt_view_accels_hide_vm :
  vm_effect
    (fun vm : dt_view_manager_t W =>
       {| views := views vm; current_view := current_view vm;
          active_images := active_images vm;
          accels_window_window :=
            accels_window_window vm && accels_window_sticky vm;
          accels_window_sticky := accels_window_sticky vm |})
    dt_view_accels_hide.
Proof.
  intros [w [vs cv imgs window sticky]].
  unfold dt_view_accels_hide. autorewrite with vm_run. cbn [view_manager].
  cbn [accels_window_window accels_window_sticky].
  destruct window, sticky; reflexivity.
Qed.

(** What the switch to no view does to the view manager. *)
Lemma switch_to_none_vm (old_view : option (dt_view_t W)) :
  vm_effect
    (fun vm : dt_view_manager_t W =>
       {| views := views vm; current_view := None;
          active_images := active_images vm;
          accels_window_window :=
            accels_window_window vm && accels_window_sticky vm;
          accels_window_sticky := accels_window_sticky vm |})
    (switch_to_none old_view).
Proof.
  unfold switch_to_none.
  apply vm_kept_then; [ vm_kept | intro ].
  apply vm_kept_then; [ vm_kept | intro ].
  intros [w [vs cv imgs window sticky]].
  destruct window, sticky; reflexivity.
Qed.

Lemma switch_to_none_returns (old_view : option (dt_view_t W)) :
  returns 0 (switch_to_none old_view).
Proof.
  unfold switch_to_none.
  repeat (apply returns_bind; intro). apply returns_ret.
Qed.

Lemma switch_to_none_leave_calls (old_view : option (dt_view_t W)) :
  emits is_leave (leave_call old_view ++ lib_view_leave_calls old_view)
        (switch_to_none old_view).
Proof.
  unfold switch_to_none. destruct old_view as [ov|].
  - eapply emits_eq.
    + eapply emits_bind.
      * eapply emits_bind; [ emits_walk | intro; cbv zeta ].
        eapply emits_for_each with
          (g := fun plugin =>
                  if dt_lib_is_visible_in_view plugin ov
                     && is_some (lib_view_leave plugin)
                  then [EvLib (plugin_name plugin) L_view_leave 0] else []).
        intro plugin. eapply emits_eq; [ emits_walk | ].
        destruct (dt_lib_is_visible_in_view plugin ov),
                 (lib_view_leave plugin); reflexivity.
      * intro. emits_walk_with ltac:(progress unfold dt_view_accels_hide).
    + cbn [leave_call lib_view_leave_calls].
      rewrite flat_map_filter_map, !app_nil_r.
      destruct (leave ov); reflexivity.
  - eapply emits_eq.
    + emits_walk_with ltac:(progress unfold dt_view_accels_hide).
    + reflexivity.
Qed.

Lemma switch_to_none_quiet : emits is_hook [] (switch_to_none None).
Proof.
  unfold switch_to_none.
  emits_walk_with ltac:(progress unfold dt_view_accels_hide).
Qed.

(** C6.  [dt_view_manager_switch] with the empty name returns 0 and leaves
    no view active.  Of all [leave] entry points of views and [view_leave]
    entry points of lib modules it calls [leave] of the view that was active
    and then [view_leave] of each lib module that belongs to that view,
    each once and in the order of the list (where the entry point exists).
    A second switch to no view returns 0 again, calls no entry point of any
    view or lib module and leaves the view manager as the first one left
    it; the collaborator calls of lines 289-304 and 332-338 are made each
    time. *)
Theorem switch_to_none_leaves_once (s : darktable_t W) :
  let old_view := current_view (view_manager s) in
  let r := dt_view_manager_switch "" s in
  let r' := dt_view_manager_switch "" (post r) in
  val r = 0
  /\ current_view (view_manager (post r)) = None
  /\ filter is_leave (log r)
     = leave_call old_view ++ lib_view_leave_calls old_view
  /\ val r' = 0
  /\ view_manager (post r') = view_manager (post r)
  /\ filter is_hook (log r') = [].
Proof.
  cbv zeta. change (dt_view_manager_switch "") with
    (dt_view_manager_switch_by_view (W := W) None).
  unfold dt_view_manager_switch_by_view.
  autorewrite with vm_run.
  set (s1 := post (switch_prologue s)).
  set (s2 := post (switch_to_none (current_view (view_manager s)) s1)).
  assert (E2 : current_view (view_manager s2) = None)
    by (unfold s2; rewrite switch_to_none_vm; reflexivity).
  rewrite E2.
  set (s3 := post (switch_prologue s2)).
  rewrite !switch_to_none_returns.
  rewrite !filter_app, switch_prologue_no_leave, switch_to_none_leave_calls.
  rewrite switch_prologue_silent, switch_to_none_quiet.
  repeat split.
  rewrite switch_to_none_vm. unfold s3. rewrite switch_prologue_vm.
  unfold s2. rewrite switch_to_none_vm. unfold id.
  destruct (view_manager s1) as [vs cv imgs window sticky].
  cbn [views current_view active_images accels_window_window
       accels_window_sticky].
  destruct window, sticky; reflexivity.
Qed.

End SwitchTheorems.

(** ** Input events *)

Section DispatchFacts.

Context {W : Type} {collaborators : Collaborators W}.
Local Open Scope vm_scope.

Lemma plugins_loop_ext body body' (l : list (dt_lib_module_t W)) :
  (forall p h s, body p h s = body' p h s) ->
  forall handled s,
    plugins_loop body l handled s = plugins_loop body' l handled s.
Proof.
  intro E. induction l as [|p l IH]; intros handled s; cbn [plugins_loop].
  - reflexivity.
  - unfold bind. rewrite E, !IH. reflexivity.
Qed.

Lemma consult_call handler hk v (p : dt_lib_module_t W) g handled s :
  handler p = Some g -> dt_lib_is_visible_in_view p v = true ->
  consult handler hk v p handled s
  = (or_handled handled (snd (g (st_world s))),
     with_world s (fst (g (st_world s))),
     [EvLib (plugin_name p) hk (snd (g (st_world s)))]).
Proof. intros Hh Hv. unfold consult. rewrite Hh, Hv. reflexivity. Qed.

Lemma consult_skip handler hk v (p : dt_lib_module_t W) handled s :
  is_some (handler p) && dt_lib_is_visible_in_view p v = false ->
  consult handler hk v p handled s = (handled, s, []).
Proof.
  unfold consult. destruct (handler p); cbn [is_some andb]; intro Hv.
  - rewrite Hv. reflexivity.
  - reflexivity.
Qed.

(** The loop that visits every lib module: exactly the lib modules that
    have the handler and belong to the view are called, in the order of the
    traversal and whatever the earlier ones returned; [handled] ends up set
    if it was set before or one of the calls returned a value other than
    zero. *)
Lemma plugins_loop_consult handler hk v (l : list (dt_lib_module_t W)) :
  forall handled s,
    let r := plugins_loop (consult handler hk v) l handled s in
    map forget_ret (log r)
    = map (fun p => EvLib (plugin_name p) hk 0)
          (filter (fun p => is_some (handler p)
                            && dt_lib_is_visible_in_view p v) l)
    /\ val r = handled || negb (none_handled (log r))
    /\ view_manager (post r) = view_manager s
    /\ filter is_lib_call (log r) = log r
    /\ filter is_view_call (log r) = [].
Proof.
  induction l as [|p l IH]; intros handled s; cbn zeta.
  - cbn. rewrite orb_false_r. auto.
  - cbn [plugins_loop filter]. unfold bind.
    destruct (is_some (handler p) && dt_lib_is_visible_in_view p v) eqn:Hc.
    + apply andb_prop in Hc. destruct Hc as [Hh Hv].
      destruct (handler p) as [g|] eqn:Hg; [ | discriminate ].
      rewrite (@consult_call handler hk v p g handled s Hg Hv).
      cbn [val post log fst snd].
      destruct (IH (or_handled handled (snd (g (st_world s))))
                   (with_world s (fst (g (st_world s)))))
        as (E1 & E2 & E3 & E4 & E5).
      cbn zeta in E1, E2, E3, E4, E5.
      cbn [app map filter is_lib_call is_view_call forget_ret].
      rewrite E1, E2, E3, E4, E5.
      repeat split.
      unfold none_handled, or_handled. cbn [forallb ev_ret].
      destruct (snd (g (st_world s)) =? 0); cbn [negb andb].
      * reflexivity.
      * now rewrite orb_true_r.
    + rewrite (@consult_skip handler hk v p handled s Hc).
      cbn [val post log fst snd app]. apply IH.
Qed.

Lemma is_some_option_map {A B} (h : A -> B) (o : option A) :
  is_some (option_map h o) = is_some o.
Proof. destruct o; reflexivity. Qed.

(** C7.  With an active view, [dt_view_manager_mouse_moved] calls
    [mouse_moved] of every lib module that has the handler and belongs to
    the view, in the order of the traversal (from the last module of the
    list to the first) and whatever the modules called before returned.
    The [mouse_moved] handler of the view is called after them, and only if
    every one of these calls returned zero (and the view has the handler);
    no other entry point of a view is called. *)
Theorem mouse_moved_reaches_every_module
        (v : dt_view_t W) (s : darktable_t W) (x y pressure : Q) (which : Z) :
  current_view (view_manager s) = Some v ->
  let r := dt_view_manager_mouse_moved x y pressure which s in
  let lib_calls := filter is_lib_call (log r) in
  map forget_ret lib_calls
  = map (fun p => EvLib (plugin_name p) L_mouse_moved 0)
        (consulted (fun p => is_some (lib_mouse_moved p)) v lib_plugins)
  /\ filter is_view_call (log r)
     = (if none_handled lib_calls && is_some (mouse_moved v)
        then [EvView (module_name v) H_mouse_moved 0] else [])
  /\ log r = lib_calls ++ filter is_view_call (log r).
Proof.
  intros Hcv. cbv zeta. unfold dt_view_manager_mouse_moved.
  autorewrite with vm_run. rewrite Hcv. cbv zeta.
  autorewrite with vm_run.
  set (handler := fun p : dt_lib_module_t W =>
                    option_map (fun f => f x y pressure which)
                               (lib_mouse_moved p)).
  erewrite !plugins_loop_ext with (body' := consult handler L_mouse_moved v)
    by (intros p h s'; unfold consult, handler;
        destruct (lib_mouse_moved p); reflexivity).
  destruct (plugins_loop_consult handler L_mouse_moved v (rev lib_plugins)
                                 false s) as (E1 & E2 & E3 & E4 & E5).
  cbn zeta in E1, E2, E3, E4, E5.
  set (r1 := plugins_loop (consult handler L_mouse_moved v)
                          (rev lib_plugins) false s) in *.
  cbn [app]. rewrite !filter_app, E4, E5, E2. cbn [orb app].
  rewrite negb_involutive.
  assert (Ec : consulted (fun p => is_some (lib_mouse_moved p)) v lib_plugins
               = filter (fun p => is_some (handler p)
                                  && dt_lib_is_visible_in_view p v)
                        (rev lib_plugins)).
  { unfold consulted, handler. apply filter_ext. intro p.
    now rewrite is_some_option_map. }
  rewrite Ec.
  destruct (none_handled (log r1)) eqn:Hn; cbn [when andb negb].
  - destruct (mouse_moved v) as [f|]; cbn [if_present is_some];
      cbn; rewrite ?app_nil_r, ?Hn; auto.
  - cbn. rewrite ?app_nil_r, ?Hn. auto.
Qed.

Lemma plugins_loop_until_handled_ext body body'
      (l : list (dt_lib_module_t W)) :
  (forall p h s, body p h s = body' p h s) ->
  forall handled s,
    plugins_loop_until_handled body l handled s
    = plugins_loop_until_handled body' l handled s.
Proof.
  intro E. induction l as [|p l IH]; intros handled s;
    cbn [plugins_loop_until_handled].
  - reflexivity.
  - destruct handled; cbn [negb]; [ reflexivity | ].
    unfold bind. rewrite E, !IH. reflexivity.
Qed.

Lemma plugins_loop_until_handled_stops body (l : list (dt_lib_module_t W)) s :
  plugins_loop_until_handled body l true s = (true, s, []).
Proof. destruct l; reflexivity. Qed.

(** The loop that is left once [handled] is set: the lib modules that have
    the handler and belong to the view are called in the order of the
    traversal up to and including the first one that returns a value other
    than zero; the ones after it are not called. *)
Lemma plugins_loop_until_handled_consult
      handler hk v (l : list (dt_lib_module_t W)) :
  forall s,
    let r := plugins_loop_until_handled (consult handler hk v) l false s in
    let consulted_ := filter (fun p => is_some (handler p)
                                       && dt_lib_is_visible_in_view p v) l in
    (exists k,
        map forget_ret (log r)
        = map (fun p => EvLib (plugin_name p) hk 0) (firstn k consulted_)
        /\ (none_handled (log r) = true -> k = List.length consulted_))
    /\ none_handled (removelast (log r)) = true
    /\ val r = negb (none_handled (log r))
    /\ view_manager (post r) = view_manager s
    /\ filter is_lib_call (log r) = log r
    /\ filter is_view_call (log r) = [].
Proof.
  induction l as [|p l IH]; intros s; cbn zeta.
  - cbn. repeat split; auto. exists 0%nat. auto.
  - cbn [plugins_loop_until_handled filter negb]. unfold bind.
    destruct (is_some (handler p) && dt_lib_is_visible_in_view p v) eqn:Hc.
    + apply andb_prop in Hc. destruct Hc as [Hh Hv].
      destruct (handler p) as [g|] eqn:Hg; [ | discriminate ].
      rewrite (@consult_call handler hk v p g false s Hg Hv).
      cbn [val post log fst snd]. unfold or_handled.
      destruct (snd (g (st_world s)) =? 0) eqn:Hz; cbn [negb].
      * destruct (IH (with_world s (fst (g (st_world s)))))
          as ((k & E1 & E1') & E2 & E3 & E4 & E5 & E6).
        cbn zeta in E1, E1', E2, E3, E4, E5, E6.
        set (r := plugins_loop_until_handled (consult handler hk v) l false
                    (with_world s (fst (g (st_world s))))) in *.
        cbn [app map filter is_lib_call is_view_call forget_ret].
        rewrite E3, E4, E5, E6.
        assert (Hn : none_handled
                       (EvLib (plugin_name p) hk (snd (g (st_world s)))
                        :: log r) = none_handled (log r))
          by (unfold none_handled; cbn [forallb ev_ret]; now rewrite Hz).
        rewrite Hn. repeat split.
        -- exists (S k). cbn [firstn map List.length]. rewrite E1.
           split; [ reflexivity | ]. intro H. now rewrite (E1' H).
        -- cbn [removelast]. destruct (log r) as [|e t] eqn:El.
           ++ reflexivity.
           ++ unfold none_handled in *. cbn [forallb ev_ret].
              rewrite Hz. exact E2.
      * rewrite plugins_loop_until_handled_stops.
        cbn [val post log fst snd app map forget_ret filter is_lib_call
             is_view_call removelast].
        unfold none_handled. cbn [forallb ev_ret]. rewrite Hz.
        cbn [andb negb]. repeat split.
        exists 1%nat. cbn [firstn map]. split; [ reflexivity | discriminate ].
    + rewrite (@consult_skip handler hk v p false s Hc).
      cbn [val post log fst snd app]. apply IH.
Qed.

(** X5 (the press half of C2).  [dt_view_manager_button_pressed] is a
    first-responder dispatch.  The lib modules that have the handler and
    belong to the active view are called in the order of the traversal;
    every call but the last one made returned zero, so the traversal stops
    at the first module that handles the event.  If a module handled it the
    result is 1 and the view is not called; otherwise every such module was
    called, the handler of the view is called and its value is the result
    (0 if the view has no handler). *)
Lemma button_pressed_first_responder
      (v : dt_view_t W) (s : darktable_t W) (x y pressure : Q)
      (which type state : Z) :
  current_view (view_manager s) = Some v ->
  let r := dt_view_manager_button_pressed x y pressure which type state s in
  let lib_calls := filter is_lib_call (log r) in
  let consulted_ :=
    consulted (fun p => is_some (lib_button_pressed p)) v lib_plugins in
  (exists k,
      map forget_ret lib_calls
      = map (fun p => EvLib (plugin_name p) L_button_pressed 0)
            (firstn k consulted_)
      /\ (none_handled lib_calls = true -> k = List.length consulted_))
  /\ none_handled (removelast lib_calls) = true
  /\ (if none_handled lib_calls
      then filter is_view_call (log r)
           = (if is_some (button_pressed v)
              then [EvView (module_name v) H_button_pressed (val r)] else [])
           /\ (button_pressed v = None -> val r = 0)
      else val r = 1 /\ filter is_view_call (log r) = []).
Proof.
  intros Hcv. cbv zeta. unfold dt_view_manager_button_pressed.
  autorewrite with vm_run. rewrite Hcv. cbv zeta.
  autorewrite with vm_run.
  set (handler := fun p : dt_lib_module_t W =>
                    option_map (fun f => f x y pressure which type state)
                               (lib_button_pressed p)).
  erewrite !plugins_loop_until_handled_ext
    with (body' := consult handler L_button_pressed v)
    by (intros p h s'; unfold consult, handler;
        destruct (lib_button_pressed p); reflexivity).
  destruct (plugins_loop_until_handled_consult
              handler L_button_pressed v (rev lib_plugins) s)
    as ((k & E1 & E1') & E2 & E3 & E4 & E5 & E6).
  cbn zeta in E1, E1', E2, E3, E4, E5, E6.
  set (r1 := plugins_loop_until_handled (consult handler L_button_pressed v)
                                        (rev lib_plugins) false s) in *.
  assert (Ec : consulted (fun p => is_some (lib_button_pressed p)) v
                         lib_plugins
               = filter (fun p => is_some (handler p)
                                  && dt_lib_is_visible_in_view p v)
                        (rev lib_plugins)).
  { unfold consulted, handler. apply filter_ext. intro p.
    now rewrite is_some_option_map. }
  rewrite Ec, E3.
  destruct (none_handled (log r1)) eqn:Hn; cbn [negb].
  - destruct (button_pressed v) as [f|]; cbn [is_some];
      autorewrite with vm_run; rewrite !filter_app, E5, E6;
      cbn [filter is_lib_call is_view_call app]; rewrite ?app_nil_r, Hn.
    + repeat split; eauto. discriminate.
    + repeat split; eauto.
  - autorewrite with vm_run. rewrite !filter_app, E5, E6.
    cbn [filter app]. rewrite ?app_nil_r, Hn. repeat split; eauto.
Qed.

(** X6.  What [dt_view_manager_button_released] does instead: every lib
    module that has the handler and belongs to the view is called, also
    after one of them has handled the event, and the value that the handler
    of the view returns is dropped: the result is 1 if a module handled the
    event and 0 otherwise (then the handler of the view is not called). *)
Lemma button_released_reaches_every_module
      (v : dt_view_t W) (s : darktable_t W) (x y : Q) (which state : Z) :
  current_view (view_manager s) = Some v ->
  let r := dt_view_manager_button_released x y which state s in
  let lib_calls := filter is_lib_call (log r) in
  map forget_ret lib_calls
  = map (fun p => EvLib (plugin_name p) L_button_released 0)
        (consulted (fun p => is_some (lib_button_released p)) v lib_plugins)
  /\ val r = (if none_handled lib_calls then 0 else 1)
  /\ map forget_ret (filter is_view_call (log r))
     = (if none_handled lib_calls && is_some (button_released v)
        then [EvView (module_name v) H_button_released 0] else []).
Proof.
  intros Hcv. cbv zeta. unfold dt_view_manager_button_released.
  autorewrite with vm_run. rewrite Hcv. cbv zeta.
  autorewrite with vm_run.
  set (handler := fun p : dt_lib_module_t W =>
                    option_map (fun f => f x y which state)
                               (lib_button_released p)).
  erewrite !plugins_loop_ext
    with (body' := consult handler L_button_released v)
    by (intros p h s'; unfold consult, handler;
        destruct (lib_button_released p); reflexivity).
  destruct (plugins_loop_consult handler L_button_released v
                                 (rev lib_plugins) false s)
    as (E1 & E2 & E3 & E4 & E5).
  cbn zeta in E1, E2, E3, E4, E5.
  set (r1 := plugins_loop (consult handler L_button_released v)
                          (rev lib_plugins) false s) in *.
  assert (Ec : consulted (fun p => is_some (lib_button_released p)) v
                         lib_plugins
               = filter (fun p => is_some (handler p)
                                  && dt_lib_is_visible_in_view p v)
                        (rev lib_plugins)).
  { unfold consulted, handler. apply filter_ext. intro p.
    now rewrite is_some_option_map. }
  rewrite Ec, E2. cbn [orb].
  destruct (none_handled (log r1)) eqn:Hn; cbn [negb].
  - destruct (button_released v) as [f|]; cbn [is_some];
      autorewrite with vm_run; rewrite !filter_app, E4, E5;
      cbn [filter is_lib_call is_view_call app map forget_ret];
      rewrite ?app_nil_r, Hn; repeat split; assumption.
  - autorewrite with vm_run. rewrite !filter_app, E4, E5.
    cbn [filter app map]. rewrite ?app_nil_r, Hn. repeat split; assumption.
Qed.

End DispatchFacts.

(** ** The order of the registry *)

Section StrcmpFacts.

Lemma uchar_nonneg c : 0 <= uchar c.
Proof. unfold uchar. lia. Qed.

Ltac strcmp_cases :=
  repeat match goal with
  | |- context [?a =? ?b] => destruct (Z.eqb_spec a b)
  | H : context [?a =? ?b] |- _ => destruct (Z.eqb_spec a b)
  end.

Lemma strcmp_refl a : strcmp a a = 0.
Proof.
  induction a as [|c a IH]; cbn [strcmp]; [ reflexivity | ].
  rewrite Z.eqb_refl. destruct (uchar c =? 0); auto.
Qed.

Lemma strcmp_antisym a : forall b, strcmp b a = - strcmp a b.
Proof.
  induction a as [|c a IH]; intros [|d b]; cbn [strcmp]; try lia.
  rewrite (Z.eqb_sym (uchar d) (uchar c)).
  destruct (Z.eqb_spec (uchar c) (uchar d)) as [E|E]; [ | lia ].
  rewrite <- E. destruct (uchar c =? 0); [ reflexivity | apply IH ].
Qed.

Lemma strcmp_trans a : forall b c,
  strcmp a b <= 0 -> strcmp b c <= 0 -> strcmp a c <= 0.
Proof.
  induction a as [|x a IH]; intros [|y b] [|z c]; cbn [strcmp];
    intros H1 H2;
    try pose proof (uchar_nonneg x); try pose proof (uchar_nonneg y);
    try pose proof (uchar_nonneg z);
    strcmp_cases; try lia.
  eapply IH; eassumption.
Qed.

End StrcmpFacts.

Section RegistryFacts.

Variable W : Type.

Lemma strcmp_eq_trans m a b :
  strcmp m a = 0 -> strcmp m b = 0 -> strcmp a b = 0.
Proof.
  intros Ha Hb.
  assert (strcmp a b <= 0)
    by (apply (@strcmp_trans a m b); [ rewrite strcmp_antisym | ]; lia).
  assert (strcmp b a <= 0)
    by (apply (@strcmp_trans b m a); [ rewrite strcmp_antisym | ]; lia).
  rewrite (strcmp_antisym a b) in *. lia.
Qed.

(** The position that [sort_views] computes: the index in [view_order], or
    [n_view_order] for a module name that is not listed. *)
Lemma view_order_pos_spec mname :
  (strcmp mname "lighttable" =? 0) = (view_order_pos mname =? 0)
  /\ (strcmp mname "darkroom" =? 0) = (view_order_pos mname =? 1)
  /\ forallb (fun n => negb (strcmp mname n =? 0)) view_order
     = (view_order_pos mname =? 2)
  /\ 0 <= view_order_pos mname <= 2.
Proof.
  unfold view_order_pos, view_order. cbn.
  destruct (Z.eqb_spec (strcmp mname "lighttable") 0) as [El|El];
    destruct (Z.eqb_spec (strcmp mname "darkroom") 0) as [Ed|Ed];
    cbn; repeat split; try lia.
  exfalso. pose proof (strcmp_eq_trans _ _ _ El Ed) as H.
  vm_compute in H. discriminate.
Qed.

Lemma sort_views_antisym (a b : dt_view_t W) :
  sort_views b a = - sort_views a b.
Proof.
  unfold sort_views. cbv zeta.
  destruct (Z.eqb_spec (view_order_pos (module_name a)
                        - view_order_pos (module_name b)) 0) as [E|E];
    destruct (Z.eqb_spec (view_order_pos (module_name b)
                          - view_order_pos (module_name a)) 0) as [E'|E'];
    try lia.
  apply strcmp_antisym.
Qed.

Lemma sort_views_trans (a b c : dt_view_t W) :
  sort_views a b <= 0 -> sort_views b c <= 0 -> sort_views a c <= 0.
Proof.
  unfold sort_views. cbv zeta.
  destruct (Z.eqb_spec (view_order_pos (module_name a)
                        - view_order_pos (module_name b)) 0);
    destruct (Z.eqb_spec (view_order_pos (module_name b)
                          - view_order_pos (module_name c)) 0);
    destruct (Z.eqb_spec (view_order_pos (module_name a)
                          - view_order_pos (module_name c)) 0);
    try lia.
  apply strcmp_trans.
Qed.

Lemma sort_views_gt_le (a b : dt_view_t W) :
  (0 <? sort_views a b) = false -> sort_views a b <= 0.
Proof. intro H. apply Z.ltb_ge in H. exact H. Qed.

(** Insertion keeps the elements and the order. *)
Lemma insert_sorted_perm x (l : list (dt_view_t W)) :
  Permutation (x :: l) (insert_sorted (@sort_views W) x l).
Proof.
  induction l as [|y l IH]; cbn [insert_sorted]; [ reflexivity | ].
  destruct (0 <? sort_views x y); [ | reflexivity ].
  rewrite perm_swap. now apply perm_skip.
Qed.

Lemma insert_sorted_sorted x (l : list (dt_view_t W)) :
  StronglySorted (@registry_le W) l ->
  StronglySorted (@registry_le W) (insert_sorted (@sort_views W) x l).
Proof.
  induction 1 as [|y l Hs IH Hy]; cbn [insert_sorted].
  - repeat constructor.
  - destruct (0 <? sort_views x y) eqn:E.
    + constructor; [ exact IH | ].
      assert (Hyx : sort_views y x <= 0)
        by (apply Z.ltb_lt in E; rewrite sort_views_antisym; lia).
      eapply Permutation_Forall; [ apply insert_sorted_perm | ].
      constructor; assumption.
    + apply sort_views_gt_le in E.
      constructor; [ constructor; assumption | ].
      constructor; [ exact E | ].
      eapply Forall_impl; [ | exact Hy ].
      intros z Hz. unfold registry_le in *.
      eapply sort_views_trans; eassumption.
Qed.

Lemma load_modules_perm (l : list (dt_view_t W)) :
  Permutation l (dt_view_manager_load_modules l).
Proof.
  unfold dt_view_manager_load_modules, dt_module_load_modules.
  induction l as [|x l IH]; cbn [fold_right]; [ reflexivity | ].
  rewrite <- insert_sorted_perm. now apply perm_skip.
Qed.

Lemma load_modules_sorted (l : list (dt_view_t W)) :
  StronglySorted (@registry_le W) (dt_view_manager_load_modules l).
Proof.
  unfold dt_view_manager_load_modules, dt_module_load_modules.
  induction l as [|x l IH]; cbn [fold_right].
  - constructor.
  - now apply insert_sorted_sorted.
Qed.

Lemma registry_le_pos (a b : dt_view_t W) :
  registry_le a b ->
  view_order_pos (module_name a) <= view_order_pos (module_name b).
Proof.
  unfold registry_le, sort_views. cbv zeta.
  destruct (Z.eqb_spec (view_order_pos (module_name a)
                        - view_order_pos (module_name b)) 0); lia.
Qed.

Lemma registry_le_unlisted (a b : dt_view_t W) :
  view_order_pos (module_name a) = 2 ->
  view_order_pos (module_name b) = 2 ->
  registry_le a b -> name_le a b.
Proof.
  unfold registry_le, name_le, sort_views. cbv zeta.
  intros -> ->. rewrite Z.sub_diag, Z.eqb_refl. auto.
Qed.

Lemma at_pos_nil k (l : list (dt_view_t W)) :
  Forall (fun v => k < view_order_pos (module_name v)) l -> at_pos k l = [].
Proof.
  unfold at_pos.
  induction 1 as [|v l Hv _ IH]; cbn [filter]; [ reflexivity | ].
  destruct (Z.eqb_spec (view_order_pos (module_name v)) k); [ lia | exact IH ].
Qed.

Lemma listed_as_at_pos (l : list (dt_view_t W)) :
  listed_as "lighttable" l = at_pos 0 l
  /\ listed_as "darkroom" l = at_pos 1 l
  /\ unlisted l = at_pos 2 l.
Proof.
  unfold listed_as, unlisted, at_pos.
  repeat split; apply filter_ext; intro v;
    apply (view_order_pos_spec (module_name v)).
Qed.

Lemma sorted_registry_at_pos (l : list (dt_view_t W)) :
  StronglySorted (@registry_le W) l ->
  l = at_pos 0 l ++ at_pos 1 l ++ at_pos 2 l.
Proof.
  induction 1 as [|x l Hs IH Hx]; [ reflexivity | ].
  assert (Hp : Forall (fun v => view_order_pos (module_name x)
                                <= view_order_pos (module_name v)) l)
    by (eapply Forall_impl; [ intro v; apply registry_le_pos | exact Hx ]).
  destruct (view_order_pos_spec (module_name x)) as (_ & _ & _ & Hr).
  unfold at_pos in *. cbn [filter].
  destruct (Z.eqb_spec (view_order_pos (module_name x)) 0) as [E0|E0];
    destruct (Z.eqb_spec (view_order_pos (module_name x)) 1) as [E1|E1];
    destruct (Z.eqb_spec (view_order_pos (module_name x)) 2) as [E2|E2];
    try lia.
  - cbn [app]. f_equal. exact IH.
  - assert (H0 : at_pos 0 l = [])
      by (apply at_pos_nil; eapply Forall_impl; [ | exact Hp ];
          cbv beta; intros; lia).
    unfold at_pos in H0. rewrite H0 in *. cbn [app] in *. f_equal. exact IH.
  - assert (H0 : at_pos 0 l = [])
      by (apply at_pos_nil; eapply Forall_impl; [ | exact Hp ];
          cbv beta; intros; lia).
    assert (H1 : at_pos 1 l = [])
      by (apply at_pos_nil; eapply Forall_impl; [ | exact Hp ];
          cbv beta; intros; lia).
    unfold at_pos in H0, H1. rewrite H0, H1 in *. cbn [app] in *.
    f_equal. exact IH.
Qed.

Lemma sorted_registry_names (l : list (dt_view_t W)) :
  StronglySorted (@registry_le W) l ->
  StronglySorted (@name_le W) (at_pos 2 l).
Proof.
  induction 1 as [|x l Hs IH Hx]; [ constructor | ].
  unfold at_pos in *. cbn [filter].
  destruct (Z.eqb_spec (view_order_pos (module_name x)) 2) as [E|E];
    [ | exact IH ].
  constructor; [ exact IH | ].
  apply Forall_forall. intros y Hy. apply filter_In in Hy.
  destruct Hy as [Hy Hy2]. apply Z.eqb_eq in Hy2.
  apply registry_le_unlisted; try assumption.
  rewrite Forall_forall in Hx. now apply Hx.
Qed.

(** Every list that is ordered by [sort_views] has the listed views first,
    in the order of [view_order], then the other views by name. *)
Lemma sorted_registry_shape (l : list (dt_view_t W)) :
  StronglySorted (@registry_le W) l ->
  l = flat_map (fun n => listed_as n l) view_order ++ unlisted l
  /\ StronglySorted (@name_le W) (unlisted l).
Proof.
  intro Hs. destruct (listed_as_at_pos l) as (E0 & E1 & E2).
  cbn [flat_map view_order]. rewrite E0, E1, E2, app_nil_r, <- app_assoc.
  split; [ now apply sorted_registry_at_pos | now apply sorted_registry_names ].
Qed.

Lemma registry_eqv_refl (a : dt_view_t W) : registry_eqv a a.
Proof.
  unfold registry_eqv, sort_views. cbv zeta.
  rewrite Z.sub_diag, Z.eqb_refl. apply strcmp_refl.
Qed.

Lemma registry_eqv_list_refl (l : list (dt_view_t W)) :
  Forall2 (@registry_eqv W) l l.
Proof. induction l; constructor; auto using registry_eqv_refl. Qed.

Lemma registry_eqv_list_trans (l1 l2 l3 : list (dt_view_t W)) :
  Forall2 (@registry_eqv W) l1 l2 -> Forall2 (@registry_eqv W) l2 l3 ->
  Forall2 (@registry_eqv W) l1 l3.
Proof.
  intro H. revert l3. induction H as [|a b l1 l2 Hab _ IH]; intros l3 H3.
  - inversion H3. constructor.
  - inversion H3 as [|b' c l2' l3' Hbc Ht]; subst.
    constructor; [ | now apply IH ].
    unfold registry_eqv in *.
    pose proof (@sort_views_trans a b c). pose proof (@sort_views_trans c b a).
    pose proof (sort_views_antisym a b). pose proof (sort_views_antisym b c).
    pose proof (sort_views_antisym a c). lia.
Qed.

(** Inserting a view into two lists that [sort_views] cannot tell apart
    gives two such lists again. *)
Lemma insert_sorted_eqv x (l l' : list (dt_view_t W)) :
  Forall2 (@registry_eqv W) l l' ->
  Forall2 (@registry_eqv W) (insert_sorted (@sort_views W) x l)
          (insert_sorted (@sort_views W) x l').
Proof.
  induction 1 as [|y y' l l' Hy Hl IH]; cbn [insert_sorted].
  - constructor; [ apply registry_eqv_refl | constructor ].
  - assert (E : (0 <? sort_views x y) = (0 <? sort_views x y')).
    { unfold registry_eqv in Hy.
      pose proof (@sort_views_trans x y y').
      pose proof (@sort_views_trans x y' y).
      pose proof (sort_views_antisym y y').
      destruct (Z.ltb_spec 0 (sort_views x y));
        destruct (Z.ltb_spec 0 (sort_views x y')); try reflexivity; lia. }
    rewrite <- E. destruct (0 <? sort_views x y).
    + constructor; assumption.
    + constructor; [ apply registry_eqv_refl | constructor; assumption ].
Qed.

(** The order in which two views are inserted does not matter. *)
Lemma insert_sorted_swap x y (l : list (dt_view_t W)) :
  Forall2 (@registry_eqv W)
          (insert_sorted (@sort_views W) x (insert_sorted (@sort_views W) y l))
          (insert_sorted (@sort_views W) y (insert_sorted (@sort_views W) x l)).
Proof.
  pose proof (sort_views_antisym x y) as Axy.
  induction l as [|z l IH]; cbn [insert_sorted].
  - destruct (Z.ltb_spec 0 (sort_views x y));
      destruct (Z.ltb_spec 0 (sort_views y x)); try lia;
      repeat constructor; auto using registry_eqv_refl;
      unfold registry_eqv; lia.
  - pose proof (sort_views_antisym x z). pose proof (sort_views_antisym y z).
    pose proof (@sort_views_trans x z y). pose proof (@sort_views_trans y z x).
    pose proof (@sort_views_trans x y z). pose proof (@sort_views_trans y x z).
    pose proof (@sort_views_trans z x y). pose proof (@sort_views_trans z y x).
    destruct (Z.ltb_spec 0 (sort_views y z));
      destruct (Z.ltb_spec 0 (sort_views x z)); cbn [insert_sorted];
      repeat match goal with
             | |- context [0 <? ?c] => destruct (Z.ltb_spec 0 c)
             end; try lia;
      repeat first [ exact IH
                   | apply registry_eqv_list_refl
                   | constructor
                   | apply registry_eqv_refl
                   | unfold registry_eqv; lia ].
Qed.

(** The registry that results from two load orders of the same views is
    the same up to views that [sort_views] cannot tell apart. *)
Lemma load_modules_order_independent (l l' : list (dt_view_t W)) :
  Permutation l l' ->
  Forall2 (@registry_eqv W) (dt_view_manager_load_modules l)
          (dt_view_manager_load_modules l').
Proof.
  unfold dt_view_manager_load_modules, dt_module_load_modules.
  induction 1 as [|x l l' _ IH|x y l|l1 l2 l3 _ IH1 _ IH2]; cbn [fold_right].
  - constructor.
  - now apply insert_sorted_eqv.
  - apply insert_sorted_swap.
  - eapply registry_eqv_list_trans; eassumption.
Qed.

Lemma registry_eqv_list_sym (l l' : list (dt_view_t W)) :
  Forall2 (@registry_eqv W) l l' -> Forall2 (@registry_eqv W) l' l.
Proof.
  induction 1 as [|a b l l' Hab _ IH]; constructor; [ | exact IH ].
  unfold registry_eqv in *. rewrite sort_views_antisym. lia.
Qed.

Lemma insert_sorted_head x (l : list (dt_view_t W)) :
  Forall (registry_le x) l -> insert_sorted (@sort_views W) x l = x :: l.
Proof.
  destruct 1 as [|y l Hy _]; cbn [insert_sorted]; [ reflexivity | ].
  unfold registry_le in Hy. apply Z.ltb_ge in Hy. now rewrite Hy.
Qed.

(** Sorting a list that is in order already gives it back, up to views
    that [sort_views] cannot tell apart. *)
Lemma load_modules_of_sorted (l : list (dt_view_t W)) :
  StronglySorted (@registry_le W) l ->
  Forall2 (@registry_eqv W) (dt_view_manager_load_modules l) l.
Proof.
  unfold dt_view_manager_load_modules, dt_module_load_modules.
  induction 1 as [|x l Hs IH Hx]; cbn [fold_right]; [ constructor | ].
  eapply registry_eqv_list_trans.
  - apply insert_sorted_eqv. exact IH.
  - rewrite insert_sorted_head by exact Hx. apply registry_eqv_list_refl.
Qed.

Lemma load_modules_is_registry (loaded : list (dt_view_t W)) :
  is_registry_of loaded (dt_view_manager_load_modules loaded).
Proof. split; [ apply load_modules_perm | apply load_modules_sorted ]. Qed.

(** Two lists that hold the same views, each in an order that [sort_views]
    accepts, have the listed views first and agree position by position, up
    to views that [sort_views] cannot tell apart. *)
Lemma sorted_registries_agree
      (loaded loaded' registry registry' : list (dt_view_t W)) :
  Permutation loaded loaded' ->
  is_registry_of loaded registry ->
  is_registry_of loaded' registry' ->
  registry
  = flat_map (fun n => listed_as n registry) view_order ++ unlisted registry
  /\ StronglySorted (@name_le W) (unlisted registry)
  /\ Forall2 (@registry_eqv W) registry registry'.
Proof.
  intros Hp [Hp1 Hs1] [Hp2 Hs2].
  destruct (sorted_registry_shape Hs1) as [Hs Hn].
  repeat split; [ exact Hs | exact Hn | ].
  eapply registry_eqv_list_trans;
    [ apply registry_eqv_list_sym, load_modules_of_sorted, Hs1 | ].
  eapply registry_eqv_list_trans; [ | apply load_modules_of_sorted, Hs2 ].
  apply load_modules_order_independent.
  rewrite <- Hp1, <- Hp2. exact Hp.
Qed.

(** Lists that agree position by position up to views that [sort_views]
    cannot tell apart are equal when [sort_views] tells all their views
    apart. *)
Lemma registry_eqv_list_eq (views_ l l' : list (dt_view_t W)) :
  (forall a b, In a views_ -> In b views_ -> sort_views a b = 0 -> a = b) ->
  incl l views_ -> incl l' views_ ->
  Forall2 (@registry_eqv W) l l' -> l = l'.
Proof.
  intros Hd Hl Hl' H.
  induction H as [|a b l l' Hab _ IH]; [ reflexivity | ].
  f_equal.
  - apply Hd; [ apply Hl | apply Hl' | exact Hab ]; now left.
  - apply IH; intros x Hx; [ apply Hl | apply Hl' ]; now right.
Qed.

(** C5.  The registry [vm->views] that [dt_view_manager_load_modules]
    builds from the loaded views holds exactly these views, with the views
    named in [view_order] first, in the order of [view_order], followed by
    all other views ordered by [strcmp] of their display names.  And it
    does not depend on the order of loading: the registry built from the
    same views loaded in another order agrees with it position by
    position, up to views that have the same place in [view_order] and the
    same display name; when no two loaded views share both, the two
    registries are equal. *)
Theorem registry_order_independent_of_load_order
        (loaded loaded' : list (dt_view_t W)) :
  Permutation loaded loaded' ->
  let registry := dt_view_manager_load_modules loaded in
  let registry' := dt_view_manager_load_modules loaded' in
  Permutation loaded registry
  /\ registry
     = flat_map (fun n => listed_as n registry) view_order ++ unlisted registry
  /\ StronglySorted (@name_le W) (unlisted registry)
  /\ Forall2 (@registry_eqv W) registry registry'
  /\ ((forall a b, In a loaded -> In b loaded -> sort_views a b = 0 -> a = b)
      -> registry = registry').
Proof.
  intros Hp registry registry'.
  pose proof (load_modules_is_registry loaded) as H1.
  pose proof (load_modules_is_registry loaded') as H2.
  destruct (sorted_registries_agree Hp H1 H2) as (Hs & Hn & He).
  fold registry in Hs, Hn, He. fold registry' in He.
  split; [ apply load_modules_perm | ].
  split; [ exact Hs | ]. split; [ exact Hn | ]. split; [ exact He | ].
  intro Hd. apply (@registry_eqv_list_eq loaded); [ exact Hd | | | exact He ].
  - intros x Hx. eapply Permutation_in; [ | exact Hx ].
    symmetry. apply load_modules_perm.
  - intros x Hx. eapply Permutation_in; [ | exact Hx ].
    symmetry. rewrite Hp. apply load_modules_perm.
Qed.

End RegistryFacts.

(** ** The active images *)

Section ActiveImagesFacts.

Context {W : Type} {collaborators : Collaborators W}.
Local Open Scope vm_scope.

(** C1, as amended.  With a non-empty list of active images,
    [dt_view_get_image_to_act_on] returns the image under the pointer when
    there is one ([dt_control_get_mouse_over_id() > 0]) and the first active
    image otherwise: the hovered image comes first, as the table in the
    comment of the function says. *)
Theorem image_to_act_on_mouse_over_then_active (s : darktable_t W) :
  active_images (view_manager s) <> [] ->
  val (dt_view_get_image_to_act_on s)
  = if 0 <? mouse_over_id s then mouse_over_id s
    else hd 0 (active_images (view_manager s)).
Proof.
  intro Hne. unfold dt_view_get_image_to_act_on, mouse_over_id. cbv zeta.
  rewrite val_bind.
  change (val (ext X_dt_control_get_mouse_over_id s))
    with (snd (run_ext X_dt_control_get_mouse_over_id (st_world s))).
  destruct (0 <? snd (run_ext X_dt_control_get_mouse_over_id (st_world s))).
  - reflexivity.
  - rewrite val_bind. cbn [ext post val gets fst snd view_manager with_world].
    destruct (active_images (view_manager s)) as [|i l]; [ congruence | ].
    reflexivity.
Qed.

(** C10.  [dt_view_active_images_reset] on an empty list of active images
    changes nothing and calls nothing, whatever [raise] is; on a non-empty
    list it empties the list, and it raises the signal
    [DT_SIGNAL_ACTIVE_IMAGES_CHANGE] exactly when [raise] is set.  So the
    signal is raised only when a non-empty list was cleared. *)
Theorem active_images_reset_of_empty_is_noop (raise : Z) (s : darktable_t W) :
  let r := dt_view_active_images_reset raise s in
  match active_images (view_manager s) with
  | [] => r = (tt, s, [])
  | _ :: _ =>
      active_images (view_manager (post r)) = []
      /\ signals_raised (log r)
         = (if raise =? 0 then [] else [DT_SIGNAL_ACTIVE_IMAGES_CHANGE])
  end.
Proof.
  cbv zeta. unfold dt_view_active_images_reset.
  destruct s as [w [vs cv imgs window sticky]].
  cbn [view_manager active_images].
  destruct imgs as [|i l].
  - reflexivity.
  - assert (Hlen : (g_slist_length (i :: l) <? 1) = false)
      by (apply Z.ltb_ge; unfold g_slist_length; cbn [List.length]; lia).
    autorewrite with vm_run. cbn [view_manager active_images].
    rewrite Hlen. destruct (raise =? 0); split; reflexivity.
Qed.

End ActiveImagesFacts.

(** ** Thumbnail overlays *)

Section ImageOverFacts.

Variable DT_PIXEL_APPLY_DPI : Q -> Q.
Variable extended_thumb_overlay : bool.
Variable show_overlays : bool.

Local Open Scope Q_scope.

(** Division by a literal, for [lra] and [nra]. *)
Ltac q_consts :=
  unfold Qdiv in *;
  repeat match goal with
  | |- context [Qinv (Qmake ?n ?d)] =>
      let v := eval vm_compute in (Qinv (Qmake n d)) in
      change (Qinv (Qmake n d)) with v
  end.

Lemma Qltb_lt a b : Qltb a b = true <-> a < b.
Proof.
  unfold Qltb. rewrite negb_true_iff, <- not_true_iff_false, Qle_bool_iff.
  split; [ apply Qnot_le_lt | apply Qlt_not_le ].
Qed.

Lemma overlay_r1_pos (width : Z) :
  0 < DT_PIXEL_APPLY_DPI 20.0 -> (0 < width)%Z ->
  0 < overlay_r1 DT_PIXEL_APPLY_DPI width.
Proof.
  intros Hd Hw. unfold overlay_r1, flt.
  assert (0 < inject_Z width)
    by (change 0 with (inject_Z 0); now rewrite <- Zlt_Qlt).
  apply Q.min_glb_lt; q_consts; lra.
Qed.

(** In single-image mode every round of the star loop tests the same disc,
    the one around the star [what]; the last round wins. *)
Lemma hovered_star_single_image (what active width height px py : Z) :
  active <> 0%Z ->
  hovered_star DT_PIXEL_APPLY_DPI extended_thumb_overlay
               what active width height 1 px py
  = if in_disc px py (star_centre_x DT_PIXEL_APPLY_DPI what width)
               (star_centre_y DT_PIXEL_APPLY_DPI width)
               (overlay_r1 DT_PIXEL_APPLY_DPI width)
    then DT_VIEW_STAR_5 else (-1)%Z.
Proof.
  intro Ha. apply Z.eqb_neq in Ha.
  unfold hovered_star, overlay_y, star_centre_x, star_centre_y.
  rewrite Ha. cbn [negb Z.eqb].
  change (Zseq DT_VIEW_STAR_1
               (Z.to_nat (DT_VIEW_STAR_5 + 1 - DT_VIEW_STAR_1)))
    with [1; 2; 3; 4; 5]%Z.
  cbn [fold_left].
  destruct (in_disc px py _ _ _); reflexivity.
Qed.

(** The pointer on the centre of the third star is inside the disc of that
    star and outside the disc of every other star. *)
Lemma in_disc_star_three (what width px py : Z) :
  0 < DT_PIXEL_APPLY_DPI 20.0 -> (0 < width)%Z ->
  flt px == star_centre_x DT_PIXEL_APPLY_DPI DT_VIEW_STAR_3 width ->
  flt py == star_centre_y DT_PIXEL_APPLY_DPI width ->
  in_disc px py (star_centre_x DT_PIXEL_APPLY_DPI what width)
          (star_centre_y DT_PIXEL_APPLY_DPI width)
          (overlay_r1 DT_PIXEL_APPLY_DPI width)
  = (what =? DT_VIEW_STAR_3)%Z.
Proof.
  intros Hd Hw Hx Hy.
  pose proof (overlay_r1_pos Hd Hw) as Hr.
  unfold in_disc, star_centre_x, star_centre_y in *.
  set (r := overlay_r1 DT_PIXEL_APPLY_DPI width) in *.
  unfold flt, DT_VIEW_STAR_3, DT_VIEW_STAR_1 in *.
  change (inject_Z (3 - 1)) with 2 in Hx.
  destruct (Z.eqb_spec what 3) as [->|Hne].
  - apply Qltb_lt. change (inject_Z (3 - 1)) with 2. nra.
  - apply not_true_iff_false. rewrite Qltb_lt.
    set (d := inject_Z (what - 1)).
    assert (Hd' : d <= 1 \/ 3 <= d).
    { unfold d. destruct (Z_le_gt_dec (what - 1) 1) as [H|H].
      - left. change 1 with (inject_Z 1). now rewrite <- Zle_Qle.
      - right. change 3 with (inject_Z 3). rewrite <- Zle_Qle. lia. }
    assert (Hsq : 1 <= (2 - d) * (2 - d)) by (destruct Hd'; nra).
    assert (Hrr : 0 < r * r) by nra.
    setoid_replace
      ((inject_Z px - (3.0 * r + (d + 1.5) * 2.5 * r))
       * (inject_Z px - (3.0 * r + (d + 1.5) * 2.5 * r))
       + (inject_Z py - 9.0 * r) * (inject_Z py - 9.0 * r))
      with ((2 - d) * (2 - d) * (6.25 * (r * r)))
      by (rewrite Hx, Hy; ring).
    generalize dependent ((2 - d) * (2 - d)).
    generalize dependent (r * r). intros B HB A HA. nra.
Qed.

(** C8.  In single-image mode ([zoom = 1]), with the control active and the
    pointer on the centre of the third rating star,
    [dt_view_process_image_over] reports the pointer as hovering when asked
    about the third star and as not hovering when asked about the first,
    second, fourth or fifth star.  (Arithmetic is exact; the thumbnail has a
    positive width and the DPI scaling keeps lengths positive.) *)
Theorem star_three_hit_test (active width height px py : Z) :
  0 < DT_PIXEL_APPLY_DPI 20.0 -> (0 < width)%Z -> active <> 0%Z ->
  flt px == star_centre_x DT_PIXEL_APPLY_DPI DT_VIEW_STAR_3 width ->
  flt py == star_centre_y DT_PIXEL_APPLY_DPI width ->
  let hovering what :=
    dt_view_process_image_over DT_PIXEL_APPLY_DPI extended_thumb_overlay
                               what active width height 1 px py in
  hovering DT_VIEW_STAR_3 = 1%Z
  /\ hovering DT_VIEW_STAR_1 = 0%Z
  /\ hovering DT_VIEW_STAR_2 = 0%Z
  /\ hovering DT_VIEW_STAR_4 = 0%Z
  /\ hovering DT_VIEW_STAR_5 = 0%Z.
Proof.
  intros Hd Hw Ha Hx Hy hovering. unfold hovering.
  unfold dt_view_process_image_over.
  rewrite !hovered_star_single_image by exact Ha.
  rewrite !(in_disc_star_three _ Hd Hw Hx Hy).
  apply Z.eqb_neq in Ha. rewrite Ha.
  repeat split; reflexivity.
Qed.

(** C9.  A thumbnail that is not wider than [DECORATION_SIZE_LIMIT] has no
    control under the pointer: [dt_view_guess_image_over] returns
    [DT_VIEW_DESERT] for every pointer position, height and zoom. *)
Theorem no_overlay_on_small_thumbnails (width height zoom px py : Z) :
  (width <= DECORATION_SIZE_LIMIT)%Z ->
  dt_view_guess_image_over DT_PIXEL_APPLY_DPI extended_thumb_overlay
                           show_overlays width height zoom px py
  = DT_VIEW_DESERT.
Proof.
  intro Hw. unfold dt_view_guess_image_over. cbv zeta.
  apply Z.ltb_ge in Hw. rewrite Hw, andb_false_r. reflexivity.
Qed.

End ImageOverFacts.

(** ** Switching views: signals, order of the calls, unknown names *)

Section RaisesFacts.

Context {W : Type} {collaborators : Collaborators W}.
Local Open Scope vm_scope.

Lemma signals_raised_app l1 l2 :
  signals_raised (l1 ++ l2) = signals_raised l1 ++ signals_raised l2.
Proof. apply flat_map_app. Qed.

Lemma raises_eq {A} l l' (m : M W A) : raises l m -> l = l' -> raises l' m.
Proof. intros H <-. exact H. Qed.

Lemma raises_ret {A} (a : A) : raises [] (ret a : M W A).
Proof. intro s. reflexivity. Qed.

Lemma raises_bind {A B} l1 l2 (m : M W A) (f : A -> M W B) :
  raises l1 m -> (forall a, raises l2 (f a)) -> raises (l1 ++ l2) (bind m f).
Proof.
  intros Hm Hf s. rewrite log_bind, signals_raised_app, Hm, Hf. reflexivity.
Qed.

Lemma raises_gets {A} (f : dt_view_manager_t W -> A) : raises [] (gets f).
Proof. intro s. reflexivity. Qed.

Lemma raises_modify_vm (f : dt_view_manager_t W -> dt_view_manager_t W) :
  raises [] (modify_vm f).
Proof. intro s. reflexivity. Qed.

Lemma raises_ext c :
  raises (signals_raised [EvExt c 0]) (ext c : M W Z).
Proof. intro s. cbn. destruct c; reflexivity. Qed.

Lemma raises_ext_ c :
  raises (signals_raised [EvExt c 0]) (ext_ c : M W unit).
Proof. intro s. cbn. destruct c; reflexivity. Qed.

Lemma raises_call_view (v : dt_view_t W) h f : raises [] (call_view v h f).
Proof. intro s. reflexivity. Qed.

Lemma raises_call_lib (p : dt_lib_module_t W) h f :
  raises [] (call_lib p h f).
Proof. intro s. reflexivity. Qed.

Lemma raises_call_view_void (v : dt_view_t W) h f :
  raises [] (call_view_void v h f).
Proof. intro s. reflexivity. Qed.

Lemma raises_call_lib_void (p : dt_lib_module_t W) h f :
  raises [] (call_lib_void p h f).
Proof. intro s. reflexivity. Qed.

Lemma raises_when (c : bool) l (m : M W unit) :
  raises l m -> raises (if c then l else []) (when c m).
Proof. destruct c; intro H; [exact H | apply raises_ret]. Qed.

Lemma quiet_when (c : bool) (m : M W unit) :
  raises [] m -> raises [] (when c m).
Proof. destruct c; intro H; [exact H | apply raises_ret]. Qed.

Lemma quiet_if_present {F} (fp : option F) (call : F -> M W unit) :
  (forall f, raises [] (call f)) -> raises [] (if_present fp call).
Proof. destruct fp; intro H; [apply H | apply raises_ret]. Qed.

Lemma quiet_bind {A B} (m : M W A) (f : A -> M W B) :
  raises [] m -> (forall a, raises [] (f a)) -> raises [] (bind m f).
Proof. intros Hm Hf. exact (@raises_bind _ _ [] [] m f Hm Hf). Qed.

Lemma quiet_for_each {X} (l : list X) (body : X -> M W unit) :
  (forall x, raises [] (body x)) -> raises [] (for_each l body).
Proof.
  intro H. induction l as [|x l IH]; cbn [for_each].
  - apply raises_ret.
  - apply quiet_bind; [ apply H | intros _; exact IH ].
Qed.

End RaisesFacts.

(** Walks a block and solves [raises ?l m], or [raises [] m] for a block
    that raises no signal.  Loops and optional calls must be quiet. *)
Ltac raises_walk :=
  repeat match goal with
  | |- raises _ (ret _) => eapply raises_ret
  | |- raises _ (gets _) => eapply raises_gets
  | |- raises _ (modify_vm _) => eapply raises_modify_vm
  | |- raises _ (set_current_view _) => eapply raises_modify_vm
  | |- raises _ (set_accels_window_window _) => eapply raises_modify_vm
  | |- raises _ (set_active_images _) => eapply raises_modify_vm
  | |- raises _ (ext_ _) => exact (raises_ext_ _)
  | |- raises _ (ext _) => exact (raises_ext _)
  | |- raises _ (call_view _ _ _) => eapply raises_call_view
  | |- raises _ (call_lib _ _ _) => eapply raises_call_lib
  | |- raises _ (call_view_void _ _ _) => eapply raises_call_view_void
  | |- raises _ (call_lib_void _ _ _) => eapply raises_call_lib_void
  | |- raises _ (for_each _ _) => eapply quiet_for_each; intro
  | |- raises _ (when _ _) => eapply quiet_when
  | |- raises _ (if_present _ _) => eapply quiet_if_present; intro
  | |- raises ?l (bind _ _) =>
      tryif is_evar l then (eapply raises_bind; [ | intro ])
      else (eapply quiet_bind; [ | intro ])
  | |- raises _ (if ?c then _ else _) => destruct c
  | |- raises _ (match ?c with Some _ => _ | None => _ end) => destruct c
  | |- raises _ _ => progress cbv zeta
  end.

Section SwitchMore.

Context {W : Type} {collaborators : Collaborators W}.
Local Open Scope vm_scope.

Lemma switch_prologue_quiet : raises [] (switch_prologue (W := W)).
Proof. unfold switch_prologue. raises_walk. Qed.

Lemma switch_to_none_raises_nothing (old_view : option (dt_view_t W)) :
  raises [] (switch_to_none old_view).
Proof.
  unfold switch_to_none, dt_view_accels_hide. raises_walk.
Qed.

Lemma switch_enter_raises (old_view : option (dt_view_t W)) new_view :
  raises [DT_SIGNAL_VIEWMANAGER_VIEW_CHANGED
            (option_map (@module_name W) old_view)
            (Some (module_name new_view));
          DT_SIGNAL_CONTROL_LOG_REDRAW]
         (switch_enter old_view new_view).
Proof.
  unfold switch_enter, switch_leave_old, switch_attach_plugin,
    switch_show_plugin.
  eapply raises_eq; [ raises_walk | reflexivity ].
Qed.

(** X3.  The signals that [dt_view_manager_switch_by_view] itself raises:
    a switch that enters the requested view (it returns 0) raises
    [DT_SIGNAL_VIEWMANAGER_VIEW_CHANGED] with the old and the new view and
    then [DT_SIGNAL_CONTROL_LOG_REDRAW], each once; a switch that the entry
    guard refuses raises no signal, and neither does a switch to no view,
    which returns before the signals are raised. *)
Theorem switch_signals_the_change
        (nv : option (dt_view_t W)) (s : darktable_t W) :
  let r := dt_view_manager_switch_by_view nv s in
  signals_raised (log r)
  = match nv with
    | Some new_view =>
        if val r =? 0
        then [DT_SIGNAL_VIEWMANAGER_VIEW_CHANGED
                (option_map (@module_name W) (current_view (view_manager s)))
                (Some (module_name new_view));
              DT_SIGNAL_CONTROL_LOG_REDRAW]
        else []
    | None => []
    end.
Proof.
  cbv zeta. unfold dt_view_manager_switch_by_view.
  autorewrite with vm_run. rewrite !signals_raised_app.
  cbn [gets log fst snd signals_raised flat_map app].
  rewrite switch_prologue_quiet. cbn [app].
  destruct nv as [new_view|].
  - destruct (try_enter new_view) as [f|].
    + autorewrite with vm_run.
      destruct (snd (f (st_world (post (switch_prologue s)))) =? 0) eqn:E;
        cbn [negb]; autorewrite with vm_run; rewrite signals_raised_app.
      * rewrite switch_enter_returns, switch_enter_raises. reflexivity.
      * rewrite E. reflexivity.
    + rewrite switch_enter_returns, switch_enter_raises. reflexivity.
  - apply switch_to_none_raises_nothing.
Qed.

(** X1.  [dt_view_manager_switch] with a name that is not empty and is the
    module name of no registered view returns 1, makes no call at all (no
    entry point, no collaborator, so also not the calls that every switch
    starts with) and leaves the state as it is. *)
Theorem switch_to_unknown_view (view_name : string) (s : darktable_t W) :
  empty_c_string view_name = false ->
  (forall v, In v (views (view_manager s)) ->
             strcmp (module_name v) view_name <> 0) ->
  dt_view_manager_switch view_name s = (1, s, []).
Proof.
  intros Hne Hall. unfold dt_view_manager_switch. rewrite Hne.
  unfold bind, gets. cbn [val post log fst snd app].
  destruct (find _ (views (view_manager s))) as [v|] eqn:Hf.
  - apply find_some in Hf. destruct Hf as [Hin Hz].
    apply Z.eqb_eq in Hz. now apply Hall in Hin.
  - reflexivity.
Qed.

Lemma switch_prologue_no_switch_hook :
  emits is_switch_hook [] (switch_prologue (W := W)).
Proof. unfold switch_prologue. emits_walk. Qed.

Lemma switch_leave_old_hooks (old_view new_view : dt_view_t W) :
  emits is_switch_hook
        (leave_call (Some old_view) ++ lib_view_leave_calls (Some old_view))
        (switch_leave_old old_view new_view).
Proof.
  unfold switch_leave_old. eapply emits_eq.
  - eapply emits_bind; [ emits_walk | intro ].
    eapply emits_bind; [ emits_walk | intro; cbv zeta ].
    eapply emits_bind.
    + eapply emits_for_each with
        (g := fun plugin =>
                if dt_lib_is_visible_in_view plugin old_view
                   && is_some (lib_view_leave plugin)
                then [EvLib (plugin_name plugin) L_view_leave 0] else []).
      intro plugin. eapply emits_eq; [ emits_walk | ].
      destruct (dt_lib_is_visible_in_view plugin old_view),
               (lib_view_leave plugin); reflexivity.
    + intro. emits_walk.
  - cbn [leave_call lib_view_leave_calls].
    rewrite flat_map_filter_map, ?app_nil_r.
    destruct (leave old_view); reflexivity.
Qed.

Lemma switch_attach_plugin_hooks (new_view : dt_view_t W) plugin :
  emits is_switch_hook
        (if dt_lib_is_visible_in_view plugin new_view
            && is_some (lib_connect_key_accels plugin)
         then [EvLib (plugin_name plugin) L_connect_key_accels 0] else [])
        (switch_attach_plugin new_view plugin).
Proof.
  unfold switch_attach_plugin. eapply emits_eq; [ emits_walk | ].
  destruct (dt_lib_is_visible_in_view plugin new_view),
           (lib_connect_key_accels plugin); reflexivity.
Qed.

Lemma switch_show_plugin_hooks old_view (new_view : dt_view_t W) plugin :
  emits is_switch_hook
        (if dt_lib_is_visible_in_view plugin new_view
            && is_some (lib_view_enter plugin)
         then [EvLib (plugin_name plugin) L_view_enter 0] else [])
        (switch_show_plugin old_view new_view plugin).
Proof.
  unfold switch_show_plugin. eapply emits_eq; [ emits_walk | ].
  destruct (dt_lib_is_visible_in_view plugin new_view),
           (lib_view_enter plugin); reflexivity.
Qed.

Lemma switch_enter_hooks (old_view : option (dt_view_t W)) new_view :
  emits is_switch_hook
        (leave_call old_view ++ lib_view_leave_calls old_view
         ++ lib_connect_calls new_view ++ lib_view_enter_calls new_view
         ++ enter_call new_view ++ connect_call new_view)
        (switch_enter old_view new_view).
Proof.
  unfold switch_enter. eapply emits_eq.
  - eapply emits_bind.
    { eapply emits_if_present with
        (g := fun ov => leave_call (Some ov) ++ lib_view_leave_calls (Some ov)).
      intro ov. apply switch_leave_old_hooks. }
    intro. eapply emits_bind; [ emits_walk | intro ].
    eapply emits_bind; [ emits_walk | intro ].
    eapply emits_bind; [ emits_walk | intro ].
    eapply emits_bind; [ emits_walk | intro; cbv zeta ].
    eapply emits_bind.
    { eapply emits_for_each. intro plugin. apply switch_attach_plugin_hooks. }
    intro. eapply emits_bind.
    { eapply emits_for_each. intro plugin. apply switch_show_plugin_hooks. }
    intro. emits_walk.
  - unfold lib_connect_calls, lib_view_enter_calls, enter_call, connect_call.
    rewrite !flat_map_filter_map.
    destruct old_view as [ov|]; cbn [leave_call lib_view_leave_calls];
      destruct (enter new_view), (connect_key_accels new_view);
      cbn; rewrite ?app_nil_r, <- ?app_assoc; reflexivity.
Qed.

(** X2.  The order of the calls of a switch that enters the requested
    view: the entry guard of the new view first (if it has one); then
    [leave] of the old view and [view_leave] of the lib modules of the old
    view, in the order of the list; then [connect_key_accels] of the lib
    modules of the new view, from the last of the list to the first; then
    [view_enter] of the lib modules of the new view, from the first to the
    last; then [enter] and [connect_key_accels] of the new view.  Each call
    is made once, and only where the entry point exists. *)
Theorem switch_hook_order (new_view : dt_view_t W) (s : darktable_t W) :
  entry_guard_result new_view s = None
  \/ entry_guard_result new_view s = Some 0 ->
  let old_view := current_view (view_manager s) in
  let r := dt_view_manager_switch_by_view (Some new_view) s in
  filter is_switch_hook (log r)
  = guard_call new_view
    ++ leave_call old_view ++ lib_view_leave_calls old_view
    ++ lib_connect_calls new_view ++ lib_view_enter_calls new_view
    ++ enter_call new_view ++ connect_call new_view.
Proof.
  unfold entry_guard_result, dt_view_manager_switch_by_view, guard_call.
  destruct (try_enter new_view) as [f|]; intros [E|E]; try discriminate.
  - assert (Hr : snd (f (st_world (post (switch_prologue s)))) = 0)
      by congruence.
    clear E. cbv zeta. autorewrite with vm_run. rewrite Hr. cbn [Z.eqb negb].
    autorewrite with vm_run.
    rewrite !filter_app, switch_prologue_no_switch_hook, switch_enter_hooks.
    reflexivity.
  - cbv zeta. autorewrite with vm_run.
    rewrite !filter_app, switch_prologue_no_switch_hook, switch_enter_hooks.
    reflexivity.
Qed.

Lemma switch_prologue_no_teardown :
  emits is_teardown [] (switch_prologue (W := W)).
Proof. unfold switch_prologue. emits_walk. Qed.

Lemma switch_prologue_no_gui_cleanup :
  emits is_gui_cleanup [] (switch_prologue (W := W)).
Proof. unfold switch_prologue. emits_walk. Qed.

Lemma switch_enter_no_gui_cleanup (old_view : option (dt_view_t W)) new_view :
  emits is_gui_cleanup [] (switch_enter old_view new_view).
Proof.
  unfold switch_enter, switch_leave_old, switch_attach_plugin,
    switch_show_plugin.
  emits_walk.
Qed.

Lemma flat_map_filter {X Y} (c : X -> bool) (g : X -> list Y) (l : list X) :
  flat_map (fun x => if c x then g x else []) l = flat_map g (filter c l).
Proof.
  induction l as [|x l IH]; cbn; [ reflexivity | ].
  rewrite IH. destruct (c x); reflexivity.
Qed.

Lemma switch_to_none_teardown (ov : dt_view_t W) :
  emits is_teardown (leave_call (Some ov) ++ lib_teardown_calls ov)
        (switch_to_none (Some ov)).
Proof.
  unfold switch_to_none. eapply emits_eq.
  - eapply emits_bind.
    + eapply emits_bind; [ emits_walk | intro; cbv zeta ].
      eapply emits_for_each with
        (g := fun plugin =>
                if dt_lib_is_visible_in_view plugin ov
                then (if is_some (lib_view_leave plugin)
                      then [EvLib (plugin_name plugin) L_view_leave 0]
                      else [])
                     ++ [EvLib (plugin_name plugin) L_gui_cleanup 0]
                else []).
      intro plugin. eapply emits_eq; [ emits_walk | ].
      destruct (dt_lib_is_visible_in_view plugin ov),
               (lib_view_leave plugin); reflexivity.
    + intro. emits_walk_with ltac:(progress unfold dt_view_accels_hide).
  - cbn [leave_call]. unfold lib_teardown_calls.
    rewrite flat_map_filter, !app_nil_r.
    destruct (leave ov); reflexivity.
Qed.

Lemma switch_to_none_no_teardown :
  emits is_teardown [] (switch_to_none (W := W) None).
Proof.
  unfold switch_to_none.
  emits_walk_with ltac:(progress unfold dt_view_accels_hide).
Qed.

(** X4.  [gui_cleanup] of lib modules is called by the switch to no view
    and by no other switch.  The switch to no view calls [leave] of the
    view that was active and then, for each lib module of that view in the
    order of the list, [view_leave] (if the module has it) followed by
    [gui_cleanup]; a switch to a view, refused or not, calls [gui_cleanup]
    of no module. *)
Theorem gui_cleanup_only_when_no_view_is_entered
        (nv : option (dt_view_t W)) (s : darktable_t W) :
  let r := dt_view_manager_switch_by_view nv s in
  match nv with
  | None =>
      filter is_teardown (log r)
      = match current_view (view_manager s) with
        | Some ov => leave_call (Some ov) ++ lib_teardown_calls ov
        | None => []
        end
  | Some _ => filter is_gui_cleanup (log r) = []
  end.
Proof.
  cbv zeta. unfold dt_view_manager_switch_by_view.
  autorewrite with vm_run. rewrite !filter_app.
  cbn [gets log fst snd filter app].
  destruct nv as [new_view|].
  - rewrite switch_prologue_no_gui_cleanup. cbn [app].
    destruct (try_enter new_view) as [f|].
    + autorewrite with vm_run.
      destruct (negb _); autorewrite with vm_run; rewrite ?filter_app;
        rewrite ?switch_enter_no_gui_cleanup; reflexivity.
    + apply switch_enter_no_gui_cleanup.
  - rewrite switch_prologue_no_teardown. cbn [app].
    destruct (current_view (view_manager s)) as [ov|].
    + apply switch_to_none_teardown.
    + apply switch_to_none_no_teardown.
Qed.

End SwitchMore.

(** ** Input events: leaving the window, and events without a view *)

Section DispatchMore.

Context {W : Type} {collaborators : Collaborators W}.
Local Open Scope vm_scope.

(** X7.  With an active view, [dt_view_manager_mouse_leave] calls
    [mouse_leave] of every lib module that has the handler and belongs to
    the view, from the last module of the list to the first and whatever
    the modules called before returned.  The [mouse_leave] handler of the
    view is called after them, and only if every one of these calls
    returned zero (and the view has the handler); nothing else is
    called. *)
Theorem mouse_leave_reaches_every_module
        (v : dt_view_t W) (s : darktable_t W) :
  current_view (view_manager s) = Some v ->
  let r := dt_view_manager_mouse_leave s in
  let lib_calls := filter is_lib_call (log r) in
  map forget_ret lib_calls
  = map (fun p => EvLib (plugin_name p) L_mouse_leave 0)
        (consulted (fun p => is_some (lib_mouse_leave p)) v lib_plugins)
  /\ filter is_view_call (log r)
     = (if none_handled lib_calls && is_some (mouse_leave v)
        then [EvView (module_name v) H_mouse_leave 0] else [])
  /\ log r = lib_calls ++ filter is_view_call (log r).
Proof.
  intros Hcv. cbv zeta. unfold dt_view_manager_mouse_leave.
  autorewrite with vm_run. rewrite Hcv. cbv zeta.
  autorewrite with vm_run.
  change (plugins_loop _ (rev lib_plugins) false s)
    with (plugins_loop (consult (@lib_mouse_leave W) L_mouse_leave v)
                       (rev lib_plugins) false s).
  destruct (plugins_loop_consult (@lib_mouse_leave W) L_mouse_leave v
                                 (rev lib_plugins) false s)
    as (E1 & E2 & E3 & E4 & E5).
  cbn zeta in E1, E2, E3, E4, E5.
  set (r1 := plugins_loop (consult (@lib_mouse_leave W) L_mouse_leave v)
                          (rev lib_plugins) false s) in *.
  cbn [app]. rewrite !filter_app, E4, E5, E2. cbn [orb app].
  rewrite negb_involutive. unfold consulted.
  destruct (none_handled (log r1)) eqn:Hn; cbn [when andb negb].
  - destruct (mouse_leave v) as [f|]; cbn [if_present is_some];
      cbn; rewrite ?app_nil_r, ?Hn; auto.
  - cbn. rewrite ?app_nil_r, ?Hn. auto.
Qed.

(** X8.  While no view is active, the dispatchers of pointer events
    (motion, leaving, button press, button release) call nothing and change
    nothing; press and release report the event as not handled (0). *)
Theorem events_without_active_view
        (s : darktable_t W) (x y pressure : Q) (which type state : Z) :
  current_view (view_manager s) = None ->
  dt_view_manager_mouse_moved x y pressure which s = (tt, s, [])
  /\ dt_view_manager_mouse_leave s = (tt, s, [])
  /\ dt_view_manager_button_pressed x y pressure which type state s
     = (0, s, [])
  /\ dt_view_manager_button_released x y which state s = (0, s, []).
Proof.
  intro Hcv.
  unfold dt_view_manager_mouse_moved, dt_view_manager_mouse_leave,
    dt_view_manager_button_pressed, dt_view_manager_button_released,
    bind, gets.
  cbn [val post log fst snd]. rewrite Hcv. repeat split.
Qed.

End DispatchMore.

(** ** The comparison function of the registry *)

Section RegistryMore.

Variable W : Type.

(** X9.  [sort_views] is a consistent comparison function, as sorting
    needs it: a view compares equal to itself, swapping the arguments
    negates the result, and "not greater" and "equal" are transitive. *)
Theorem sort_views_is_consistent (a b c : dt_view_t W) :
  sort_views a a = 0
  /\ sort_views b a = - sort_views a b
  /\ (sort_views a b <= 0 -> sort_views b c <= 0 -> sort_views a c <= 0)
  /\ (sort_views a b = 0 -> sort_views b c = 0 -> sort_views a c = 0).
Proof.
  pose proof (sort_views_antisym a a) as Haa.
  pose proof (sort_views_antisym a b) as Hab.
  pose proof (sort_views_antisym b c) as Hbc.
  pose proof (sort_views_antisym a c) as Hac.
  pose proof (@sort_views_trans W a b c) as T1.
  pose proof (@sort_views_trans W c b a) as T2.
  repeat split; lia.
Qed.

End RegistryMore.

(** ** Adding active images *)

Section ActiveImagesMore.

Context {W : Type} {collaborators : Collaborators W}.
Local Open Scope vm_scope.

Lemma active_images_add_run (imgid raise : Z) (s : darktable_t W) :
  let r := dt_view_active_images_add imgid raise s in
  active_images (view_manager (post r))
  = active_images (view_manager s) ++ [imgid]
  /\ signals_raised (log r)
     = (if raise =? 0 then [] else [DT_SIGNAL_ACTIVE_IMAGES_CHANGE]).
Proof.
  cbv zeta. unfold dt_view_active_images_add.
  destruct s as [w [vs cv imgs window sticky]].
  destruct (raise =? 0); split; reflexivity.
Qed.

(** X10.  Images added one after the other with
    [dt_view_active_images_add] are appended to the active images in the
    order of the calls, duplicates included, so that
    [dt_view_active_images_get] returns the old list followed by the added
    ids; [DT_SIGNAL_ACTIVE_IMAGES_CHANGE] is raised once per call when
    [raise] is set and never otherwise. *)
Theorem active_images_keep_the_order_of_addition
        (ids : list Z) (raise : Z) (s : darktable_t W) :
  let r := for_each ids (fun imgid => dt_view_active_images_add imgid raise)
                    s in
  val (dt_view_active_images_get (post r))
  = active_images (view_manager s) ++ ids
  /\ signals_raised (log r)
     = (if raise =? 0 then []
        else repeat DT_SIGNAL_ACTIVE_IMAGES_CHANGE (List.length ids)).
Proof.
  cbv zeta. unfold dt_view_active_images_get. rewrite val_gets.
  revert s. induction ids as [|i ids IH]; intro s; cbn [for_each].
  - cbn. rewrite app_nil_r. destruct (raise =? 0); auto.
  - rewrite post_bind, log_bind, signals_raised_app.
    destruct (active_images_add_run i raise s) as [Ea Es].
    cbv zeta in Ea, Es.
    destruct (IH (post (dt_view_active_images_add i raise s))) as [E1 E2].
    rewrite E1, E2, Ea, Es, <- app_assoc.
    split; [ reflexivity | ].
    destruct (raise =? 0); reflexivity.
Qed.

(** X11.  After [dt_view_active_images_add], and with no image under the
    pointer, the image to act on is the first of the images that were
    active before the call, and the added image if none was: adding an
    image never replaces the main active image. *)
Theorem image_to_act_on_after_add (imgid raise : Z) (s : darktable_t W) :
  let s' := post (dt_view_active_images_add imgid raise s) in
  mouse_over_id s' <= 0 ->
  val (dt_view_get_image_to_act_on s')
  = hd imgid (active_images (view_manager s)).
Proof.
  cbv zeta. intro Hm.
  destruct (active_images_add_run imgid raise s) as [Ea _].
  cbv zeta in Ea.
  set (s' := post (dt_view_active_images_add imgid raise s)) in *.
  unfold dt_view_get_image_to_act_on, mouse_over_id in *. cbv zeta.
  rewrite val_bind.
  change (val (ext X_dt_control_get_mouse_over_id s'))
    with (snd (run_ext X_dt_control_get_mouse_over_id (st_world s'))).
  apply Z.ltb_ge in Hm. rewrite Hm.
  rewrite val_bind. cbn [ext post val gets fst snd view_manager with_world].
  rewrite Ea.
  destruct (active_images (view_manager s)) as [|i l]; reflexivity.
Qed.

End ActiveImagesMore.

(** ** Thumbnail overlays: the hit test as a whole *)

Section ImageOverMore.

Variable DT_PIXEL_APPLY_DPI : Q -> Q.
Variable extended_thumb_overlay : bool.
Variable show_overlays : bool.

(** The hit test answers 0 or 1; it answers 0 for a control that is not
    active and for a value of [what] that names no control. *)
Lemma process_image_over_values (what active width height zoom px py : Z) :
  let r := dt_view_process_image_over DT_PIXEL_APPLY_DPI
             extended_thumb_overlay what active width height zoom px py in
  (r = 0 \/ r = 1)
  /\ (active = 0 -> r = 0)
  /\ (what < DT_VIEW_STAR_1 \/ DT_VIEW_ALTERED < what -> r = 0).
Proof.
  cbv zeta. unfold dt_view_process_image_over. cbv zeta.
  unfold DT_VIEW_STAR_1, DT_VIEW_STAR_2, DT_VIEW_STAR_3, DT_VIEW_STAR_4,
    DT_VIEW_STAR_5, DT_VIEW_REJECT, DT_VIEW_GROUP, DT_VIEW_AUDIO,
    DT_VIEW_ALTERED.
  cbn [existsb].
  split; [ | split ].
  - repeat match goal with
           | |- context [if ?c then _ else _] => destruct c
           end; auto.
  - intros ->. cbn [Z.eqb negb andb].
    repeat match goal with
           | |- context [if ?c then _ else _] => destruct c
           end; reflexivity.
  - intro Hw.
    repeat match goal with
           | |- context [what =? ?k] => destruct (Z.eqb_spec what k); try lia
           end.
    reflexivity.
Qed.

(** X12.  [dt_view_process_image_over] answers 0 or 1.  It answers 0
    whenever the control is not active ([active = 0]), and whenever [what]
    is none of the nine controls (so also for [DT_VIEW_ERR],
    [DT_VIEW_DESERT] and [DT_VIEW_END]). *)
Theorem process_image_over_is_a_flag
        (what active width height zoom px py : Z) :
  let r := dt_view_process_image_over DT_PIXEL_APPLY_DPI
             extended_thumb_overlay what active width height zoom px py in
  (r = 0 \/ r = 1)
  /\ (active = 0 -> r = 0)
  /\ (what < DT_VIEW_STAR_1 \/ DT_VIEW_ALTERED < what -> r = 0).
Proof. apply process_image_over_values. Qed.

(** The star loop keeps the last star whose test succeeds: a star lies
    below the star that is kept exactly when the test succeeds for it or
    for a later star. *)
Lemma last_hit_spec (b : Z -> bool) (k : Z) :
  1 <= k <= 5 ->
  (k - 1 < fold_left (fun star i => if b i then i else star)
                     [1; 2; 3; 4; 5] (-1)
   <-> exists i, k <= i <= 5 /\ b i = true).
Proof.
  intro Hk. cbn [fold_left].
  destruct (b 1) eqn:B1, (b 2) eqn:B2, (b 3) eqn:B3, (b 4) eqn:B4,
           (b 5) eqn:B5;
    (split;
     [ intro H;
       first [ exists 5; split; [ lia | assumption ]
             | exists 4; split; [ lia | assumption ]
             | exists 3; split; [ lia | assumption ]
             | exists 2; split; [ lia | assumption ]
             | exists 1; split; [ lia | assumption ]
             | exfalso; lia ]
     | intros [i [Hi Hb]];
       assert (Hc : i = 1 \/ i = 2 \/ i = 3 \/ i = 4 \/ i = 5) by lia;
       destruct Hc as [->|[->|[->|[->| ->]]]];
       first [ congruence | lia ] ]).
Qed.

(** X14.  [dt_view_guess_image_over] returns [DT_VIEW_DESERT] or one of the
    nine controls, never [DT_VIEW_ERR] or [DT_VIEW_END].  A control that it
    returns is one that [dt_view_process_image_over] reports as hovered, on
    a thumbnail wider than [DECORATION_SIZE_LIMIT], and no control before
    it in the order of the enumeration is hovered.  When overlays are
    always shown and the thumbnail is wide enough, [DT_VIEW_DESERT] means
    that no control is hovered. *)
Theorem guess_image_over_is_first_hit (width height zoom px py : Z) :
  let hovering w :=
    dt_view_process_image_over DT_PIXEL_APPLY_DPI extended_thumb_overlay
                               w 1 width height zoom px py in
  let i := dt_view_guess_image_over DT_PIXEL_APPLY_DPI extended_thumb_overlay
             show_overlays width height zoom px py in
  DT_VIEW_DESERT <= i <= DT_VIEW_ALTERED
  /\ (i <> DT_VIEW_DESERT ->
      hovering i = 1 /\ DECORATION_SIZE_LIMIT < width)
  /\ (forall j, j < i -> hovering j = 0)
  /\ (i = DT_VIEW_DESERT -> show_overlays = true ->
      DECORATION_SIZE_LIMIT < width -> forall j, hovering j = 0).
Proof.
  cbv zeta.
  assert (Hout : forall j, j < 1 \/ 9 < j ->
            dt_view_process_image_over DT_PIXEL_APPLY_DPI
              extended_thumb_overlay j 1 width height zoom px py = 0)
    by (intros j Hj; now apply process_image_over_values).
  assert (Hval : forall j,
            negb (dt_view_process_image_over DT_PIXEL_APPLY_DPI
                    extended_thumb_overlay j 1 width height zoom px py =? 0)
            = true ->
            dt_view_process_image_over DT_PIXEL_APPLY_DPI
              extended_thumb_overlay j 1 width height zoom px py = 1).
  { intros j Hj. apply negb_true_iff, Z.eqb_neq in Hj.
    destruct (process_image_over_values j 1 width height zoom px py)
      as [[H|H] _]; cbv zeta in H; [ contradiction | exact H ]. }
  assert (Hnot : forall j,
            negb (dt_view_process_image_over DT_PIXEL_APPLY_DPI
                    extended_thumb_overlay j 1 width height zoom px py =? 0)
            = false ->
            dt_view_process_image_over DT_PIXEL_APPLY_DPI
              extended_thumb_overlay j 1 width height zoom px py = 0).
  { intros j Hj. now apply negb_false_iff, Z.eqb_eq in Hj. }
  unfold dt_view_guess_image_over. cbv zeta.
  change (Zseq DT_VIEW_ERR (Z.to_nat (DT_VIEW_END - DT_VIEW_ERR)))
    with [-1; 0; 1; 2; 3; 4; 5; 6; 7; 8; 9].
  unfold DT_VIEW_DESERT, DT_VIEW_ALTERED, DECORATION_SIZE_LIMIT.
  set (f := fun i => negb (dt_view_process_image_over DT_PIXEL_APPLY_DPI
                             extended_thumb_overlay i 1 width height zoom
                             px py =? 0)) in *.
  assert (F0 : f (-1) = false)
    by (unfold f; rewrite Hout by lia; reflexivity).
  assert (F1 : f 0 = false)
    by (unfold f; rewrite Hout by lia; reflexivity).
  destruct (Z.ltb_spec 40 width) as [Hw|Hw]; rewrite ?andb_false_r.
  2: { repeat split; try lia. intros j Hj. apply Hout. lia. }
  destruct (show_overlays
            || ((px <? width) && (py <? Z.quot height 2) || (1 <? zoom)))
    eqn:Hd; cbn [andb].
  2: { repeat split; try lia.
       - intros j Hj. apply Hout. lia.
       - intros _ Hs. rewrite Hs in Hd. discriminate. }
  cbn [find]. rewrite F0, F1.
  destruct (f 1) eqn:F_1;
    [ | destruct (f 2) eqn:F_2;
        [ | destruct (f 3) eqn:F_3;
            [ | destruct (f 4) eqn:F_4;
                [ | destruct (f 5) eqn:F_5;
                    [ | destruct (f 6) eqn:F_6;
                        [ | destruct (f 7) eqn:F_7;
                            [ | destruct (f 8) eqn:F_8;
                                [ | destruct (f 9) eqn:F_9 ] ] ] ] ] ] ] ];
    (split; [ lia | ]);
    (split; [ first [ intros _; split; [ now apply Hval | lia ]
                    | intro; exfalso; lia ] | ]);
    (split;
     [ intros j Hj;
       assert (Hc : j < 1 \/ j = 1 \/ j = 2 \/ j = 3 \/ j = 4 \/ j = 5
                    \/ j = 6 \/ j = 7 \/ j = 8) by lia;
       destruct Hc as [Hc|[->|[->|[->|[->|[->|[->|[->| ->]]]]]]]];
       first [ apply Hout; lia | now apply Hnot | exfalso; lia ]
     | first [ intro; exfalso; lia
             | intros _ _ _ j;
               assert (Hc : j < 1 \/ 9 < j \/ j = 1 \/ j = 2 \/ j = 3
                            \/ j = 4 \/ j = 5 \/ j = 6 \/ j = 7 \/ j = 8
                            \/ j = 9) by lia;
               destruct Hc as [Hc|[Hc|[->|[->|[->|[->|[->|[->|[->|[->| ->]]]]]]]]]];
               first [ apply Hout; lia | now apply Hnot ] ] ]).
Qed.

End ImageOverMore.

(** ** The rating stars in the grid, in machine arithmetic *)

Section StarGridFacts.

Variable DT_PIXEL_APPLY_DPI : spec_float -> spec_float.
Variable extended_thumb_overlay : bool.

(** X13.  In the grid ([zoom != 1]), in the arithmetic of the machine, an
    active rating star is reported as hovered exactly when the distance
    test of the star loop succeeds for that star or for a star to its
    right; so when a star is reported as hovered, every star to its left
    is reported as hovered too. *)
Theorem star_hover_in_grid (what active width height px py : Z) :
  active <> 0 ->
  DT_VIEW_STAR_1 <= what <= DT_VIEW_STAR_5 ->
  let hovering w :=
    IEEE754Grid.process_star_grid DT_PIXEL_APPLY_DPI extended_thumb_overlay
                                  w active width height px py in
  (hovering what = 1
   <-> exists i, what <= i <= DT_VIEW_STAR_5
                 /\ IEEE754Grid.on_star DT_PIXEL_APPLY_DPI
                                        extended_thumb_overlay
                                        i width height px py = true)
  /\ (forall lower, DT_VIEW_STAR_1 <= lower <= what ->
                    hovering what = 1 -> hovering lower = 1).
Proof.
  intros Ha Hw. cbv zeta.
  assert (Hstar : forall w, DT_VIEW_STAR_1 <= w <= DT_VIEW_STAR_5 ->
            (IEEE754Grid.process_star_grid DT_PIXEL_APPLY_DPI
               extended_thumb_overlay w active width height px py = 1
             <-> exists i, w <= i <= DT_VIEW_STAR_5
                   /\ IEEE754Grid.on_star DT_PIXEL_APPLY_DPI
                                          extended_thumb_overlay
                                          i width height px py = true)).
  { intros w Hw'. unfold DT_VIEW_STAR_1, DT_VIEW_STAR_5 in Hw'.
    unfold IEEE754Grid.process_star_grid. cbv zeta.
    apply Z.eqb_neq in Ha. rewrite Ha. cbn [negb andb].
    change (Zseq DT_VIEW_STAR_1
                 (Z.to_nat (DT_VIEW_STAR_5 + 1 - DT_VIEW_STAR_1)))
      with [1; 2; 3; 4; 5].
    unfold DT_VIEW_STAR_1, DT_VIEW_STAR_5.
    change (fold_left _ [1; 2; 3; 4; 5] (-1))
      with (fold_left
              (fun star i =>
                 if IEEE754Grid.on_star DT_PIXEL_APPLY_DPI
                      extended_thumb_overlay i width height px py
                 then i else star) [1; 2; 3; 4; 5] (-1)).
    rewrite <- (last_hit_spec _ Hw').
    destruct (Z.ltb_spec (w - 1)
                (fold_left
                   (fun star i =>
                      if IEEE754Grid.on_star DT_PIXEL_APPLY_DPI
                           extended_thumb_overlay i width height px py
                      then i else star) [1; 2; 3; 4; 5] (-1))).
    - split; auto.
    - split; [ discriminate | lia ]. }
  split; [ apply Hstar; exact Hw | ].
  intros lower Hl Hh.
  apply Hstar; [ lia | ].
  apply Hstar in Hh; [ | exact Hw ].
  destruct Hh as [i [Hi Hb]]. exists i. split; [ lia | exact Hb ].
Qed.

End StarGridFacts.

(** ** The images to act on *)

Section AppendIfAbsentFacts.

Lemma find_custom_finds (l : list Z) (imgid : Z) :
  is_some (g_list_find_custom l imgid _images_to_act_on_find_custom)
  = existsb (Z.eqb imgid) l.
Proof.
  unfold g_list_find_custom, _images_to_act_on_find_custom.
  induction l as [|a l IH]; cbn [find existsb]; [ reflexivity | ].
  rewrite (Z.eqb_sym imgid a).
  destruct (a =? imgid); cbn [negb Z.eqb orb is_some]; auto.
Qed.

Lemma existsb_eqb_In (l : list Z) (i : Z) :
  existsb (Z.eqb i) l = true <-> In i l.
Proof.
  rewrite existsb_exists. split.
  - intros [x [Hin Hx]]. apply Z.eqb_eq in Hx. now subst.
  - intro Hin. exists i. split; [ exact Hin | apply Z.eqb_refl ].
Qed.

Lemma append_if_absent_In (l : list Z) (i x : Z) :
  In x (append_if_absent l i) <-> In x l \/ x = i.
Proof.
  unfold append_if_absent. rewrite find_custom_finds.
  destruct (existsb (Z.eqb i) l) eqn:E; cbn [negb].
  - apply existsb_eqb_In in E. split; [ auto | ].
    intros [H| ->]; assumption.
  - rewrite in_app_iff. cbn [In]. intuition.
Qed.

Lemma append_if_absent_NoDup (l : list Z) (i : Z) :
  NoDup l -> NoDup (append_if_absent l i).
Proof.
  intro Hl. unfold append_if_absent. rewrite find_custom_finds.
  destruct (existsb (Z.eqb i) l) eqn:E; cbn [negb]; [ exact Hl | ].
  assert (Hni : ~ In i l)
    by (rewrite <- existsb_eqb_In, E; discriminate).
  apply NoDup_rev in Hl. rewrite <- (rev_involutive (l ++ [i])).
  apply NoDup_rev. rewrite rev_app_distr. cbn [rev app].
  constructor; [ | exact Hl ].
  now rewrite <- in_rev.
Qed.

Lemma append_if_absent_new (l : list Z) (i : Z) :
  ~ In i l -> append_if_absent l i = l ++ [i].
Proof.
  intro Hni. unfold append_if_absent. rewrite find_custom_finds.
  destruct (existsb (Z.eqb i) l) eqn:E; [ | reflexivity ].
  apply existsb_eqb_In in E. contradiction.
Qed.

Lemma append_if_absent_old (l : list Z) (i : Z) :
  In i l -> append_if_absent l i = l.
Proof.
  intro Hi. unfold append_if_absent. rewrite find_custom_finds.
  apply existsb_eqb_In in Hi. now rewrite Hi.
Qed.

Lemma append_each_In (ids l : list Z) (x : Z) :
  In x (fold_left append_if_absent ids l) <-> In x l \/ In x ids.
Proof.
  revert l. induction ids as [|i ids IH]; intro l; cbn [fold_left In].
  - intuition.
  - rewrite IH, append_if_absent_In. intuition.
Qed.

Lemma append_each_NoDup (ids l : list Z) :
  NoDup l -> NoDup (fold_left append_if_absent ids l).
Proof.
  revert l. induction ids as [|i ids IH]; intros l Hl; cbn [fold_left].
  - exact Hl.
  - apply IH. now apply append_if_absent_NoDup.
Qed.

(** Ids that are all new and all different are appended as they come. *)
Lemma append_each_new (ids l : list Z) :
  NoDup (l ++ ids) -> fold_left append_if_absent ids l = l ++ ids.
Proof.
  revert l. induction ids as [|i ids IH]; intros l Hl; cbn [fold_left].
  - now rewrite app_nil_r.
  - rewrite append_if_absent_new.
    + rewrite IH; rewrite <- app_assoc; [ reflexivity | exact Hl ].
    + apply NoDup_remove_2 in Hl. rewrite in_app_iff in Hl. tauto.
Qed.

(** The rows of a join repeat an id; repeating an id adds it once. *)
Lemma append_each_copies (m : Z) {X} (xs : list X) (l : list Z) :
  fold_left append_if_absent (map (fun _ => m) xs) l
  = match xs with
    | [] => l
    | _ :: _ => append_if_absent l m
    end.
Proof.
  destruct xs as [|x xs]; [ reflexivity | ]. cbn [map fold_left].
  induction xs as [|x' xs IH]; [ reflexivity | ]. cbn [map fold_left].
  rewrite (@append_if_absent_old (append_if_absent l m) m); [ exact IH | ].
  apply append_if_absent_In. now right.
Qed.

End AppendIfAbsentFacts.

Section ImagesToActOnFacts.

Variable mouseover : Z.
Variable mouse_inside : bool.
Variable selected_images : list Z.
Variable collected_images : list Z.
Variable active : list Z.
Variable dt_image_cache_get : Z -> option Z.
Variable gui : bool.
Variable grouping : bool.
Variable expanded_group_id : Z.
Variable selection_collection : bool.
Variable images_of_group : Z -> list Z.

Lemma insert_in_list_NoDup (l : list Z) (imgid : Z) (only_visible : bool) :
  NoDup l ->
  NoDup (_images_to_act_on_insert_in_list dt_image_cache_get gui grouping
           expanded_group_id selection_collection images_of_group
           l imgid only_visible).
Proof.
  intro Hl. unfold _images_to_act_on_insert_in_list.
  destruct only_visible; [ now apply append_if_absent_NoDup | ].
  destruct (dt_image_cache_get imgid) as [g|]; [ | exact Hl ].
  destruct (negb gui || negb grouping || (expanded_group_id =? g)
            || negb selection_collection).
  - now apply append_if_absent_NoDup.
  - now apply append_each_NoDup.
Qed.

Lemma insert_each_NoDup (ids l : list Z) (only_visible : bool) :
  NoDup l ->
  NoDup (insert_each dt_image_cache_get gui grouping expanded_group_id
           selection_collection images_of_group ids l only_visible).
Proof.
  unfold insert_each. revert l.
  induction ids as [|i ids IH]; intros l Hl; cbn [fold_left].
  - exact Hl.
  - apply IH. now apply insert_in_list_NoDup.
Qed.

(** X15.  The list that [dt_view_get_images_to_act_on] returns holds no
    image twice, whatever the pointer, the tables, the active images and
    the grouping are, and for both values of [only_visible]. *)
Theorem images_to_act_on_has_no_duplicates (only_visible : bool) :
  NoDup (dt_view_get_images_to_act_on mouseover mouse_inside selected_images
           collected_images active dt_image_cache_get gui grouping
           expanded_group_id selection_collection images_of_group
           only_visible).
Proof.
  unfold dt_view_get_images_to_act_on. cbv zeta.
  repeat match goal with
         | |- context [if ?c then _ else _] => destruct c
         | |- context [match ?c with [] => _ | _ :: _ => _ end] => destruct c
         end;
    first [ apply insert_each_NoDup | apply insert_in_list_NoDup ];
    constructor.
Qed.

Lemma insert_each_visible (ids l : list Z) :
  insert_each dt_image_cache_get gui grouping expanded_group_id
    selection_collection images_of_group ids l true
  = fold_left append_if_absent ids l.
Proof. reflexivity. Qed.

Lemma select_selected_where_rows (imgid : Z) :
  match select_selected_where selected_images imgid with
  | _ :: _ => true
  | [] => false
  end = existsb (Z.eqb imgid) selected_images.
Proof.
  unfold select_selected_where.
  induction selected_images as [|a l IH]; cbn [filter existsb];
    [ reflexivity | ].
  destruct (imgid =? a); [ reflexivity | exact IH ].
Qed.

Lemma select_collected_selected_In (i : Z) :
  In i (select_collected_selected selected_images collected_images)
  <-> In i collected_images /\ In i selected_images.
Proof.
  unfold select_collected_selected. rewrite in_flat_map. split.
  - intros [m [Hm Hi]]. apply in_map_iff in Hi.
    destruct Hi as [x [<- Hx]]. apply filter_In in Hx.
    destruct Hx as [Hx E]. apply Z.eqb_eq in E. subst x. auto.
  - intros [Hc Hs]. exists i. split; [ exact Hc | ].
    apply in_map_iff. exists i. split; [ reflexivity | ].
    apply filter_In. split; [ exact Hs | apply Z.eqb_refl ].
Qed.

(** Inserting the rows of the join is inserting the collected images that
    are selected. *)
Lemma insert_join_rows (l : list Z) :
  fold_left append_if_absent
            (select_collected_selected selected_images collected_images) l
  = fold_left append_if_absent
              (filter (fun m => existsb (Z.eqb m) selected_images)
                      collected_images) l.
Proof.
  unfold select_collected_selected. revert l.
  induction collected_images as [|m c IH]; intro l;
    cbn [flat_map filter]; [ reflexivity | ].
  rewrite fold_left_app, append_each_copies.
  assert (E : existsb (Z.eqb m) selected_images
              = match filter (Z.eqb m) selected_images with
                | [] => false
                | _ :: _ => true
                end).
  { clear. induction selected_images as [|a s IHs]; cbn [filter existsb];
      [ reflexivity | ].
    destruct (m =? a); [ reflexivity | exact IHs ]. }
  rewrite E. destruct (filter (Z.eqb m) selected_images); cbn [fold_left];
    apply IH.
Qed.

(** X16.  With [only_visible] set, [dt_view_get_images_to_act_on] follows
    the table in its comment.  With an image under the pointer, inside the
    thumbnail table and selected, the result holds exactly the collected
    images that are selected (in the order of the collection, if that
    lists no image twice); with an image under the pointer otherwise, the
    result is that image alone.  With no image under the pointer, the
    result holds exactly the active images if there are any, the first
    active image first (and it is the list of active images, if that holds
    no image twice), and the selected images of the collection
    otherwise. *)
Theorem images_to_act_on_visible :
  let l := dt_view_get_images_to_act_on mouseover mouse_inside
             selected_images collected_images active dt_image_cache_get gui
             grouping expanded_group_id selection_collection images_of_group
             true in
  let selection :=
    (forall i, In i l <-> In i collected_images /\ In i selected_images)
    /\ (NoDup collected_images ->
        l = filter (fun m => existsb (Z.eqb m) selected_images)
                   collected_images) in
  if 0 <? mouseover then
    if mouse_inside && existsb (Z.eqb mouseover) selected_images
    then selection
    else l = [mouseover]
  else
    match active with
    | _ :: _ =>
        (forall i, In i l <-> In i active)
        /\ hd_error l = hd_error active
        /\ (NoDup active -> l = active)
    | [] => selection
    end.
Proof.
  cbv zeta. unfold dt_view_get_images_to_act_on. cbv zeta.
  rewrite select_selected_where_rows, !insert_each_visible.
  assert (Hsel :
    (forall i,
        In i (fold_left append_if_absent
                (select_collected_selected selected_images collected_images)
                [])
        <-> In i collected_images /\ In i selected_images)
    /\ (NoDup collected_images ->
        fold_left append_if_absent
          (select_collected_selected selected_images collected_images) []
        = filter (fun m => existsb (Z.eqb m) selected_images)
                 collected_images)).
  { split.
    - intro i. rewrite append_each_In, select_collected_selected_In.
      cbn [In]. tauto.
    - intro Hc. rewrite insert_join_rows.
      apply (@append_each_new _ []). cbn [app].
      now apply NoDup_filter. }
  destruct (0 <? mouseover).
  - destruct mouse_inside; cbn [andb]; [ | reflexivity ].
    destruct (existsb (Z.eqb mouseover) selected_images);
      [ exact Hsel | reflexivity ].
  - destruct active as [|a rest] eqn:Ha; [ exact Hsel | ].
    assert (Hlen : (0 <? g_slist_length (a :: rest)) = true)
      by (apply Z.ltb_lt; unfold g_slist_length; cbn [List.length]; lia).
    rewrite Hlen. repeat split.
    + intro H. apply append_each_In in H. destruct H as [[]|H]. exact H.
    + intro H. apply append_each_In. now right.
    + cbn [fold_left]. rewrite (@append_if_absent_new [] a) by (cbn; tauto).
      cbn [app].
      assert (Hhd : forall ids l x,
                hd_error (fold_left append_if_absent ids (x :: l)) = Some x).
      { induction ids as [|i ids IH]; intros l x; cbn [fold_left];
          [ reflexivity | ].
        unfold append_if_absent.
        destruct (negb _); [ apply (IH (l ++ [i])) | apply IH ]. }
      apply Hhd.
    + intro Hn. now apply (@append_each_new _ []).
Qed.

(** X17.  When grouping is switched off or the selection has no
    collection, or when there is no GUI and no image under the pointer
    (with an image under the pointer the function reads
    [darktable.gui->ui] first, so it needs the GUI), and the image cache
    knows every image, [only_visible] makes no difference to
    [dt_view_get_images_to_act_on]. *)
Theorem images_to_act_on_without_grouping :
  (gui = true /\ (grouping = false \/ selection_collection = false))
  \/ (gui = false /\ mouseover <= 0) ->
  (forall imgid, dt_image_cache_get imgid <> None) ->
  dt_view_get_images_to_act_on mouseover mouse_inside selected_images
    collected_images active dt_image_cache_get gui grouping
    expanded_group_id selection_collection images_of_group false
  = dt_view_get_images_to_act_on mouseover mouse_inside selected_images
      collected_images active dt_image_cache_get gui grouping
      expanded_group_id selection_collection images_of_group true.
Proof.
  intros Hg Hc.
  assert (Hins : forall l imgid,
            _images_to_act_on_insert_in_list dt_image_cache_get gui grouping
              expanded_group_id selection_collection images_of_group
              l imgid false
            = _images_to_act_on_insert_in_list dt_image_cache_get gui
                grouping expanded_group_id selection_collection
                images_of_group l imgid true).
  { intros l imgid. unfold _images_to_act_on_insert_in_list.
    destruct (dt_image_cache_get imgid) as [g|] eqn:E;
      [ | now apply Hc in E ].
    assert (Hg' : negb gui || negb grouping || (expanded_group_id =? g)
                  || negb selection_collection = true)
      by (destruct Hg as [[-> [-> | ->]]|[-> _]];
          destruct (expanded_group_id =? g); cbn;
          rewrite ?orb_true_r; reflexivity).
    now rewrite Hg'. }
  assert (Heach : forall ids l,
            insert_each dt_image_cache_get gui grouping expanded_group_id
              selection_collection images_of_group ids l false
            = insert_each dt_image_cache_get gui grouping expanded_group_id
                selection_collection images_of_group ids l true).
  { unfold insert_each. induction ids as [|i ids IH]; intro l;
      cbn [fold_left]; [ reflexivity | ].
    now rewrite Hins, IH. }
  unfold dt_view_get_images_to_act_on. cbv zeta.
  now rewrite !Heach, !Hins.
Qed.

Lemma insert_in_list_In (l : list Z) (imgid i : Z) :
  In i (_images_to_act_on_insert_in_list dt_image_cache_get gui grouping
          expanded_group_id selection_collection images_of_group
          l imgid false) ->
  In i l \/ i = imgid
  \/ exists g, dt_image_cache_get imgid = Some g /\ In i (images_of_group g).
Proof.
  unfold _images_to_act_on_insert_in_list.
  destruct (dt_image_cache_get imgid) as [g|]; [ | auto ].
  destruct (negb gui || negb grouping || (expanded_group_id =? g)
            || negb selection_collection).
  - rewrite append_if_absent_In. tauto.
  - rewrite append_each_In. intros [H|H]; [ auto | ].
    right. right. exists g. auto.
Qed.

Lemma insert_in_list_keeps (l : list Z) (imgid i : Z) :
  In i l ->
  In i (_images_to_act_on_insert_in_list dt_image_cache_get gui grouping
          expanded_group_id selection_collection images_of_group
          l imgid false).
Proof.
  intro Hi. unfold _images_to_act_on_insert_in_list.
  destruct (dt_image_cache_get imgid) as [g|]; [ | exact Hi ].
  destruct (negb gui || negb grouping || (expanded_group_id =? g)
            || negb selection_collection).
  - apply append_if_absent_In. now left.
  - apply append_each_In. now left.
Qed.

Lemma insert_each_hidden_In (ids l : list Z) (i : Z) :
  In i (insert_each dt_image_cache_get gui grouping expanded_group_id
          selection_collection images_of_group ids l false) ->
  In i l \/ In i ids
  \/ exists j g, In j ids /\ dt_image_cache_get j = Some g
                 /\ In i (images_of_group g).
Proof.
  unfold insert_each. revert l.
  induction ids as [|x ids IH]; intro l; cbn [fold_left In]; [ auto | ].
  intro H. apply IH in H. destruct H as [H|[H|(j & g & Hj & Hg & Hi)]].
  - apply insert_in_list_In in H. destruct H as [H|[H|(g & Hg & Hi)]].
    + auto.
    + subst. auto.
    + right. right. exists x, g. auto.
  - auto.
  - right. right. exists j, g. auto.
Qed.

Lemma insert_each_hidden_keeps (ids l : list Z) (i : Z) :
  (forall imgid, dt_image_cache_get imgid <> None) ->
  (forall imgid g, dt_image_cache_get imgid = Some g ->
                   In imgid (images_of_group g)) ->
  In i l \/ In i ids ->
  In i (insert_each dt_image_cache_get gui grouping expanded_group_id
          selection_collection images_of_group ids l false).
Proof.
  intros Hc Hg. unfold insert_each. revert l.
  induction ids as [|x ids IH]; intro l; cbn [fold_left In].
  - tauto.
  - intros [H|[H|H]]; apply IH; auto.
    + left. now apply insert_in_list_keeps.
    + subst x. left. unfold _images_to_act_on_insert_in_list.
      destruct (dt_image_cache_get i) as [g|] eqn:E; [ | now apply Hc in E ].
      destruct (negb gui || negb grouping || (expanded_group_id =? g)
                || negb selection_collection).
      * apply append_if_absent_In. now right.
      * apply append_each_In. right. now apply Hg.
Qed.

(** X18.  Without [only_visible], [dt_view_get_images_to_act_on] adds
    nothing but members of groups: every image of the result is an image
    of the result with [only_visible] or belongs, by the query for the
    group, to the group of such an image.  And it drops nothing, provided
    the image cache knows every image and the query for a group returns
    the image it is asked for. *)
Theorem images_to_act_on_hidden_group_members :
  let visible :=
    dt_view_get_images_to_act_on mouseover mouse_inside selected_images
      collected_images active dt_image_cache_get gui grouping
      expanded_group_id selection_collection images_of_group true in
  let all :=
    dt_view_get_images_to_act_on mouseover mouse_inside selected_images
      collected_images active dt_image_cache_get gui grouping
      expanded_group_id selection_collection images_of_group false in
  (forall i, In i all ->
     In i visible
     \/ exists j g, In j visible /\ dt_image_cache_get j = Some g
                    /\ In i (images_of_group g))
  /\ ((forall imgid, dt_image_cache_get imgid <> None) ->
      (forall imgid g, dt_image_cache_get imgid = Some g ->
                       In imgid (images_of_group g)) ->
      forall i, In i visible -> In i all).
Proof.
  cbv zeta.
  assert (Hone : forall ov,
            _images_to_act_on_insert_in_list dt_image_cache_get gui grouping
              expanded_group_id selection_collection images_of_group
              [] mouseover ov
            = insert_each dt_image_cache_get gui grouping expanded_group_id
                selection_collection images_of_group [mouseover] [] ov)
    by reflexivity.
  assert (Hv : forall ids i,
            In i (insert_each dt_image_cache_get gui grouping
                    expanded_group_id selection_collection images_of_group
                    ids [] true) <-> In i ids).
  { intros ids i. rewrite insert_each_visible, append_each_In.
    cbn [In]. tauto. }
  unfold dt_view_get_images_to_act_on. cbv zeta. rewrite !Hone.
  split.
  - intros i.
    repeat match goal with
           | |- context [if ?c then _ else _] => destruct c
           | |- context [match ?c with [] => _ | _ :: _ => _ end] =>
               destruct c
           end;
      intro H; apply insert_each_hidden_In in H;
      destruct H as [[]|[H|(j & g & Hj & Hg & Hi)]];
      first [ left; apply (proj2 (Hv _ _)); exact H
            | right; exists j, g; repeat split; auto;
              apply (proj2 (Hv _ _)); exact Hj ].
  - intros Hc Hg i.
    repeat match goal with
           | |- context [if ?c then _ else _] => destruct c
           | |- context [match ?c with [] => _ | _ :: _ => _ end] =>
               destruct c
           end;
      intro H; apply (proj1 (Hv _ _)) in H;
      apply insert_each_hidden_keeps; auto.
Qed.

End ImagesToActOnFacts.

(** ** The selection bit *)

Section SelectionFacts.

Variable imgid_is_unique : bool.

Lemma is_selected_In (tbl : list Z) (j : Z) :
  is_selected tbl j = true <-> In j tbl.
Proof. apply existsb_eqb_In. Qed.

Lemma is_selected_delete (tbl : list Z) (imgid j : Z) :
  is_selected (delete_from_selected tbl imgid) j
  = is_selected tbl j && negb (j =? imgid).
Proof.
  unfold is_selected, delete_from_selected.
  induction tbl as [|a tbl IH]; cbn [filter existsb]; [ reflexivity | ].
  destruct (Z.eqb_spec a imgid) as [->|Ha]; cbn [negb existsb].
  - rewrite IH. destruct (Z.eqb_spec j imgid); cbn [orb]; [ | reflexivity ].
    now rewrite !andb_false_r.
  - rewrite IH. destruct (Z.eqb_spec j a) as [->|Hj]; cbn [orb];
      [ | reflexivity ].
    destruct (Z.eqb_spec a imgid); [ contradiction | reflexivity ].
Qed.

Lemma is_selected_make (tbl : list Z) (imgid j : Z) :
  is_selected (make_selected imgid_is_unique tbl imgid) j
  = is_selected tbl j || (j =? imgid).
Proof.
  unfold is_selected, make_selected.
  destruct (imgid_is_unique && existsb (Z.eqb imgid) tbl) eqn:E.
  - apply andb_prop in E. destruct E as [_ E].
    destruct (Z.eqb_spec j imgid) as [->|Hj];
      [ now rewrite E | now rewrite orb_false_r ].
  - rewrite existsb_app. cbn [existsb]. now rewrite orb_false_r.
Qed.

Lemma delete_from_selected_NoDup (tbl : list Z) (imgid : Z) :
  NoDup tbl -> NoDup (delete_from_selected tbl imgid).
Proof. apply NoDup_filter. Qed.

Lemma make_selected_NoDup (tbl : list Z) (imgid : Z) :
  is_selected tbl imgid = false -> NoDup tbl ->
  NoDup (make_selected imgid_is_unique tbl imgid).
Proof.
  intros Hs Hn. unfold make_selected. unfold is_selected in Hs.
  rewrite Hs, andb_false_r.
  rewrite <- (@append_if_absent_new tbl imgid).
  - now apply append_if_absent_NoDup.
  - rewrite <- existsb_eqb_In, Hs. discriminate.
Qed.

Lemma set_selection_bits (tbl : list Z) (imgid value j : Z) :
  is_selected (dt_view_set_selection imgid_is_unique tbl imgid value) j
  = if j =? imgid then negb (value =? 0) else is_selected tbl j.
Proof.
  unfold dt_view_set_selection.
  destruct (is_selected tbl imgid) eqn:Hs, (value =? 0) eqn:Hv;
    cbn [negb]; rewrite ?is_selected_delete, ?is_selected_make;
    destruct (Z.eqb_spec j imgid) as [->|Hj]; cbn [negb];
    rewrite ?andb_false_r, ?andb_true_r, ?orb_false_r, ?orb_true_r;
    auto.
Qed.

Lemma toggle_selection_bits (tbl : list Z) (imgid j : Z) :
  is_selected (dt_view_toggle_selection imgid_is_unique tbl imgid) j
  = if j =? imgid then negb (is_selected tbl imgid) else is_selected tbl j.
Proof.
  unfold dt_view_toggle_selection.
  destruct (is_selected tbl imgid) eqn:Hs;
    rewrite ?is_selected_delete, ?is_selected_make;
    destruct (Z.eqb_spec j imgid) as [->|Hj]; cbn [negb];
    rewrite ?andb_false_r, ?andb_true_r, ?orb_false_r, ?orb_true_r;
    auto.
Qed.

(** X19.  After [dt_view_set_selection] the image is selected exactly
    when [value] is not zero, and the selection of every other image is as
    before.  A second call with the same arguments leaves the table as it
    is, and a table without duplicate rows stays without them; none of this
    depends on the table keeping [imgid] unique by itself. *)
Theorem set_selection_sets_one_bit (tbl : list Z) (imgid value : Z) :
  let tbl' := dt_view_set_selection imgid_is_unique tbl imgid value in
  is_selected tbl' imgid = negb (value =? 0)
  /\ (forall j, j <> imgid -> is_selected tbl' j = is_selected tbl j)
  /\ dt_view_set_selection imgid_is_unique tbl' imgid value = tbl'
  /\ (NoDup tbl -> NoDup tbl').
Proof.
  cbv zeta. repeat split.
  - rewrite set_selection_bits, Z.eqb_refl. reflexivity.
  - intros j Hj. rewrite set_selection_bits.
    apply Z.eqb_neq in Hj. now rewrite Hj.
  - pose proof (set_selection_bits tbl imgid value imgid) as Hb.
    rewrite Z.eqb_refl in Hb.
    unfold dt_view_set_selection at 1. rewrite Hb.
    destruct (value =? 0); reflexivity.
  - intro Hn. unfold dt_view_set_selection.
    destruct (is_selected tbl imgid) eqn:Hs, (value =? 0); cbn [negb];
      auto using delete_from_selected_NoDup, make_selected_NoDup.
Qed.

(** X20.  [dt_view_toggle_selection] inverts the selection of the image
    and keeps the selection of every other image; it is
    [dt_view_set_selection] with the opposite of the current state.
    Toggling twice gives every image the selection it had, and a table
    without duplicate rows stays without them. *)
Theorem toggle_selection_flips_one_bit (tbl : list Z) (imgid : Z) :
  let tbl' := dt_view_toggle_selection imgid_is_unique tbl imgid in
  is_selected tbl' imgid = negb (is_selected tbl imgid)
  /\ (forall j, j <> imgid -> is_selected tbl' j = is_selected tbl j)
  /\ (forall j, is_selected
                  (dt_view_toggle_selection imgid_is_unique tbl' imgid) j
                = is_selected tbl j)
  /\ tbl' = dt_view_set_selection imgid_is_unique tbl imgid
              (if is_selected tbl imgid then 0 else 1)
  /\ (NoDup tbl -> NoDup tbl').
Proof.
  cbv zeta. repeat split.
  - rewrite toggle_selection_bits, Z.eqb_refl. reflexivity.
  - intros j Hj. rewrite toggle_selection_bits.
    apply Z.eqb_neq in Hj. now rewrite Hj.
  - intro j. rewrite !toggle_selection_bits, Z.eqb_refl.
    destruct (Z.eqb_spec j imgid) as [->|Hj]; [ | reflexivity ].
    apply negb_involutive.
  - unfold dt_view_toggle_selection, dt_view_set_selection.
    destruct (is_selected tbl imgid); reflexivity.
  - intro Hn. unfold dt_view_toggle_selection.
    destruct (is_selected tbl imgid) eqn:Hs;
      auto using delete_from_selected_NoDup, make_selected_NoDup.
Qed.

End SelectionFacts.

(** ** The label of an image mode *)

Section ModesStrFacts.

Lemma g_ascii_toupper_not_lower (c : ascii) :
  is_ascii_lower (g_ascii_toupper c) = false.
Proof.
  destruct c as [[] [] [] [] [] [] [] []]; reflexivity.
Qed.

Lemma g_ascii_toupper_idem (c : ascii) :
  g_ascii_toupper (g_ascii_toupper c) = g_ascii_toupper c.
Proof.
  destruct c as [[] [] [] [] [] [] [] []]; reflexivity.
Qed.

Lemma g_ascii_toupper_nul (c : ascii) :
  (uchar (g_ascii_toupper c) =? 0) = (uchar c =? 0).
Proof.
  destruct c as [[] [] [] [] [] [] [] []]; reflexivity.
Qed.

Lemma g_ascii_strup_not_lower (s : string) (c : ascii) :
  In c (list_ascii_of_string (g_ascii_strup s)) -> is_ascii_lower c = false.
Proof.
  induction s as [|a s IH]; cbn [g_ascii_strup]; [ intros [] | ].
  destruct (uchar a =? 0); [ intros [] | ].
  cbn [list_ascii_of_string In]. intros [<-|H].
  - apply g_ascii_toupper_not_lower.
  - now apply IH.
Qed.

Lemma g_ascii_strup_idem (s : string) :
  g_ascii_strup (g_ascii_strup s) = g_ascii_strup s.
Proof.
  induction s as [|a s IH]; cbn [g_ascii_strup]; [ reflexivity | ].
  destruct (uchar a =? 0) eqn:E; [ reflexivity | ].
  cbn [g_ascii_strup].
  now rewrite g_ascii_toupper_nul, E, g_ascii_toupper_idem, IH.
Qed.

Lemma list_ascii_of_string_app (a b : string) :
  list_ascii_of_string (a ++ b)
  = list_ascii_of_string a ++ list_ascii_of_string b.
Proof.
  induction a as [|c a IH]; cbn; [ reflexivity | now rewrite IH ].
Qed.

Lemma g_ascii_strup_app (a b : string) :
  g_ascii_strup b = b ->
  g_ascii_strup (g_ascii_strup a ++ b) = (g_ascii_strup a ++ b)%string.
Proof.
  intro Hb. induction a as [|c a IH]; cbn [g_ascii_strup].
  - exact Hb.
  - destruct (uchar c =? 0) eqn:E; [ exact Hb | ].
    cbn [append g_ascii_strup].
    now rewrite g_ascii_toupper_nul, E, g_ascii_toupper_idem, IH.
Qed.

Lemma string_app_assoc (a b c : string) :
  ((a ++ b) ++ c = a ++ (b ++ c))%string.
Proof.
  induction a as [|x a IH]; cbn [append]; [ reflexivity | now rewrite IH ].
Qed.

(** X21.  The label that [dt_view_extend_modes_str] builds holds no
    lower-case letter of ASCII, whatever the name and the two flags are;
    and building a label from a label, with both flags off, returns it
    unchanged. *)
Theorem modes_str_is_upper_case (name : string) (is_hdr is_bw : bool) :
  let label := dt_view_extend_modes_str name is_hdr is_bw in
  (forall c, In c (list_ascii_of_string label) -> is_ascii_lower c = false)
  /\ dt_view_extend_modes_str label false false = label.
Proof.
  cbv zeta. unfold dt_view_extend_modes_str. cbv zeta.
  split.
  - intros c.
    destruct is_hdr, is_bw; rewrite ?list_ascii_of_string_app, ?in_app_iff;
      intros H;
      repeat match goal with
             | H : _ \/ _ |- _ => destruct H as [H|H]
             end;
      try (now apply g_ascii_strup_not_lower in H);
      cbn in H; intuition (subst; reflexivity).
  - destruct is_hdr, is_bw.
    + rewrite string_app_assoc.
      apply g_ascii_strup_app. reflexivity.
    + apply g_ascii_strup_app. reflexivity.
    + apply g_ascii_strup_app. reflexivity.
    + apply g_ascii_strup_idem.
Qed.

End ModesStrFacts.

(** ** The statements on the concrete configuration *)

(** C2.  [dt_view_manager_button_released] is not the first-responder
    dispatch that [dt_view_manager_button_pressed] is.  With the lighttable
    active and three lib modules of which only the second one visited
    ("histogram") handles button events, a press stops after "histogram",
    but a release goes on to "import".  And with no lib module and a view
    whose handlers return 1, a press returns the 1 of the view, but a
    release returns 0. *)
Theorem button_released_is_not_first_responder :
  let s := demo_state (Some demo_lighttable) [] 0 in
  let pressed :=
    dt_view_manager_button_pressed
      (collaborators := demo_collaborators demo_plugins) 0 0 0 1 0 0 s in
  let released :=
    dt_view_manager_button_released
      (collaborators := demo_collaborators demo_plugins) 0 0 1 0 s in
  let s' := demo_state (Some demo_map) [] 0 in
  let pressed' :=
    dt_view_manager_button_pressed
      (collaborators := demo_collaborators []) 0 0 0 1 0 0 s' in
  let released' :=
    dt_view_manager_button_released
      (collaborators := demo_collaborators []) 0 0 1 0 s' in
  (val pressed, log pressed)
  = (1, [EvLib "navigation" L_button_pressed 0;
         EvLib "histogram" L_button_pressed 1])
  /\ (val released, log released)
     = (1, [EvLib "navigation" L_button_released 0;
            EvLib "histogram" L_button_released 1;
            EvLib "import" L_button_released 0])
  /\ (val pressed', log pressed') = (1, [EvView "map" H_button_pressed 1])
  /\ (val released', log released') = (0, [EvView "map" H_button_released 1]).
Proof. repeat split; reflexivity. Qed.

(** C1 as the specification states it fails: with active images [3; 4] and
    image 7 under the pointer, the image to act on is 7, not 3. *)
Lemma image_to_act_on_prefers_mouse_over :
  let s := demo_state None [3; 4] 7 in
  active_images (view_manager s) <> []
  /\ val (dt_view_get_image_to_act_on
            (collaborators := demo_collaborators []) s)
     <> hd 0 (active_images (view_manager s)).
Proof. split; cbn; discriminate. Qed.

(** With the same active images and no image under the pointer, the image
    to act on is 3. *)
Lemma image_to_act_on_mouse_over_then_active_witness :
  let s := demo_state None [3; 4] 0 in
  active_images (view_manager s) <> []
  /\ val (dt_view_get_image_to_act_on
            (collaborators := demo_collaborators []) s) = 3.
Proof.
  split; [ discriminate | ].
  apply (image_to_act_on_mouse_over_then_active
           (collaborators := demo_collaborators [])
           (demo_state None [3; 4] 0)).
  discriminate.
Defined.

(** The view "tethering" refuses entry with code 5. *)
Lemma switch_refused_by_entry_guard_witness :
  let s := demo_state (Some demo_lighttable) [] 0 in
  let r := dt_view_manager_switch_by_view
             (collaborators := demo_collaborators demo_plugins)
             (Some demo_tethering) s in
  val r = 5
  /\ view_manager (post r) = view_manager s
  /\ filter is_hook (log r) = [EvView "tethering" H_try_enter 5]
  /\ filter is_view_lifecycle (log r) = [].
Proof.
  apply (switch_refused_by_entry_guard
           (collaborators := demo_collaborators demo_plugins)
           demo_tethering (demo_state (Some demo_lighttable) [] 0)
           (error := 5)).
  - reflexivity.
  - lia.
Defined.

(** From the lighttable to the darkroom, whose entry guard returns 0. *)
Lemma switch_enters_new_view_witness :
  let s := demo_state (Some demo_lighttable) [] 0 in
  let r := dt_view_manager_switch_by_view
             (collaborators := demo_collaborators demo_plugins)
             (Some demo_darkroom) s in
  val r = 0
  /\ current_view (view_manager (post r)) = Some demo_darkroom
  /\ filter is_view_lifecycle (log r)
     = [EvView "lighttable" H_leave 0; EvView "darkroom" H_enter 0].
Proof.
  apply (switch_enters_new_view
           (collaborators := demo_collaborators demo_plugins)
           demo_darkroom (demo_state (Some demo_lighttable) [] 0)).
  right. reflexivity.
Defined.

(** Four views, loaded in two orders. *)
Lemma registry_order_independent_of_load_order_witness :
  let loaded := [demo_map; demo_darkroom; demo_tethering; demo_lighttable] in
  let loaded' := [demo_lighttable; demo_tethering; demo_darkroom; demo_map] in
  let registry := dt_view_manager_load_modules loaded in
  let registry' := dt_view_manager_load_modules loaded' in
  Permutation loaded loaded'
  /\ registry = [demo_lighttable; demo_darkroom; demo_map; demo_tethering]
  /\ registry' = [demo_lighttable; demo_darkroom; demo_map; demo_tethering]
  /\ Permutation loaded registry
  /\ registry
     = flat_map (fun n => listed_as n registry) view_order ++ unlisted registry
  /\ StronglySorted (@name_le Z) (unlisted registry)
  /\ Forall2 (@registry_eqv Z) registry registry'
  /\ registry = registry'.
Proof.
  assert (Hp : Permutation
                 [demo_map; demo_darkroom; demo_tethering; demo_lighttable]
                 [demo_lighttable; demo_tethering; demo_darkroom; demo_map])
    by (apply (Permutation_rev
                 [demo_map; demo_darkroom; demo_tethering; demo_lighttable])).
  split; [ exact Hp | ]. split; [ reflexivity | ]. split; [ reflexivity | ].
  destruct (registry_order_independent_of_load_order Hp)
    as (H1 & H2 & H3 & H4 & H5).
  split; [ exact H1 | ]. split; [ exact H2 | ]. split; [ exact H3 | ].
  split; [ exact H4 | ].
  apply H5.
  intros a b [<-|[<-|[<-|[<-|[]]]]] [<-|[<-|[<-|[<-|[]]]]] H;
    first [ reflexivity | vm_compute in H; discriminate ].
Defined.

(** "histogram" claims the motion; "import" is called all the same, and
    the lighttable is not. *)
Lemma mouse_moved_reaches_every_module_witness :
  let s := demo_state (Some demo_lighttable) [] 0 in
  let r := dt_view_manager_mouse_moved
             (collaborators := demo_collaborators demo_plugins) 0 0 0 1 s in
  current_view (view_manager s) = Some demo_lighttable
  /\ log r = [EvLib "navigation" L_mouse_moved 0;
              EvLib "histogram" L_mouse_moved 1;
              EvLib "import" L_mouse_moved 0]
  /\ map forget_ret (filter is_lib_call (log r))
     = map (fun p => EvLib (plugin_name p) L_mouse_moved 0)
           (consulted (collaborators := demo_collaborators demo_plugins)
                      (fun p => is_some (lib_mouse_moved p))
                      demo_lighttable demo_plugins)
  /\ filter is_view_call (log r)
     = (if none_handled (filter is_lib_call (log r))
           && is_some (mouse_moved demo_lighttable)
        then [EvView "lighttable" H_mouse_moved 0] else [])
  /\ log r = filter is_lib_call (log r) ++ filter is_view_call (log r).
Proof.
  split; [ reflexivity | ]. split; [ reflexivity | ].
  apply (mouse_moved_reaches_every_module
           (collaborators := demo_collaborators demo_plugins)
           (demo_state (Some demo_lighttable) [] 0) 0 0 0 1
           (v := demo_lighttable)).
  reflexivity.
Defined.

(** With a DPI factor of 0.8 and a width of 200 the radius is 8 and the
    third star is centred on the pixel (94, 72). *)
Lemma star_three_hit_test_witness :
  let dpi := fun v : Q => (v * 0.8)%Q in
  let hovering what :=
    dt_view_process_image_over dpi false what 1 200 150 1 94 72 in
  (flt 94 == star_centre_x dpi DT_VIEW_STAR_3 200)%Q
  /\ (flt 72 == star_centre_y dpi 200)%Q
  /\ hovering DT_VIEW_STAR_3 = 1
  /\ hovering DT_VIEW_STAR_1 = 0
  /\ hovering DT_VIEW_STAR_2 = 0
  /\ hovering DT_VIEW_STAR_4 = 0
  /\ hovering DT_VIEW_STAR_5 = 0.
Proof.
  split; [ reflexivity | ]. split; [ reflexivity | ].
  apply (@star_three_hit_test (fun v : Q => (v * 0.8)%Q) false 1 200 150 94 72).
  - reflexivity.
  - lia.
  - lia.
  - reflexivity.
  - reflexivity.
Defined.

(** A thumbnail of width 40, overlays always shown. *)
Lemma no_overlay_on_small_thumbnails_witness :
  (40 <= DECORATION_SIZE_LIMIT)
  /\ dt_view_guess_image_over (fun v : Q => v) false true 40 40 1 10 10
     = DT_VIEW_DESERT.
Proof.
  split; [ unfold DECORATION_SIZE_LIMIT; lia | ].
  apply (@no_overlay_on_small_thumbnails (fun v : Q => v) false true
                                         40 40 1 10 10).
  unfold DECORATION_SIZE_LIMIT. lia.
Defined.

(** The machine arithmetic agrees with the rational reading on the input of
    [star_three_hit_test_witness]: with a DPI factor of 0.8 and a width of
    200 the radius is 8, the centre of the third star is the pixel (94, 72),
    and the pointer there hovers the third star only. *)
Example star_three_hit_test_ieee754 :
  let dpi := fun v => SFmul 53 1024 (IEEE754.double_of_float v)
                            (IEEE754.double_lit 8 10) in
  IEEE754.overlay_r1 dpi 200 = IEEE754.float_of_int 8
  /\ IEEE754.star_centre_x dpi DT_VIEW_STAR_3 200 = IEEE754.float_of_int 94
  /\ IEEE754.star_centre_y dpi 200 = IEEE754.float_of_int 72
  /\ map (fun what => IEEE754.process_star_single_image dpi what 1 200 94 72)
         [DT_VIEW_STAR_1; DT_VIEW_STAR_2; DT_VIEW_STAR_3; DT_VIEW_STAR_4;
          DT_VIEW_STAR_5]
     = [0; 0; 1; 0; 0].
Proof. repeat split; vm_compute; reflexivity. Qed.

(** No view "print" is registered. *)
Lemma switch_to_unknown_view_witness :
  let s := demo_state (Some demo_lighttable) [3] 0 in
  empty_c_string "print" = false
  /\ dt_view_manager_switch (collaborators := demo_collaborators demo_plugins)
                            "print" s
     = (1, s, []).
Proof.
  split; [ reflexivity | ].
  apply (switch_to_unknown_view
           (collaborators := demo_collaborators demo_plugins)
           "print" (demo_state (Some demo_lighttable) [3] 0)).
  - reflexivity.
  - intros v [<-|[<-|[<-|[<-|[]]]]]; vm_compute; discriminate.
Defined.

(** From the lighttable to "print": "import" belongs to the lighttable
    only, "filmstrip" has no [view_leave]. *)
Lemma switch_hook_order_witness :
  let s := demo_state (Some demo_lighttable) [] 0 in
  let r := dt_view_manager_switch_by_view
             (collaborators := demo_collaborators demo_panels)
             (Some demo_print) s in
  filter is_switch_hook (log r)
  = [EvView "print" H_try_enter 0;
     EvView "lighttable" H_leave 0;
     EvLib "import" L_view_leave 0;
     EvLib "histogram" L_view_leave 0;
     EvLib "filmstrip" L_connect_key_accels 0;
     EvLib "filmstrip" L_view_enter 0;
     EvLib "histogram" L_view_enter 0;
     EvView "print" H_enter 0;
     EvView "print" H_connect_key_accels 0].
Proof.
  apply (switch_hook_order
           (collaborators := demo_collaborators demo_panels)
           demo_print (demo_state (Some demo_lighttable) [] 0)).
  right. reflexivity.
Defined.

(** "histogram" handles the press, so "import" is not asked. *)
Lemma button_pressed_first_responder_witness :
  let s := demo_state (Some demo_lighttable) [] 0 in
  let r := dt_view_manager_button_pressed
             (collaborators := demo_collaborators demo_plugins)
             0 0 0 1 0 0 s in
  let lib_calls := filter is_lib_call (log r) in
  log r = [EvLib "navigation" L_button_pressed 0;
           EvLib "histogram" L_button_pressed 1]
  /\ (exists k,
         map forget_ret lib_calls
         = map (fun p => EvLib (plugin_name p) L_button_pressed 0)
               (firstn k
                  (consulted (collaborators := demo_collaborators demo_plugins)
                     (fun p => is_some (lib_button_pressed p))
                     demo_lighttable demo_plugins))
         /\ (none_handled lib_calls = true ->
             k = List.length
                   (consulted (collaborators := demo_collaborators demo_plugins)
                      (fun p => is_some (lib_button_pressed p))
                      demo_lighttable demo_plugins)))
  /\ none_handled (removelast lib_calls) = true
  /\ val r = 1 /\ filter is_view_call (log r) = [].
Proof.
  split; [ reflexivity | ].
  apply (button_pressed_first_responder
           (collaborators := demo_collaborators demo_plugins)
           (demo_state (Some demo_lighttable) [] 0) 0 0 0 1 0 0
           (v := demo_lighttable)).
  reflexivity.
Defined.

(** "histogram" handles the release; "import" is asked all the same. *)
Lemma button_released_reaches_every_module_witness :
  let s := demo_state (Some demo_lighttable) [] 0 in
  let r := dt_view_manager_button_released
             (collaborators := demo_collaborators demo_plugins) 0 0 1 0 s in
  map forget_ret (filter is_lib_call (log r))
  = [EvLib "navigation" L_button_released 0;
     EvLib "histogram" L_button_released 0;
     EvLib "import" L_button_released 0]
  /\ val r = 1
  /\ map forget_ret (filter is_view_call (log r)) = [].
Proof.
  apply (button_released_reaches_every_module
           (collaborators := demo_collaborators demo_plugins)
           (demo_state (Some demo_lighttable) [] 0) 0 0 1 0
           (v := demo_lighttable)).
  reflexivity.
Defined.

(** The pointer leaves the window over "print": "filmstrip" is told, does
    not claim the event, and the view is told after it. *)
Lemma mouse_leave_reaches_every_module_witness :
  let s := demo_state (Some demo_print) [] 0 in
  let r := dt_view_manager_mouse_leave
             (collaborators := demo_collaborators demo_panels) s in
  log r = [EvLib "filmstrip" L_mouse_leave 0; EvView "print" H_mouse_leave 0]
  /\ map forget_ret (filter is_lib_call (log r))
     = [EvLib "filmstrip" L_mouse_leave 0]
  /\ filter is_view_call (log r) = [EvView "print" H_mouse_leave 0]
  /\ log r = filter is_lib_call (log r) ++ filter is_view_call (log r).
Proof.
  split; [ reflexivity | ].
  apply (mouse_leave_reaches_every_module
           (collaborators := demo_collaborators demo_panels)
           (demo_state (Some demo_print) [] 0) (v := demo_print)).
  reflexivity.
Defined.

(** Before the first switch no view is active. *)
Lemma events_without_active_view_witness :
  let s := demo_state None [] 0 in
  current_view (view_manager s) = None
  /\ dt_view_manager_mouse_moved
       (collaborators := demo_collaborators demo_plugins) 0 0 0 1 s
     = (tt, s, [])
  /\ dt_view_manager_mouse_leave
       (collaborators := demo_collaborators demo_plugins) s
     = (tt, s, [])
  /\ dt_view_manager_button_pressed
       (collaborators := demo_collaborators demo_plugins) 0 0 0 1 0 0 s
     = (0, s, [])
  /\ dt_view_manager_button_released
       (collaborators := demo_collaborators demo_plugins) 0 0 1 0 s
     = (0, s, []).
Proof.
  split; [ reflexivity | ].
  apply (events_without_active_view
           (collaborators := demo_collaborators demo_plugins)
           (demo_state None [] 0) 0 0 0 1 0 0).
  reflexivity.
Defined.

(** Image 5 is added to the active images [3; 4], then to no active image
    at all. *)
Lemma image_to_act_on_after_add_witness :
  let s := demo_state None [3; 4] 0 in
  let s' := post (dt_view_active_images_add
                    (collaborators := demo_collaborators []) 5 1 s) in
  mouse_over_id (collaborators := demo_collaborators []) s' <= 0
  /\ val (dt_view_get_image_to_act_on
            (collaborators := demo_collaborators []) s') = 3.
Proof.
  split; [ vm_compute; discriminate | ].
  apply (image_to_act_on_after_add
           (collaborators := demo_collaborators []) 5 1
           (demo_state None [3; 4] 0)).
  vm_compute. discriminate.
Defined.

(** A thumbnail of 200 by 200 pixels in the grid, with a DPI factor of 0.8:
    the radius is 8 and the third star is centred on the pixel (100, 183). *)
Lemma star_hover_in_grid_witness :
  let dpi := fun v => SFmul 53 1024 (IEEE754.double_of_float v)
                            (IEEE754.double_lit 8 10) in
  let hovering w :=
    IEEE754Grid.process_star_grid dpi false w 1 200 200 100 183 in
  IEEE754Grid.on_star dpi false 3 200 200 100 183 = true
  /\ map hovering [1; 2; 3; 4; 5] = [1; 1; 1; 0; 0]
  /\ (hovering 3 = 1
      <-> exists i, 3 <= i <= DT_VIEW_STAR_5
                    /\ IEEE754Grid.on_star dpi false i 200 200 100 183 = true)
  /\ (forall lower, DT_VIEW_STAR_1 <= lower <= 3 ->
                    hovering 3 = 1 -> hovering lower = 1).
Proof.
  split; [ vm_compute; reflexivity | ].
  split; [ vm_compute; reflexivity | ].
  apply (@star_hover_in_grid
           (fun v => SFmul 53 1024 (IEEE754.double_of_float v)
                           (IEEE754.double_lit 8 10))
           false 3 1 200 200 100 183).
  - lia.
  - unfold DT_VIEW_STAR_1, DT_VIEW_STAR_5. lia.
Defined.

(** The pointer is over the selected image 2, inside the table: the images
    to act on are the selected images of the collection, in its order. *)
Lemma images_to_act_on_visible_witness :
  let l := dt_view_get_images_to_act_on
             2 true [4; 2; 9] [1; 2; 3; 4] [7] demo_group_of true true (-1)
             true demo_images_of_group true in
  NoDup [1; 2; 3; 4] /\ l = [2; 4].
Proof.
  assert (Hn : NoDup [1; 2; 3; 4])
    by (repeat constructor; cbn; intuition discriminate).
  split; [ exact Hn | ].
  exact (proj2 (@images_to_act_on_visible
                  2 true [4; 2; 9] [1; 2; 3; 4] [7] demo_group_of true true
                  (-1) true demo_images_of_group) Hn).
Defined.

(** Grouping is switched off: the hidden images of a group are not
    added. *)
Lemma images_to_act_on_without_grouping_witness :
  dt_view_get_images_to_act_on
    0 false [4; 2] [1; 2; 3; 4] [] demo_group_of true false (-1) true
    demo_images_of_group false
  = [2; 4].
Proof.
  apply (@images_to_act_on_without_grouping
           0 false [4; 2] [1; 2; 3; 4] [] demo_group_of true false (-1) true
           demo_images_of_group).
  - left. split; [ reflexivity | left; reflexivity ].
  - discriminate.
Defined.

(** Grouping is switched on and the pointer is over image 10, outside the
    table: image 11 of the same group is acted on as well. *)
Lemma images_to_act_on_hidden_group_members_witness :
  let visible :=
    dt_view_get_images_to_act_on
      10 false [4; 2] [1; 2; 3; 4] [] demo_group_of true true (-1) true
      demo_images_of_group true in
  let all :=
    dt_view_get_images_to_act_on
      10 false [4; 2] [1; 2; 3; 4] [] demo_group_of true true (-1) true
      demo_images_of_group false in
  visible = [10] /\ all = [10; 11]
  /\ forall i, In i visible -> In i all.
Proof.
  split; [ reflexivity | ]. split; [ reflexivity | ].
  apply (proj2 (@images_to_act_on_hidden_group_members
                  10 false [4; 2] [1; 2; 3; 4] [] demo_group_of true true
                  (-1) true demo_images_of_group)).
  - discriminate.
  - intros imgid g H.
    assert (Hg : g = 2 * (imgid / 2))
      by (unfold demo_group_of in H; congruence).
    unfold demo_images_of_group.
    pose proof (Z.div_mod imgid 2). pose proof (Z.mod_pos_bound imgid 2).
    assert (Hc : g = imgid \/ g + 1 = imgid) by lia.
    destruct Hc as [Hc|Hc]; [ left | right; left ]; exact Hc.
Defined.

(** The machine arithmetic agrees with the rational reading on the input of
    [star_hover_in_grid_witness]: the pointer on the third star of the grid
    thumbnail lights the first three stars. *)
Example star_hover_in_grid_ieee754 :
  let dpi := fun v => SFmul 53 1024 (IEEE754.double_of_float v)
                            (IEEE754.double_lit 8 10) in
  let stars := [DT_VIEW_STAR_1; DT_VIEW_STAR_2; DT_VIEW_STAR_3;
                DT_VIEW_STAR_4; DT_VIEW_STAR_5] in
  IEEE754Grid.star_centre_x dpi 3 200 = IEEE754.float_of_int 100
  /\ IEEE754Grid.overlay_y dpi false 200 200 = IEEE754.float_of_int 183
  /\ map (fun what =>
            IEEE754Grid.process_star_grid dpi false what 1 200 200 100 183)
         stars
     = [1; 1; 1; 0; 0]
  /\ map (fun what =>
            dt_view_process_image_over (fun v : Q => (v * 0.8)%Q) false
                                       what 1 200 200 5 100 183)
         stars
     = [1; 1; 1; 0; 0].
Proof. vm_compute. repeat split. Qed.

(** The two readings differ next to the border of a disc, which is why the
    statement about the stars of the grid is made in machine arithmetic.
    On a thumbnail of 293 by 293 pixels with a DPI factor of 1.25 and the
    extended overlay, the pointer (146, 260) is inside the disc of the
    third star as the machine computes it, and outside it in exact
    arithmetic. *)
Example star_hover_in_grid_rounding :
  let dpi := fun v => SFmul 53 1024 (IEEE754.double_of_float v)
                            (IEEE754.double_lit 125 100) in
  let stars := [DT_VIEW_STAR_1; DT_VIEW_STAR_2; DT_VIEW_STAR_3;
                DT_VIEW_STAR_4; DT_VIEW_STAR_5] in
  map (fun what =>
         IEEE754Grid.process_star_grid dpi true what 1 293 293 146 260)
      stars
  = [1; 1; 1; 0; 0]
  /\ map (fun what =>
            dt_view_process_image_over (fun v : Q => (v * 1.25)%Q) true
                                       what 1 293 293 5 146 260)
         stars
     = [0; 0; 0; 0; 0].
Proof. vm_compute. repeat split. Qed.

(** Views that [sort_views] cannot tell apart, here two views outside
    [view_order] with the same display name, keep the order of loading
    among themselves. *)
Example registry_ties_follow_load_order :
  let a := demo_view "aaa" "same" None 0 in
  let b := demo_view "bbb" "same" None 0 in
  sort_views a b = 0
  /\ dt_view_manager_load_modules [a; b] = [a; b]
  /\ dt_view_manager_load_modules [b; a] = [b; a].
Proof. repeat split. Qed.
